(** * lisp-acsl: a shallow embedding of [src/Interpreter.ts]

    The model follows the source top to bottom: the value model, [parse],
    the natives of the driver, [fetch], [execute] and [toString], and the
    driver's loop over the statements.  The vocabulary of the properties
    comes next, and then the properties with their proofs.

    Modelling conventions.
    - Program text and atom text are [string]s of ASCII characters;
      [toUpperCase] maps [a]-[z] to [A]-[Z] and leaves every other character
      alone.
    - The [parent] back-reference of a node is only ever copied by the
      evaluator, never read, and is left out.  The parser, which does read it
      (to pop back to the enclosing list), keeps the chain of open lists as a
      stack.
    - Values are not changed once the parser has built them; the environment
      ([Map<string, Value>]) is.  It is a [gmap string Value], threaded
      explicitly together with the text written to standard output: a native
      that calls [memory.set] returns the updated map, and [new Map(memory)]
      is the map itself, copied by value.
    - A [Native] carries the name of its function instead of the function.
    - The evaluator is free-recursive, so [fetch], [execute] and [toString]
      take a fuel argument that bounds the depth of nested calls.
    - Whether a text converts to [NaN] is decided for every text, by the
      grammar of the host's [Number].  The doubles themselves are tracked
      exactly on the integers of magnitude at most 2^53 and are [Opaque]
      elsewhere; a result that needs the text of an opaque double is
      [Unmodelled]. *)

From Stdlib Require Import ZArith String Ascii List Bool Lia DecimalString.
From stdpp Require Import gmap strings list fin_maps.

#[local] Set Warnings "-register-all".

Local Open Scope string_scope.

(** ** Text: upper-casing and the host's numeric conversion *)

Module Text.

Definition code (c : ascii) : N := N_of_ascii c.

(** [String.prototype.toUpperCase] on one ASCII character. *)
Definition upper_char (c : ascii) : ascii :=
  if ((97 <=? code c) && (code c <=? 122))%N
  then ascii_of_N (code c - 32) else c.

Fixpoint toUpperCase (s : string) : string :=
  match s with
  | EmptyString => EmptyString
  | String c r => String (upper_char c) (toUpperCase r)
  end.

(** Template-literal rendering of a length: [`${parameters.length}`]. *)
Definition of_nat (n : nat) : string := NilZero.string_of_uint (Nat.to_uint n).

(** [String(z)] for an integer-valued double below 10^21. *)
Definition of_Z (z : Z) : string := NilZero.string_of_int (Z.to_int z).

Definition is_digit (c : ascii) : bool := ((48 <=? code c) && (code c <=? 57))%N.
Definition is_octal (c : ascii) : bool := ((48 <=? code c) && (code c <=? 55))%N.
Definition is_binary (c : ascii) : bool := ((48 <=? code c) && (code c <=? 49))%N.
Definition is_hex (c : ascii) : bool :=
  is_digit c || ((65 <=? code c) && (code c <=? 70))%N
             || ((97 <=? code c) && (code c <=? 102))%N.

(** [StrWhiteSpaceChar], ASCII part: TAB, LF, VT, FF, CR, SP. *)
Definition is_space (c : ascii) : bool :=
  ((9 <=? code c) && (code c <=? 13))%N || (code c =? 32)%N.

Fixpoint all_chars (p : ascii -> bool) (s : string) : bool :=
  match s with
  | EmptyString => true
  | String c r => p c && all_chars p r
  end.

Definition nonempty (s : string) : bool :=
  match s with EmptyString => false | String _ _ => true end.

Fixpoint drop_while (p : ascii -> bool) (s : string) : string :=
  match s with
  | EmptyString => EmptyString
  | String c r => if p c then drop_while p r else s
  end.

Fixpoint count_while (p : ascii -> bool) (s : string) : nat :=
  match s with
  | EmptyString => 0%nat
  | String c r => if p c then S (count_while p r) else 0%nat
  end.

Fixpoint rev_onto (s acc : string) : string :=
  match s with
  | EmptyString => acc
  | String c r => rev_onto r (String c acc)
  end.

Definition rev (s : string) : string := rev_onto s EmptyString.

Definition trim (s : string) : string :=
  rev (drop_while is_space (rev (drop_while is_space s))).

Definition is_sign (c : ascii) : bool := (code c =? 43)%N || (code c =? 45)%N.

Definition drop_sign (s : string) : string :=
  match s with
  | String c r => if is_sign c then r else s
  | EmptyString => s
  end.

(** [ExponentPart_opt] up to the end of the text. *)
Definition exponent_opt (s : string) : bool :=
  match s with
  | EmptyString => true
  | String c r =>
      ((code c =? 101)%N || (code c =? 69)%N)
      && nonempty (drop_sign r) && all_chars is_digit (drop_sign r)
  end.

(** [StrUnsignedDecimalLiteral]: [Infinity], or digits with an optional
    fraction and exponent, at least one digit before or after the dot. *)
Definition unsigned_decimal (s : string) : bool :=
  if String.eqb s "Infinity" then true
  else
    let n1 := count_while is_digit s in
    let r1 := drop_while is_digit s in
    match r1 with
    | String "."%char r2 =>
        (0 <? n1 + count_while is_digit r2)%nat && exponent_opt (drop_while is_digit r2)
    | _ => (0 <? n1)%nat && exponent_opt r1
    end.

(** [NonDecimalIntegerLiteral]: [0x], [0o], [0b] and their capitals. *)
Definition non_decimal (s : string) : bool :=
  match s with
  | String "0"%char (String c r) =>
      if ((code c =? 120)%N || (code c =? 88)%N) then nonempty r && all_chars is_hex r
      else if ((code c =? 111)%N || (code c =? 79)%N) then nonempty r && all_chars is_octal r
      else if ((code c =? 98)%N || (code c =? 66)%N) then nonempty r && all_chars is_binary r
      else false
  | _ => false
  end.

(** The host's [StringNumericLiteral]: [Number(s)] is [NaN] exactly when
    [s] is outside this grammar.  Blank text converts to 0. *)
Definition numeric_literal (s : string) : bool :=
  let t := trim s in
  match t with
  | EmptyString => true
  | _ => non_decimal t || unsigned_decimal (drop_sign t)
  end.

Fixpoint digits_value (s : string) (acc : Z) : Z :=
  match s with
  | EmptyString => acc
  | String c r => digits_value r (10 * acc + Z.of_N (code c - 48))
  end.

(** The value of a plain signed run of digits. *)
Definition plain_integer (s : string) : option Z :=
  match s with
  | String c r =>
      if is_sign c then
        if nonempty r && all_chars is_digit r
        then Some (if (code c =? 45)%N then - digits_value r 0 else digits_value r 0)%Z
        else None
      else if all_chars is_digit s then Some (digits_value s 0) else None
  | EmptyString => None
  end.

End Text.

(** ** Host numbers *)

(** A double as far as the interpreter's control flow needs it: [NaN] (only
    ever met as the result of converting a text or a value), an integer of
    magnitude at most 2^53 (every such integer is a double; the two zeros
    are not told apart, they print and compare alike), or any other double. *)
Inductive Num : Type :=
| NaN
| Exact (z : Z)
| Opaque.

Module Host.

Definition safe (z : Z) : bool := ((- 2 ^ 53 <=? z) && (z <=? 2 ^ 53))%Z.

Definition exact (z : Z) : Num := if safe z then Exact z else Opaque.

(** [Number(s)] for a text. *)
Definition Number_text (s : string) : Num :=
  if Text.numeric_literal s then
    match Text.plain_integer s with
    | Some z => exact z
    | None => Opaque
    end
  else NaN.

Definition isNaN (x : Num) : bool :=
  match x with NaN => true | _ => false end.

Definition lift2 (f : Z -> Z -> Z) (x y : Num) : Num :=
  match x, y with
  | Exact a, Exact b => exact (f a b)
  | _, _ => Opaque
  end.

Definition add : Num -> Num -> Num := lift2 Z.add.
Definition sub : Num -> Num -> Num := lift2 Z.sub.
Definition mul : Num -> Num -> Num := lift2 Z.mul.

(** A quotient is tracked when it is an integer; division by zero and
    inexact quotients are other doubles. *)
Definition div (x y : Num) : Num :=
  match x, y with
  | Exact a, Exact b =>
      if ((b =? 0) || negb (a mod b =? 0))%Z then Opaque else exact (a / b)
  | _, _ => Opaque
  end.

(** [base ** exponent] is approximated by the host. *)
Definition pow (x y : Num) : Num := Opaque.

(** [String(x)], where the model knows the double. *)
Definition String_ (x : Num) : option string :=
  match x with
  | Exact z => Some (Text.of_Z z)
  | _ => None
  end.

Definition strict_eq (x y : Num) : option bool :=
  match x, y with
  | Exact a, Exact b => Some (a =? b)%Z
  | _, _ => None
  end.

Definition is_negative (x : Num) : option bool :=
  match x with
  | Exact a => Some (a <? 0)%Z
  | _ => None
  end.

Definition is_non_negative (x : Num) : option bool :=
  match x with
  | Exact a => Some (0 <=? a)%Z
  | _ => None
  end.

End Host.

(** ** The value model *)

(** The function a [Native] carries, named as the driver declares it. *)
Inductive NativeFn : Type :=
| FnADD | FnATOM | FnCAR | FnCDR | FnCONS | FnDEF | FnEQ | FnEVAL | FnEXP
| FnDIV | FnMULT | FnNEG | FnPOS | FnPRINT | FnREVERSE | FnSUB | FnSQUARE
| FnSET | FnSETQ.

(** [Value = Atom | List | Method | Native].  A list built at run time may
    hold any value ([CONS] copies whatever its left argument fetched to), so
    the elements of a [List] are values.  A [Method] holds the triple
    [[name, parameters, body]]; a [Method] and a [Native] are never escaped. *)
Inductive Value : Type :=
| Atom (escaped : bool) (value : string)
| List (escaped : bool) (value : list Value)
| Method (name params body : Value)
| Native (fn : NativeFn).

Abbreviation Memory := (gmap string Value).

(** How a call ends: a value, or one of the ways it does not produce one. *)
Inductive Failure : Type :=
| Error (message : string)        (* [throw new Error(message)] *)
| SyntaxError (message : string)  (* [throw new SyntaxError(message)] *)
| TypeError                       (* thrown by the host: a call of
                                     something that is not a function *)
| OutOfFuel                       (* the fuel of the model ran out *)
| Unmodelled.                     (* outside the model: the result needs a
                                     double it does not track, or the value
                                     has a shape the types of the source
                                     rule out and no native builds *)

Inductive Outcome (A : Type) : Type :=
| Ok (a : A)
| Fail (f : Failure).

Arguments Ok {A} a.
Arguments Fail {A} f.

Definition bind {A B : Type} (x : Outcome A) (k : A -> Outcome B) : Outcome B :=
  match x with
  | Ok a => k a
  | Fail f => Fail f
  end.

Notation "'let*' p ':=' x 'in' k" := (bind x (fun p => k))
  (at level 10, p pattern, x at level 100, k at level 200).

Definition throw {A : Type} (message : string) : Outcome A := Fail (Error message).

(** ** parse *)

Module Parser.

(** An open list: its quote flag and the elements pushed so far. *)
Record Open : Type := { o_escaped : bool; o_value : list Value }.

(** The variables of [parse].  [list] and its chain of [parent]s are the
    stack [open], innermost first; [list] is [null] when it is empty.  An
    open list is pushed onto its parent when it is opened and filled
    afterwards; nothing else is pushed onto the parent until it closes, so
    the stack hands it to the parent on closing. *)
Record PState : Type := {
  atom : option (bool * string);
  escaped : bool;
  open : list Open;
  statements : list Value
}.

Definition start : PState :=
  {| atom := None; escaped := false; open := []; statements := [] |}.

(** [list.value.push(atom)] when an atom is in progress. *)
Definition push_atom (a : option (bool * string)) (vs : list Value) : list Value :=
  match a with
  | Some (e, s) => vs ++ [Atom e s]
  | None => vs
  end.

Definition step (cursor : ascii) (st : PState) : Outcome PState :=
  if Ascii.eqb cursor "'" then
    match atom st with
    | Some _ => Fail (SyntaxError "Cannot escape in the middle of an atom.")
    | None => Ok {| atom := None; escaped := true;
                    open := open st; statements := statements st |}
    end
  else if Ascii.eqb cursor "(" then
    let fresh := {| o_escaped := escaped st; o_value := [] |} in
    match open st with
    | [] => Ok {| atom := atom st; escaped := false;
                  open := [fresh]; statements := statements st |}
    | parent :: rest =>
        let parent' := {| o_escaped := o_escaped parent;
                          o_value := push_atom (atom st) (o_value parent) |} in
        Ok {| atom := None; escaped := false;
              open := fresh :: parent' :: rest; statements := statements st |}
    end
  else if Ascii.eqb cursor ")" then
    match open st with
    | [] => Fail (SyntaxError
              "Unexpected closing parenthesis. Perhaps you added an extra ')'?")
    | list :: rest =>
        let closed := List (o_escaped list) (push_atom (atom st) (o_value list)) in
        match rest with
        | [] => Ok {| atom := None; escaped := escaped st;
                      open := []; statements := statements st ++ [closed] |}
        | parent :: rest' =>
            Ok {| atom := None; escaped := escaped st;
                  open := {| o_escaped := o_escaped parent;
                             o_value := o_value parent ++ [closed] |} :: rest';
                  statements := statements st |}
        end
    end
  else if Ascii.eqb cursor " " then
    match atom st with
    | Some (e, s) =>
        match open st with
        | [] => Fail (SyntaxError "Cannot declare atom outside of a statement.")
        | list :: rest =>
            Ok {| atom := None; escaped := escaped st;
                  open := {| o_escaped := o_escaped list;
                             o_value := o_value list ++ [Atom e s] |} :: rest;
                  statements := statements st |}
        end
    | None => Ok st
    end
  else
    match atom st with
    | None =>
        match open st with
        | [] => Fail (SyntaxError "Cannot declare atom outside of a statement.")
        | list :: _ =>
            Ok {| atom := Some (escaped st || o_escaped list, String cursor EmptyString);
                  escaped := false; open := open st; statements := statements st |}
        end
    | Some (e, s) =>
        Ok {| atom := Some (e, s +:+ String cursor EmptyString);
              escaped := escaped st; open := open st; statements := statements st |}
    end.

(** The [for] loop over the characters of the program. *)
Fixpoint steps (program : string) (st : PState) : Outcome PState :=
  match program with
  | EmptyString => Ok st
  | String cursor rest => let* st' := step cursor st in steps rest st'
  end.

Definition parse (program : string) : Outcome (list Value) :=
  let* st := steps program start in
  match open st with
  | [] => Ok (statements st)
  | _ :: _ => Fail (SyntaxError "Unclosed statement. Perhaps you missed a ')'?")
  end.

End Parser.


(** ** The evaluator's state *)

(** What a call can change: the [memory] it was handed, and the text written
    to standard output so far. *)
Record State : Type := { memory : Memory; stdout : list string }.

(** [memory.set(key, value)] *)
Definition set_memory (key : string) (value : Value) (st : State) : State :=
  {| memory := <[key := value]> (memory st); stdout := stdout st |}.

(** [process.stdout.write(text)] *)
Definition write (text : string) (st : State) : State :=
  {| memory := memory st; stdout := stdout st ++ [text] |}.

Abbreviation Result := (Outcome (Value * State)).

Definition newline : string := String (ascii_of_nat 10) EmptyString.
Definition esc : string := String (ascii_of_nat 27) EmptyString.

(** ** The driver's helpers *)

Definition getNil : Value := List false [].

Definition getTrue : Value := Atom false "TRUE".

Definition isTrue (parameter : Value) : bool :=
  match parameter with
  | Atom _ value => String.eqb (Text.toUpperCase value) "TRUE"
  | _ => false
  end.

Definition isNil (parameter : Value) : bool :=
  match parameter with
  | List _ [] => true
  | _ => false
  end.

(** [Number(v.value)]: the text of an atom goes through the host's grammar;
    an array is first joined into a text, which is blank for the empty array
    (so it converts to 0) and [[object Object],...] otherwise; the triple of a
    method and the function of a native convert to [NaN]. *)
Definition Number_ (v : Value) : Num :=
  match v with
  | Atom _ value => Host.Number_text value
  | List _ [] => Exact 0
  | List _ (_ :: _) => NaN
  | Method _ _ _ => NaN
  | Native _ => NaN
  end.

(** [{ escaped: e.escaped, parent: ..., type: e.type, value: e.value }] *)
Definition copy (element : Value) : Value :=
  match element with
  | Atom escaped value => Atom escaped value
  | List escaped value => List escaped value
  | Method name params body => Method name params body
  | Native fn => Native fn
  end.

(** [fn.name] *)
Definition native_name (fn : NativeFn) : string :=
  match fn with
  | FnADD => "ADD" | FnATOM => "ATOM" | FnCAR => "CAR" | FnCDR => "CDR"
  | FnCONS => "CONS" | FnDEF => "DEF" | FnEQ => "EQ" | FnEVAL => "EVAL"
  | FnEXP => "EXP" | FnDIV => "DIV" | FnMULT => "MULT" | FnNEG => "NEG"
  | FnPOS => "POS" | FnPRINT => "PRINT" | FnREVERSE => "REVERSE"
  | FnSUB => "SUB" | FnSQUARE => "SQUARE" | FnSET => "SET" | FnSETQ => "SETQ"
  end.

Definition expected (name arity : string) (parameters : list Value) : string :=
  name +:+ ": Expected " +:+ arity +:+ ", got "
       +:+ Text.of_nat (length parameters) +:+ " instead.".

(** ** Natives *)

(** The natives call back into the evaluator; they are written against the
    three entry points and tied to them in [fetch], [execute] and [toString]
    below. *)
Section Natives.

Variable flagUseColor : bool.
Variable fetch : Value -> State -> Result.
Variable execute : Value -> State -> Result.
Variable toString : bool -> Value -> State -> Outcome (string * State).

(** [{ escaped: false, ..., type: "ATOM", value: String(x) }] *)
Definition number_atom (x : Num) (st : State) : Result :=
  match Host.String_ x with
  | Some text => Ok (Atom false text, st)
  | None => Fail Unmodelled
  end.

Definition boolean (b : option bool) (st : State) : Result :=
  match b with
  | Some true => Ok (getTrue, st)
  | Some false => Ok (getNil, st)
  | None => Fail Unmodelled
  end.

Fixpoint ADD_loop (parameters : list Value) (sum : Num) (st : State)
  : Outcome (Num * State) :=
  match parameters with
  | [] => Ok (sum, st)
  | p :: rest =>
      let* (v, st1) := fetch p st in
      let value := Number_ v in
      if Host.isNaN value then throw "ADD: One or more parameters are not a number"
      else ADD_loop rest (Host.add sum value) st1
  end.

Definition ADD (parameters : list Value) (st : State) : Result :=
  if (length parameters <? 2)%nat
  then throw (expected "ADD" "2 or more arguments" parameters)
  else let* (sum, st1) := ADD_loop parameters (Exact 0) st in number_atom sum st1.

Definition ATOM (parameters : list Value) (st : State) : Result :=
  match parameters with
  | [p0] =>
      let* (value, st1) := fetch p0 st in
      let is_atom := match value with Atom _ _ => true | _ => false end in
      Ok (if is_atom || isTrue value || isNil value then getTrue else getNil, st1)
  | _ => throw (expected "ATOM" "1 argument" parameters)
  end.

Definition CAR (parameters : list Value) (st : State) : Result :=
  match parameters with
  | [p0] =>
      let* (value, st1) := fetch p0 st in
      match value with
      | List _ (first :: _) => Ok (copy first, st1)
      | _ => throw "CAR: Parameter must be a non-NIL list."
      end
  | _ => throw (expected "CAR" "1 argument" parameters)
  end.

Definition CDR (parameters : list Value) (st : State) : Result :=
  match parameters with
  | [p0] =>
      let* (value, st1) := fetch p0 st in
      match value with
      | List _ (_ :: rest) => Ok (List true (map copy rest), st1)
      | _ => throw "CDR: Parameter must be a non-NIL list."
      end
  | _ => throw (expected "CDR" "1 argument" parameters)
  end.

Definition CONS (parameters : list Value) (st : State) : Result :=
  match parameters with
  | [p0; p1] =>
      let* (left_, st1) := fetch p0 st in
      let* (right_, st2) := fetch p1 st1 in
      match right_ with
      | List _ value => Ok (List true (map copy (left_ :: value)), st2)
      | _ => throw "CONS: Parameter must be a list."
      end
  | _ => throw (expected "CONS" "2 arguments" parameters)
  end.

(** The test on [methodParameters]: an unescaped list of length one whose
    element is an atom. *)
Definition legal_parameters (methodParameters : Value) : bool :=
  match methodParameters with
  | List false [Atom _ _] => true
  | _ => false
  end.

Definition DEF (parameters : list Value) (st : State) : Result :=
  match parameters with
  | [methodName; methodParameters; methodDefinition] =>
      match methodName with
      | Atom false name =>
          if negb (legal_parameters methodParameters)
          then throw "DEF: Illegal function arguments."
          else
            match methodDefinition with
            | List false _ =>
                let method := Method methodName methodParameters methodDefinition in
                Ok (method, set_memory (Text.toUpperCase name) method st)
            | _ => throw "DEF: Illegal function definition."
            end
      | _ => throw "DEF: Illegal function name."
      end
  | _ => throw (expected "DEF" "3 arguments" parameters)
  end.

Definition DIV (parameters : list Value) (st : State) : Result :=
  match parameters with
  | [p0; p1] =>
      let* (v0, st1) := fetch p0 st in
      let dividend := Number_ v0 in
      let* (v1, st2) := fetch p1 st1 in
      let divisor := Number_ v1 in
      if Host.isNaN dividend then throw "DIV: Dividend is not a number"
      else if Host.isNaN divisor then throw "DIV: Divisor is not a number"
      else number_atom (Host.div dividend divisor) st2
  | _ => throw (expected "DIV" "2 arguments" parameters)
  end.

Definition EQ (parameters : list Value) (st : State) : Result :=
  match parameters with
  | [p0; p1] =>
      let* (v0, st1) := fetch p0 st in
      let left_ := Number_ v0 in
      let* (v1, st2) := fetch p1 st1 in
      let right_ := Number_ v1 in
      if Host.isNaN left_ then throw "EQ: Left-hand parameter is not a number"
      else if Host.isNaN right_ then throw "EQ: Right-hand parameter is not a number"
      else boolean (Host.strict_eq left_ right_) st2
  | _ => throw (expected "EQ" "2 arguments" parameters)
  end.

Definition EVAL (parameters : list Value) (st : State) : Result :=
  match parameters with
  | [p0] =>
      let* (value, st1) := fetch p0 st in
      match value with
      | List _ elements => execute (List false (map copy elements)) st1
      | _ => Ok (value, st1)
      end
  | _ => throw (expected "EVAL" "1 argument" parameters)
  end.

Definition EXP (parameters : list Value) (st : State) : Result :=
  match parameters with
  | [p0; p1] =>
      let* (v0, st1) := fetch p0 st in
      let base := Number_ v0 in
      let* (v1, st2) := fetch p1 st1 in
      let exponent := Number_ v1 in
      if Host.isNaN base then throw "EXP: Base is not a number"
      else if Host.isNaN exponent then throw "EXP: Exponent is not a number"
      else number_atom (Host.pow base exponent) st2
  | _ => throw (expected "EXP" "2 arguments" parameters)
  end.

Fixpoint MULT_loop (parameters : list Value) (product : Num) (st : State)
  : Outcome (Num * State) :=
  match parameters with
  | [] => Ok (product, st)
  | p :: rest =>
      let* (v, st1) := fetch p st in
      let value := Number_ v in
      if Host.isNaN value then throw "MULT: One or more parameters are not a number"
      else MULT_loop rest (Host.mul product value) st1
  end.

Definition MULT (parameters : list Value) (st : State) : Result :=
  if (length parameters <? 2)%nat
  then throw (expected "MULT" "2 or more arguments" parameters)
  else let* (product, st1) := MULT_loop parameters (Exact 1) st in number_atom product st1.

Definition NEG (parameters : list Value) (st : State) : Result :=
  match parameters with
  | [p0] =>
      let* (v0, st1) := fetch p0 st in
      let value := Number_ v0 in
      if Host.isNaN value then throw "NEG: Parameter is not a number"
      else boolean (Host.is_negative value) st1
  | _ => throw (expected "NEG" "1 argument" parameters)
  end.

Definition POS (parameters : list Value) (st : State) : Result :=
  match parameters with
  | [p0] =>
      let* (v0, st1) := fetch p0 st in
      let value := Number_ v0 in
      if Host.isNaN value then throw "POS: Parameter is not a number"
      else boolean (Host.is_non_negative value) st1
  | _ => throw (expected "POS" "1 argument" parameters)
  end.

Fixpoint PRINT_loop (parameters : list Value) (st : State) : Outcome State :=
  match parameters with
  | [] => Ok st
  | p :: rest =>
      let* (text, st1) := toString flagUseColor p st in
      PRINT_loop rest (write (text +:+ " ") st1)
  end.

Definition PRINT (parameters : list Value) (st : State) : Result :=
  let* st1 := PRINT_loop parameters st in
  Ok (getNil, write newline st1).

Definition REVERSE (parameters : list Value) (st : State) : Result :=
  match parameters with
  | [p0] =>
      let* (value, st1) := fetch p0 st in
      match value with
      | List _ elements => Ok (List true (rev (map copy elements)), st1)
      | _ => throw "REVERSE: Parameter must be a list."
      end
  | _ => throw (expected "REVERSE" "1 argument" parameters)
  end.

Definition SQUARE (parameters : list Value) (st : State) : Result :=
  match parameters with
  | [p0] =>
      let* (v0, st1) := fetch p0 st in
      let value := Number_ v0 in
      if Host.isNaN value then throw "SQUARE: Parameter is not a number"
      else number_atom (Host.mul value value) st1
  | _ => throw (expected "SQUARE" "1 argument" parameters)
  end.

Definition SUB (parameters : list Value) (st : State) : Result :=
  match parameters with
  | [p0; p1] =>
      let* (v0, st1) := fetch p0 st in
      let minuend := Number_ v0 in
      let* (v1, st2) := fetch p1 st1 in
      let subtrahend := Number_ v1 in
      if Host.isNaN minuend then throw "SUB: Minuend is not a number"
      else if Host.isNaN subtrahend then throw "SUB: Subtrahend is not a number"
      else number_atom (Host.sub minuend subtrahend) st2
  | _ => throw (expected "SUB" "2 arguments" parameters)
  end.

Definition SET (parameters : list Value) (st : State) : Result :=
  match parameters with
  | [p0; p1] =>
      let* (key, st1) := fetch p0 st in
      let* (value, st2) := fetch p1 st1 in
      match key with
      | Atom true name =>
          if isTrue key || isNil key then throw "SET: Left-hand parameter is illegal."
          else Ok (value, set_memory (Text.toUpperCase name) value st2)
      | _ => throw "SET: Left-hand parameter is illegal."
      end
  | _ => throw (expected "SET" "2 arguments" parameters)
  end.

Definition SETQ (parameters : list Value) (st : State) : Result :=
  match parameters with
  | [p0; p1] =>
      let* (value, st1) := fetch p1 st in
      match p0 with
      | Atom false name =>
          if isTrue p0 || isNil p0 then throw "SETQ: Left-hand parameter is illegal."
          else Ok (value, set_memory (Text.toUpperCase name) value st1)
      | _ => throw "SETQ: Left-hand parameter is illegal."
      end
  | _ => throw (expected "SETQ" "2 arguments" parameters)
  end.

(** [native.value(parameters, memory)] *)
Definition call_native (fn : NativeFn) : list Value -> State -> Result :=
  match fn with
  | FnADD => ADD | FnATOM => ATOM | FnCAR => CAR | FnCDR => CDR
  | FnCONS => CONS | FnDEF => DEF | FnEQ => EQ | FnEVAL => EVAL
  | FnEXP => EXP | FnDIV => DIV | FnMULT => MULT | FnNEG => NEG
  | FnPOS => POS | FnPRINT => PRINT | FnREVERSE => REVERSE
  | FnSUB => SUB | FnSQUARE => SQUARE | FnSET => SET | FnSETQ => SETQ
  end.

(** [something.value(parameters, memory)] for whatever the environment
    holds: only a native's [value] can be called. *)
Definition call_value (callee : Value) : list Value -> State -> Result :=
  match callee with
  | Native fn => call_native fn
  | _ => fun _ _ => Fail TypeError
  end.

(** The loop of the cadr-family fallback:
    [for(let i = methodName.length - 2; i >= 1; i--)
       result = [ (methodName[i] === "A" ? CAR : CDR).value(result, memory) ]]. *)
Fixpoint cxr_loop (CAR_ CDR_ : Value) (methodName : string) (i : nat)
    (result : list Value) (st : State) : Outcome (list Value * State) :=
  match i with
  | O => Ok (result, st)
  | S j =>
      let is_A := match String.get i methodName with
                  | Some c => Ascii.eqb c "A"
                  | None => false
                  end in
      let* (r, st1) := call_value (if is_A then CAR_ else CDR_) result st in
      cxr_loop CAR_ CDR_ methodName j [r] st1
  end.

(** [elements.map(element => toString(element, memory, useColor))] *)
Fixpoint map_toString (useColor : bool) (elements : list Value) (st : State)
  : Outcome (list string * State) :=
  match elements with
  | [] => Ok ([], st)
  | element :: rest =>
      let* (text, st1) := toString useColor element st in
      let* (texts, st2) := map_toString useColor rest st1 in
      Ok (text :: texts, st2)
  end.

End Natives.

(** [/^C[AD]+R$/.test(name)] *)
Definition is_cxr (name : string) : bool :=
  match name with
  | String "C"%char middle_R =>
      match Text.rev middle_R with
      | String "R"%char (String c middle) =>
          Text.all_chars (fun c => Ascii.eqb c "A" || Ascii.eqb c "D") (String c middle)
      | _ => false
      end
  | _ => false
  end.

Definition colour (code text : string) : string :=
  esc +:+ "[" +:+ code +:+ "m" +:+ text +:+ esc +:+ "[0m".

(** ** fetch, execute and toString *)

Section Evaluator.

Variable flagUseColor : bool.

Fixpoint fetch (fuel : nat) (parameter : Value) (st : State) {struct fuel} : Result :=
  match fuel with
  | O => Fail OutOfFuel
  | S fuel' =>
      match parameter with
      | Atom escaped value =>
          if negb escaped
             && negb (String.eqb (Text.toUpperCase value) "TRUE")
             && negb (String.eqb (Text.toUpperCase value) "NIL")
             && Host.isNaN (Host.Number_text value)
          then
            match memory st !! Text.toUpperCase value with
            | None => throw ("Unknown variable '" +:+ value +:+ "'.")
            | Some variable => Ok (variable, st)
            end
          else if String.eqb (Text.toUpperCase value) "NIL"
          then Ok (List false [], st)
          else Ok (parameter, st)
      | List escaped value =>
          if negb escaped && negb (Nat.eqb (length value) 0)
          then let* (r, st1) := execute fuel' parameter st in fetch fuel' r st1
          else Ok (parameter, st)
      | _ => Ok (parameter, st)
      end
  end

with execute (fuel : nat) (list : Value) (st : State) {struct fuel} : Result :=
  match fuel with
  | O => Fail OutOfFuel
  | S fuel' =>
      match list with
      | List escaped value =>
          if escaped || Nat.eqb (length value) 0 then Ok (list, st)
          else
            match value with
            | List _ _ :: _ => throw "A function call cannot be a list."
            | Atom _ methodName :: arguments =>
                match memory st !! Text.toUpperCase methodName with
                | None =>
                    if is_cxr (Text.toUpperCase methodName) then
                      match memory st !! "CAR", memory st !! "CDR" with
                      | Some CAR_, Some CDR_ =>
                          let* (result, st1) :=
                            cxr_loop flagUseColor (fetch fuel') (execute fuel')
                              (toString fuel') CAR_ CDR_ methodName
                              (String.length methodName - 2) arguments st in
                          (* [result[0]]: the pattern leaves no name without a
                             middle letter, so the loop has run and [result]
                             has one element *)
                          match result with
                          | r :: _ => Ok (r, st1)
                          | [] => Fail Unmodelled
                          end
                      | _, _ => throw "CAR or CDR not defined natively."
                      end
                    else throw ("Unknown function call '" +:+ methodName +:+ "'.")
                | Some (Native fn) =>
                    call_native flagUseColor (fetch fuel') (execute fuel')
                      (toString fuel') fn arguments st
                | Some (Method _ params body) =>
                    match arguments with
                    | [] => throw "A non-native function call must contain an argument."
                    | argument :: _ =>
                        (* [new Map(memory)] is built before the arguments of
                           [.set] are evaluated *)
                        let snapshot := memory st in
                        match params with
                        | List _ (Atom _ formal :: _) =>
                            let* (actual, st1) := fetch fuel' argument st in
                            let* (r, st2) :=
                              execute fuel' body
                                {| memory := <[Text.toUpperCase formal := actual]> snapshot;
                                   stdout := stdout st1 |} in
                            Ok (r, {| memory := memory st1; stdout := stdout st2 |})
                        | List _ _ => Fail TypeError
                        | _ => Fail Unmodelled (* [DEF] stores a list here *)
                        end
                    end
                | Some _ => throw ("Illegal function call '" +:+ methodName +:+ "'.")
                end
            | _ :: _ => Fail TypeError (* [methodName] is no string *)
            | [] => Ok (list, st)
            end
      | _ => Fail Unmodelled (* [execute] is only ever handed a list *)
      end
  end

with toString (fuel : nat) (useColor : bool) (parameter : Value) (st : State)
    {struct fuel} : Outcome (string * State) :=
  match fuel with
  | O => Fail OutOfFuel
  | S fuel' =>
      let* (value, st1) := fetch fuel' parameter st in
      match value with
      | Atom _ text =>
          if useColor then
            if isTrue value || negb (Host.isNaN (Host.Number_text text))
            then Ok (colour "93" text, st1)
            else if isNil value then Ok (colour "90" text, st1)
            else Ok (colour "32" text, st1)
          else Ok (text, st1)
      | List escaped elements =>
          if Nat.eqb (length elements) 0
          then Ok (if useColor then colour "90" "NIL" else "NIL", st1)
          else if escaped then
            let* (texts, st2) := map_toString (toString fuel') useColor elements st1 in
            Ok ("( " +:+ String.concat " " texts +:+ " )", st2)
          else
            let* (r, st2) := execute fuel' value st1 in
            toString fuel' false r st2
      | Method (Atom _ name) _ _ =>
          Ok (if useColor then colour "96" ("<Function: " +:+ name +:+ ">")
              else "<Function: " +:+ name +:+ ">", st1)
      | Method _ _ _ => Fail Unmodelled
      | Native fn =>
          Ok (if useColor then colour "96" ("<Native: " +:+ native_name fn +:+ ">")
              else "<Native: " +:+ native_name fn +:+ ">", st1)
      end
  end.

(** The native functions as the evaluator calls them at a given depth. *)
Definition native (fuel : nat) (fn : NativeFn) : list Value -> State -> Result :=
  call_native flagUseColor (fetch fuel) (execute fuel) (toString fuel) fn.

End Evaluator.

Arguments fetch : simpl never.
Arguments execute : simpl never.
Arguments toString : simpl never.

(** ** The driver *)

Definition defineNative (name : string) (method : NativeFn) (memory : Memory) : Memory :=
  <[Text.toUpperCase name := Native method]> memory.

Definition natives : list (string * NativeFn) :=
  [ ("ADD", FnADD); ("+", FnADD); ("ATOM", FnATOM); ("CAR", FnCAR); ("CDR", FnCDR);
    ("CONS", FnCONS); ("DEF", FnDEF); ("EQ", FnEQ); ("EVAL", FnEVAL); ("EXP", FnEXP);
    ("DIV", FnDIV); ("/", FnDIV); ("MULT", FnMULT); ("*", FnMULT); ("NEG", FnNEG);
    ("POS", FnPOS); ("PRINT", FnPRINT); ("REVERSE", FnREVERSE); ("SUB", FnSUB);
    ("-", FnSUB); ("SQUARE", FnSQUARE); ("SET", FnSET); ("SETQ", FnSETQ) ].

(** The memory after the driver's [defineNative] calls. *)
Definition initial_memory : Memory :=
  fold_left (fun memory entry => defineNative (fst entry) (snd entry) memory) natives ∅.

Definition initial : State := {| memory := initial_memory; stdout := [] |}.

(** [for(...) Interpreter.execute(statements[i], memory)] *)
Fixpoint run (flagUseColor : bool) (fuel : nat) (statements : list Value) (st : State)
  : Outcome State :=
  match statements with
  | [] => Ok st
  | statement :: rest =>
      let* (_, st1) := execute flagUseColor fuel statement st in
      run flagUseColor fuel rest st1
  end.

(** * The vocabulary of the properties *)

(** ** On the parser *)

Module ParserTerms.
Import Parser.

(** The four characters [parse] treats specially. *)
Definition special (c : ascii) : bool :=
  Ascii.eqb c "'" || Ascii.eqb c "(" || Ascii.eqb c ")" || Ascii.eqb c " ".

(** A run of [n] spaces. *)
Fixpoint spaces (n : nat) : string :=
  match n with
  | O => EmptyString
  | S k => String " " (spaces k)
  end.

Definition quoted_if_atom (v : Value) : bool :=
  match v with
  | Atom e _ => e
  | _ => true
  end.

(** Every atom at any depth below [v]. *)
Fixpoint atoms (v : Value) : list Value :=
  match v with
  | Atom _ _ => [v]
  | List _ value => flat_map atoms value
  | _ => []
  end.

(** In [v] and in every list below it: a list that carries the quote flag
    has only quoted atoms among its own elements. *)
Fixpoint inherits (v : Value) : bool :=
  match v with
  | List e value => (negb e || forallb quoted_if_atom value) && forallb inherits value
  | _ => true
  end.

Definition open_ok (l : Open) : Prop := inherits (List (o_escaped l) (o_value l)) = true.

(** An atom in progress sits in an open list and has that list's flag. *)
Definition atom_ok (st : PState) : Prop :=
  match atom st with
  | None => True
  | Some (e, _) =>
      match open st with
      | [] => False
      | l :: _ => o_escaped l = true -> e = true
      end
  end.

Definition invariant (st : PState) : Prop :=
  Forall open_ok (open st)
  /\ Forall (fun v => inherits v = true) (statements st)
  /\ atom_ok st.

End ParserTerms.

(** ** On the evaluator *)

(** A value that [fetch] hands back as it is: an atom that is quoted, [TRUE]
    or numeric, and not [NIL]; a list that is quoted or empty; a method; a
    native. *)
Definition self_evaluating (v : Value) : bool :=
  match v with
  | Atom escaped value =>
      negb (String.eqb (Text.toUpperCase value) "NIL")
      && (escaped || String.eqb (Text.toUpperCase value) "TRUE"
          || Text.numeric_literal value)
  | List escaped value => escaped || Nat.eqb (length value) 0
  | Method _ _ _ => true
  | Native _ => true
  end.

(** The native the cadr-family loop applies first: the one for the last
    middle letter of the name as written. *)
Definition first_applied (name : string) : NativeFn :=
  match String.get (String.length name - 2) name with
  | Some c => if Ascii.eqb c "A" then FnCAR else FnCDR
  | None => FnCDR
  end.

(** The letters between the first and the last of a name, left to right. *)
Definition middle_letters (name : string) : list ascii :=
  firstn (String.length name - 2) (List.tl (list_ascii_of_string name)).

(** The natives of a run of letters, applied one after the other, each to
    the one-element list of the result before: [CAR_] for a letter that is
    [A], [CDR_] for any other. *)
Fixpoint apply_letters (call : Value -> list Value -> State -> Result)
    (CAR_ CDR_ : Value) (letters : list ascii) (result : list Value) (st : State)
  : Outcome (list Value * State) :=
  match letters with
  | [] => Ok (result, st)
  | c :: rest =>
      let* (r, st1) := call (if Ascii.eqb c "A" then CAR_ else CDR_) result st in
      apply_letters call CAR_ CDR_ rest [r] st1
  end.

(** What a program has written when the driver has run all its statements
    from the initial memory. *)
Definition printed (flagUseColor : bool) (fuel : nat) (program : string)
  : Outcome (list string) :=
  let* statements := Parser.parse program in
  let* st := run flagUseColor fuel statements initial in
  Ok (stdout st).

(** ['(1 2 3)] as [parse] builds it. *)
Definition quoted_123 : Value := List true [Atom true "1"; Atom true "2"; Atom true "3"].

(** The state after [(DEF F (N) (SETQ X N))] from the initial one. *)
Definition with_F : State :=
  set_memory "F"
    (Method (Atom false "F") (List false [Atom false "N"])
       (List false [Atom false "SETQ"; Atom false "X"; Atom false "N"]))
    initial.

(** [parameters.map(p => fetch(p, memory))], one after the other: the
    fetches an arithmetic native performs when none of them stops it. *)
Fixpoint fetch_each (fetch : Value -> State -> Result) (parameters : list Value)
    (st : State) : Outcome (list Value * State) :=
  match parameters with
  | [] => Ok ([], st)
  | p :: rest =>
      let* (v, st1) := fetch p st in
      let* (vs, st2) := fetch_each fetch rest st1 in
      Ok (v :: vs, st2)
  end.

(** [isNaN(Number(v.value))] *)
Definition not_a_number (v : Value) : bool := Host.isNaN (Number_ v).

(** ** On the shape of methods *)

(** Every method in [v], at any depth, has a parameter list that passes the
    test of [DEF]: an unquoted list of exactly one element, an atom. *)
Fixpoint methods_ok (v : Value) : bool :=
  match v with
  | Atom _ _ => true
  | List _ value => forallb methods_ok value
  | Method name params body =>
      legal_parameters params && methods_ok name && methods_ok params && methods_ok body
  | Native _ => true
  end.

Definition memory_ok (m : Memory) : Prop :=
  forall key v, m !! key = Some v -> methods_ok v = true.

Definition state_ok (st : State) : Prop := memory_ok (memory st).

(** A value without any method in it, as the parser builds them. *)
Fixpoint method_free (v : Value) : bool :=
  match v with
  | Atom _ _ => true
  | List _ value => forallb method_free value
  | Method _ _ _ => false
  | Native _ => false
  end.

Definition keeps_shape (f : Value -> State -> Result) : Prop :=
  forall p st r st',
    methods_ok p = true -> state_ok st -> f p st = Ok (r, st') ->
    methods_ok r = true /\ state_ok st'.

Definition shape_kept (flagUseColor : bool) (fuel : nat) : Prop :=
  keeps_shape (fetch flagUseColor fuel)
  /\ keeps_shape (execute flagUseColor fuel)
  /\ (forall useColor p st text st',
        methods_ok p = true -> state_ok st ->
        toString flagUseColor fuel useColor p st = Ok (text, st') -> state_ok st').

Module ParserShapeTerms.
Import Parser.

Definition open_free (o : Open) : Prop := forallb method_free (o_value o) = true.

Definition all_free (st : PState) : Prop :=
  Forall open_free (open st) /\ forallb method_free (statements st) = true.

End ParserShapeTerms.

(** ** On the parser, further *)

Module ParserMoreTerms.
Import Parser ParserTerms.

(** How often a character occurs in a text. *)
Fixpoint count (c : ascii) (s : string) : nat :=
  match s with
  | EmptyString => 0%nat
  | String x r => ((if Ascii.eqb x c then 1 else 0) + count c r)%nat
  end.

(** A text an atom can have: not empty, none of the four special characters. *)
Definition plain (s : string) : bool :=
  Text.nonempty s && Text.all_chars (fun c => negb (special c)) s.

(** A tree of lists and atoms whose atoms all have such a text. *)
Fixpoint well_formed (v : Value) : bool :=
  match v with
  | Atom _ s => plain s
  | List _ value => forallb well_formed value
  | _ => false
  end.

Definition is_list (v : Value) : bool :=
  match v with
  | List _ _ => true
  | _ => false
  end.

(** The parser state with [pre] in front of its statements. *)
Definition after_statements (pre : list Value) (st : PState) : PState :=
  {| atom := atom st; escaped := escaped st; open := open st;
     statements := pre ++ statements st |}.

(** [`( ${texts.join(" ")} )`], what [toString] writes for a quoted list
    whose elements print as [texts]. *)
Definition show_list (texts : list string) : string :=
  "( " +:+ String.concat " " texts +:+ " )".

(** Whether the parser, having read the whole of [program], still holds an
    apostrophe that has not met its opening parenthesis. *)
Definition pending_quote (program : string) : bool :=
  match steps program start with
  | Ok st => escaped st
  | Fail _ => false
  end.

Definition atom_plain (st : PState) : Prop :=
  match atom st with
  | Some (_, s) => plain s = true
  | None => True
  end.

(** What the parser keeps true of its state: the elements of the open lists
    and the statements are well formed, the statements are lists, and the
    atom being read has a text an atom can have. *)
Definition tidy (st : PState) : Prop :=
  Forall (fun o => forallb well_formed (o_value o) = true) (open st)
  /\ Forall (fun v => is_list v = true /\ well_formed v = true) (statements st)
  /\ atom_plain st.

(** Each text followed by a space. *)
Fixpoint spaced (texts : list string) : string :=
  match texts with
  | [] => EmptyString
  | t :: rest => t +:+ " " +:+ spaced rest
  end.

End ParserMoreTerms.

(** ** On what the evaluator keeps *)

(** The natives that call [memory.set]. *)
Definition is_writer (fn : NativeFn) : bool :=
  match fn with
  | FnSET | FnSETQ | FnDEF => true
  | _ => false
  end.

(** A property of the evaluator is given by what it is handed ([V]), what
    [fetch] returns and the memory holds ([F]), what is true of the memory
    ([Pm]), and how the memory ([Rm]) and the output ([Ro]) after a call
    stand to those before it. *)
Section Judgements.

Variable V : Value -> Prop.
Variable F : Value -> Prop.
Variable Pm : Memory -> Prop.
Variable Rm : Memory -> Memory -> Prop.
Variable Ro : list string -> list string -> Prop.

Definition advances (st st' : State) : Prop :=
  Pm (memory st') /\ Rm (memory st) (memory st') /\ Ro (stdout st) (stdout st').

Definition fetch_sound (f : Value -> State -> Result) : Prop :=
  forall p st v st',
    V p -> Pm (memory st) -> f p st = Ok (v, st') -> F v /\ advances st st'.

Definition execute_sound (f : Value -> State -> Result) : Prop :=
  forall l st r st',
    V l -> Pm (memory st) -> f l st = Ok (r, st') -> V r /\ advances st st'.

Definition toString_sound (f : bool -> Value -> State -> Outcome (string * State)) : Prop :=
  forall useColor p st text st',
    V p -> Pm (memory st) -> f useColor p st = Ok (text, st') -> advances st st'.

Definition evaluator_sound (flagUseColor : bool) (fuel : nat) : Prop :=
  fetch_sound (fetch flagUseColor fuel)
  /\ execute_sound (execute flagUseColor fuel)
  /\ toString_sound (toString flagUseColor fuel).

End Judgements.

(** A memory that holds only values [fetch] hands back as they are. *)
Definition settled (m : Memory) : Prop :=
  forall key v, m !! key = Some v -> self_evaluating v = true.

(** A value with no writing native in it, at any depth. *)
Fixpoint writes_nothing (v : Value) : bool :=
  match v with
  | Atom _ _ => true
  | List _ value => forallb writes_nothing value
  | Method name params body =>
      writes_nothing name && writes_nothing params && writes_nothing body
  | Native fn => negb (is_writer fn)
  end.

Definition read_only (m : Memory) : Prop :=
  forall key v, m !! key = Some v -> writes_nothing v = true.

Definition extends (out out' : list string) : Prop :=
  exists more, out' = (out ++ more)%list.

Definition keeps_names (m m' : Memory) : Prop :=
  forall key, is_Some (m !! key) -> is_Some (m' !! key).

(** The driver's natives without [SET], [SETQ] and [DEF], and the memory
    that defines just them. *)
Definition reading_natives : list (string * NativeFn) :=
  List.filter (fun entry => negb (is_writer (snd entry))) natives.

Definition reading_memory : Memory :=
  fold_left (fun memory entry => defineNative (fst entry) (snd entry) memory)
    reading_natives ∅.

(** ** On the natives *)

(** What [execute] calls: a method or a native. *)
Definition callable (v : Value) : bool :=
  match v with
  | Method _ _ _ | Native _ => true
  | _ => false
  end.



(** The natives that end in [getTrue()] or [getNil()]. *)
Definition is_predicate (fn : NativeFn) : bool :=
  match fn with
  | FnATOM | FnEQ | FnNEG | FnPOS => true
  | _ => false
  end.

(** [f] folded over [zs] from [acc], as long as every intermediate result
    is an integer the host holds exactly. *)
Fixpoint total (f : Z -> Z -> Z) (acc : Z) (zs : list Z) : option Z :=
  match zs with
  | [] => Some acc
  | z :: rest => if Host.safe (f acc z) then total f (f acc z) rest else None
  end.

(** ** On the driver *)

Definition LF : ascii := ascii_of_nat 10.
Definition CR : ascii := ascii_of_nat 13.

(** [.replace(/\r?\n/g, "")]: every line feed goes, and with it the carriage
    return in front of it when there is one. *)
Fixpoint strip_line_breaks (text : string) : string :=
  match text with
  | EmptyString => EmptyString
  | String c rest =>
      if Ascii.eqb c LF then strip_line_breaks rest
      else if Ascii.eqb c CR then
        match rest with
        | String d rest' =>
            if Ascii.eqb d LF then strip_line_breaks rest'
            else String c (strip_line_breaks rest)
        | EmptyString => String c EmptyString
        end
      else String c (strip_line_breaks rest)
  end.

(** [Interpreter.parse(file.toString().replace(/\r?\n/g, ""))] *)
Definition load (file : string) : Outcome (list Value) :=
  Parser.parse (strip_line_breaks file).

(** A text without line feed and carriage return. *)
Definition one_line (text : string) : bool :=
  Text.all_chars (fun c => negb (Ascii.eqb c LF) && negb (Ascii.eqb c CR)) text.

(** * Properties *)

(** ** Values: induction through nested lists *)

Section ValueInduction.

Variable P : Value -> Prop.
Hypothesis on_atom : forall escaped value, P (Atom escaped value).
Hypothesis on_list : forall escaped value, Forall P value -> P (List escaped value).
Hypothesis on_method :
  forall name params body, P name -> P params -> P body -> P (Method name params body).
Hypothesis on_native : forall fn, P (Native fn).

Lemma Value_nested_ind : forall v, P v.
Proof.
  fix IH 1. intros [e s|e vs|n p b|fn].
  - apply on_atom.
  - apply on_list. induction vs as [|x r IHr]; constructor; [apply IH|exact IHr].
  - apply on_method; apply IH.
  - apply on_native.
Qed.

End ValueInduction.

Lemma copy_same (v : Value) : copy v = v.
Proof. destruct v; reflexivity. Qed.

Lemma map_copy_same (vs : list Value) : map copy vs = vs.
Proof. induction vs as [|v vs IH]; simpl; [|rewrite copy_same, IH]; reflexivity. Qed.

(** ** The parser *)

Module ParserFacts.
Import Parser ParserTerms.

Lemma steps_app (p q : string) (st : PState) :
  steps (p +:+ q) st = let* st' := steps p st in steps q st'.
Proof.
  revert st; induction p as [|c p IH]; intros st; simpl; [reflexivity|].
  destruct (step c st) as [st'|f]; simpl; [apply IH|reflexivity].
Qed.

Lemma steps_spaces (n : nat) (st : PState) :
  atom st = None -> steps (spaces n) st = Ok st.
Proof.
  intros Hatom; induction n as [|n IH]; simpl; [reflexivity|].
  unfold step; simpl. rewrite Hatom. exact IH.
Qed.

Lemma step_close_keeps (st st' : PState) :
  step ")" st = Ok st' -> escaped st' = escaped st.
Proof.
  unfold step; simpl.
  destruct (open st) as [|l [|parent rest]]; intros H; inversion H; reflexivity.
Qed.

Lemma step_space_keeps (st st' : PState) :
  step " " st = Ok st' -> escaped st' = escaped st.
Proof.
  unfold step; simpl.
  destruct (atom st) as [[e s]|]; [destruct (open st) as [|l rest]|];
    intros H; inversion H; reflexivity.
Qed.

Lemma step_cases (c : ascii) :
  c = "'"%char \/ c = "("%char \/ c = ")"%char \/ c = " "%char \/ special c = false.
Proof.
  unfold special.
  destruct (Ascii.eqb_spec c "'"); [auto|].
  destruct (Ascii.eqb_spec c "("); [auto|].
  destruct (Ascii.eqb_spec c ")"); [auto|].
  destruct (Ascii.eqb_spec c " "); auto.
Qed.

Lemma step_ordinary (c : ascii) (st : PState) :
  special c = false ->
  step c st =
    match atom st with
    | None =>
        match open st with
        | [] => Fail (SyntaxError "Cannot declare atom outside of a statement.")
        | l :: _ =>
            Ok {| atom := Some (escaped st || o_escaped l, String c EmptyString);
                  escaped := false; open := open st; statements := statements st |}
        end
    | Some (e, s) =>
        Ok {| atom := Some (e, s +:+ String c EmptyString);
              escaped := escaped st; open := open st; statements := statements st |}
    end.
Proof.
  unfold special, step. intros H.
  destruct (Ascii.eqb c "'"); [discriminate|].
  destruct (Ascii.eqb c "("); [discriminate|].
  destruct (Ascii.eqb c ")"); [discriminate|].
  destruct (Ascii.eqb c " "); [discriminate|]. reflexivity.
Qed.


(** *** Quote flags in the parsed tree *)

Lemma inherits_push (e : bool) (vs : list Value) (x : Value) :
  inherits (List e vs) = true -> inherits x = true ->
  (e = true -> quoted_if_atom x = true) ->
  inherits (List e (vs ++ [x])) = true.
Proof.
  simpl. rewrite !forallb_app. simpl. intros H Hx Hq.
  apply andb_true_iff in H as [H1 H2]. rewrite H2, Hx.
  destruct e; simpl in *; [rewrite H1, Hq|]; reflexivity.
Qed.

Lemma push_atom_ok (a : option (bool * string)) (l : Open) :
  open_ok l ->
  match a with Some (e, _) => o_escaped l = true -> e = true | None => True end ->
  inherits (List (o_escaped l) (push_atom a (o_value l))) = true.
Proof.
  intros Hl Ha. destruct a as [[e s]|]; simpl push_atom; [|exact Hl].
  apply inherits_push; [exact Hl|reflexivity|exact Ha].
Qed.

Lemma open_ok_fresh (e : bool) : open_ok {| o_escaped := e; o_value := [] |}.
Proof. unfold open_ok; simpl. destruct e; reflexivity. Qed.

Lemma invariant_start : invariant start.
Proof. repeat split; constructor. Qed.

Lemma invariant_step (c : ascii) (st st' : PState) :
  invariant st -> step c st = Ok st' -> invariant st'.
Proof.
  intros (Hopen & Hstmts & Hatom). unfold atom_ok in Hatom.
  destruct (step_cases c) as [-> | [-> | [-> | [-> | Hc]]]].
  - unfold step; simpl. destruct (atom st); intros H; inversion H; subst.
    split; [|split]; simpl; [exact Hopen|exact Hstmts|exact I].
  - unfold step; simpl.
    destruct (open st) as [|parent rest] eqn:Eo; intros H; inversion H; subst; clear H.
    + destruct (atom st) as [[e s]|] eqn:Ea; [contradiction|].
      split; [|split]; simpl; [|exact Hstmts|].
      * constructor; [apply open_ok_fresh|constructor].
      * unfold atom_ok; simpl. exact I.
    + inversion Hopen as [|? ? Hp Hrest]; subst.
      split; [|split]; simpl; [|exact Hstmts|exact I].
      constructor; [apply open_ok_fresh|]. constructor; [|exact Hrest].
      unfold open_ok; simpl o_escaped; simpl o_value.
      apply push_atom_ok; [exact Hp|]. destruct (atom st) as [[e s]|]; auto.
  - unfold step; simpl.
    destruct (open st) as [|l rest] eqn:Eo; [discriminate|].
    inversion Hopen as [|? ? Hl Hrest]; subst.
    assert (Hclosed : inherits (List (o_escaped l) (push_atom (atom st) (o_value l))) = true).
    { apply push_atom_ok; [exact Hl|]. destruct (atom st) as [[e s]|]; auto. }
    destruct rest as [|parent rest']; intros H; inversion H; subst; clear H.
    + split; [|split]; simpl; [constructor| |exact I].
      apply Forall_app; split; [exact Hstmts|]. constructor; [exact Hclosed|constructor].
    + inversion Hrest as [|? ? Hp Hrest']; subst.
      split; [|split]; simpl; [|exact Hstmts|exact I].
      constructor; [|exact Hrest'].
      unfold open_ok; simpl o_escaped; simpl o_value.
      apply inherits_push; [exact Hp|exact Hclosed|reflexivity].
  - unfold step; simpl.
    destruct (atom st) as [[e s]|] eqn:Ea.
    + destruct (open st) as [|l rest] eqn:Eo; [discriminate|].
      intros H; inversion H; subst; clear H.
      inversion Hopen as [|? ? Hl Hrest]; subst.
      split; [|split]; simpl; [|exact Hstmts|exact I].
      constructor; [|exact Hrest].
      unfold open_ok; simpl o_escaped; simpl o_value.
      apply inherits_push; [exact Hl|reflexivity|exact Hatom].
    + intros H; inversion H; subst.
      split; [|split]; [exact Hopen|exact Hstmts|].
      unfold atom_ok. rewrite Ea. exact I.
  - rewrite (step_ordinary c st Hc).
    destruct (atom st) as [[e s]|] eqn:Ea.
    + intros H; inversion H; subst; clear H.
      split; [|split]; simpl; [exact Hopen|exact Hstmts|].
      unfold atom_ok; simpl. exact Hatom.
    + destruct (open st) as [|l rest] eqn:Eo; [discriminate|].
      intros H; inversion H; subst; clear H.
      split; [|split]; simpl; [exact Hopen|exact Hstmts|].
      unfold atom_ok; simpl. intros ->. apply orb_true_r.
Qed.

Lemma invariant_steps (program : string) (st st' : PState) :
  invariant st -> steps program st = Ok st' -> invariant st'.
Proof.
  revert st; induction program as [|c program IH]; intros st Hst; simpl.
  - intros H; inversion H; subst; exact Hst.
  - destruct (step c st) as [st1|f] eqn:E; simpl; [|discriminate].
    apply IH. exact (invariant_step c st st1 Hst E).
Qed.

Lemma parse_statements (program : string) (stmts : list Value) :
  parse program = Ok stmts ->
  exists st, steps program start = Ok st /\ statements st = stmts.
Proof.
  unfold parse. destruct (steps program start) as [st|f]; simpl; [|discriminate].
  destruct (open st); [|discriminate]. intros H; inversion H; eauto.
Qed.

(** The pending bit is raised by an apostrophe and by nothing else. *)
Lemma pending_only_from_apostrophe (c : ascii) (st st' : PState) :
  step c st = Ok st' -> escaped st' = true -> c = "'"%char \/ escaped st = true.
Proof.
  destruct (step_cases c) as [-> | [-> | [-> | [-> | Hc]]]]; [auto| | | |].
  - unfold step; simpl. destruct (open st); intros H; inversion H; subst; simpl; discriminate.
  - intros H E. rewrite (step_close_keeps _ _ H) in E. auto.
  - intros H E. rewrite (step_space_keeps _ _ H) in E. auto.
  - rewrite (step_ordinary c st Hc).
    destruct (atom st) as [[e s]|]; [|destruct (open st)];
      intros H; inversion H; subst; simpl; auto; discriminate.
Qed.

Lemma open_takes_pending (st st' : PState) :
  step "(" st = Ok st' ->
  exists rest, open st' = {| o_escaped := escaped st; o_value := [] |} :: rest.
Proof.
  unfold step; simpl. destruct (open st); intros H; inversion H; subst; simpl; eauto.
Qed.

(** C6, as the code has it: in every parsed statement, and in every list
    below it, a list that carries the quote flag has only quoted atoms among
    its own elements (an atom takes the flag of the list it sits in directly,
    or its own apostrophe); a list opened by a parenthesis takes the pending
    bit as its flag, whatever the flag of the list around it, and the pending
    bit is raised by an apostrophe alone. *)
Theorem quote_flag_reaches_direct_atoms :
  (forall program stmts,
      parse program = Ok stmts -> Forall (fun v => inherits v = true) stmts)
  /\ (forall st st',
      step "(" st = Ok st' ->
      exists rest, open st' = {| o_escaped := escaped st; o_value := [] |} :: rest)
  /\ (forall c st st',
      step c st = Ok st' -> escaped st' = true -> c = "'"%char \/ escaped st = true).
Proof.
  split; [|split].
  - intros program stmts H.
    destruct (parse_statements program stmts H) as (st & Hsteps & <-).
    exact (proj1 (proj2 (invariant_steps program start st invariant_start Hsteps))).
  - exact open_takes_pending.
  - exact pending_only_from_apostrophe.
Qed.

Lemma quote_flag_reaches_direct_atoms_witness :
  Forall (fun v => inherits v = true)
    [List true [List false [Atom false "a"]; Atom true "b"]].
Proof.
  exact (proj1 quote_flag_reaches_direct_atoms "'((a) b)"
           [List true [List false [Atom false "a"]; Atom true "b"]] eq_refl).
Defined.

(** C6 as stated fails: the atom [a] sits in an unquoted list inside a quoted
    list and does not carry the quote flag. *)
Lemma nested_atom_stays_unquoted :
  parse "'((a) b)" = Ok [List true [List false [Atom false "a"]; Atom true "b"]]
  /\ atoms (List true [List false [Atom false "a"]; Atom true "b"])
     = [Atom false "a"; Atom true "b"]
  /\ forallb quoted_if_atom
       (atoms (List true [List false [Atom false "a"]; Atom true "b"])) = false.
Proof. repeat split. Qed.

(** C10: a pending quote bit survives a closing parenthesis and a space; a
    step that clears it is an opening parenthesis, whose list takes the flag,
    or the first character of an atom, which takes it; so after an apostrophe
    and the closing parenthesis of a statement, the next statement opens
    quoted, and inside a list the next atom starts quoted. *)
Theorem pending_quote_carries_over :
  (forall st st', escaped st = true -> step ")" st = Ok st' -> escaped st' = true)
  /\ (forall st st', escaped st = true -> step " " st = Ok st' -> escaped st' = true)
  /\ (forall c st st',
      escaped st = true -> step c st = Ok st' -> escaped st' = false ->
      (c = "("%char
       /\ exists rest, open st' = {| o_escaped := true; o_value := [] |} :: rest)
      \/ (special c = false /\ atom st = None
          /\ atom st' = Some (true, String c EmptyString)))
  /\ (forall st l n,
      atom st = None -> open st = [l] ->
      steps ("')" +:+ spaces n +:+ "(") st
      = Ok {| atom := None; escaped := false;
              open := [{| o_escaped := true; o_value := [] |}];
              statements := statements st ++ [List (o_escaped l) (o_value l)] |})
  /\ (forall st l parent rest n c,
      atom st = None -> open st = l :: parent :: rest -> special c = false ->
      steps ("')" +:+ spaces n +:+ String c EmptyString) st
      = Ok {| atom := Some (true, String c EmptyString); escaped := false;
              open := {| o_escaped := o_escaped parent;
                         o_value := o_value parent ++ [List (o_escaped l) (o_value l)] |}
                      :: rest;
              statements := statements st |}).
Proof.
  split; [|split; [|split; [|split]]].
  - intros st st' E H. rewrite (step_close_keeps _ _ H). exact E.
  - intros st st' E H. rewrite (step_space_keeps _ _ H). exact E.
  - intros c st st' E H E'.
    destruct (step_cases c) as [-> | [-> | [-> | [-> | Hc]]]].
    + revert H. unfold step; simpl. destruct (atom st); intros H; inversion H; subst.
      simpl in E'. discriminate.
    + left. split; [reflexivity|].
      destruct (open_takes_pending _ _ H) as [rest Hrest]. rewrite E in Hrest. eauto.
    + rewrite (step_close_keeps _ _ H), E in E'. discriminate.
    + rewrite (step_space_keeps _ _ H), E in E'. discriminate.
    + right. rewrite (step_ordinary c st Hc) in H.
      destruct (atom st) as [[e s]|].
      * inversion H; subst. simpl in E'. congruence.
      * destruct (open st) as [|l rest]; [discriminate|].
        inversion H; subst. simpl. rewrite E. auto.
  - intros st l n Ha Ho.
    change ("')" +:+ spaces n +:+ "(") with (String "'" (String ")" (spaces n +:+ "("))).
    simpl steps. unfold step at 1; simpl. rewrite Ha. simpl.
    unfold step at 1; simpl. rewrite Ho. simpl.
    rewrite steps_app, steps_spaces by reflexivity. reflexivity.
  - intros st l parent rest n c Ha Ho Hc.
    change ("')" +:+ spaces n +:+ String c EmptyString)
      with (String "'" (String ")" (spaces n +:+ String c EmptyString))).
    simpl steps. unfold step at 1; simpl. rewrite Ha. simpl.
    unfold step at 1; simpl. rewrite Ho. simpl.
    rewrite steps_app, steps_spaces by reflexivity. simpl.
    rewrite (step_ordinary c _ Hc). reflexivity.
Qed.

Lemma pending_quote_carries_over_witness :
  steps "')  ("
    {| atom := None; escaped := false;
       open := [{| o_escaped := false; o_value := [Atom false "a"] |}];
       statements := [] |}
  = Ok {| atom := None; escaped := false;
          open := [{| o_escaped := true; o_value := [] |}];
          statements := [List false [Atom false "a"]] |}.
Proof.
  exact (proj1 (proj2 (proj2 (proj2 pending_quote_carries_over)))
           {| atom := None; escaped := false;
              open := [{| o_escaped := false; o_value := [Atom false "a"] |}];
              statements := [] |}
           {| o_escaped := false; o_value := [Atom false "a"] |} 2 eq_refl eq_refl).
Defined.

(** The same on a whole program: the apostrophe at the end of the first
    statement quotes the second. *)
Example stray_apostrophe_quotes_next_statement :
  parse "(a ') (b)" = Ok [List false [Atom false "a"]; List true [Atom true "b"]].
Proof. reflexivity. Qed.

End ParserFacts.

(** ** Text *)

Module TextFacts.
Import Text.

Lemma upper_char_N (c : ascii) :
  upper_char c = "N"%char -> c = "N"%char \/ c = "n"%char.
Proof.
  destruct c as [[] [] [] [] [] [] [] []]; vm_compute; intros H;
    first [discriminate H | auto].
Qed.

Lemma upper_char_I (c : ascii) :
  upper_char c = "I"%char -> c = "I"%char \/ c = "i"%char.
Proof.
  destruct c as [[] [] [] [] [] [] [] []]; vm_compute; intros H;
    first [discriminate H | auto].
Qed.

Lemma upper_char_L (c : ascii) :
  upper_char c = "L"%char -> c = "L"%char \/ c = "l"%char.
Proof.
  destruct c as [[] [] [] [] [] [] [] []]; vm_compute; intros H;
    first [discriminate H | auto].
Qed.

(** No spelling of [NIL] is a numeric literal. *)
Lemma NIL_not_numeric (s : string) :
  toUpperCase s = "NIL" -> numeric_literal s = false.
Proof.
  destruct s as [|c1 [|c2 [|c3 [|c4 s]]]]; simpl; try discriminate.
  intros H; injection H as H1 H2 H3.
  destruct (upper_char_N c1 H1) as [-> | ->];
    destruct (upper_char_I c2 H2) as [-> | ->];
    destruct (upper_char_L c3 H3) as [-> | ->]; reflexivity.
Qed.

Lemma length_toUpperCase (s : string) : String.length (toUpperCase s) = String.length s.
Proof. induction s as [|c s IH]; simpl; [|rewrite IH]; reflexivity. Qed.

Lemma length_rev_onto (s acc : string) :
  String.length (rev_onto s acc) = (String.length s + String.length acc)%nat.
Proof.
  revert acc; induction s as [|c s IH]; intros acc; simpl; [reflexivity|].
  rewrite IH. simpl. lia.
Qed.

Lemma length_rev (s : string) : String.length (rev s) = String.length s.
Proof. unfold rev. rewrite length_rev_onto. simpl. lia. Qed.

End TextFacts.

Lemma is_cxr_length (name : string) :
  is_cxr name = true -> (3 <= String.length name)%nat.
Proof.
  destruct name as [|c r]; simpl; [discriminate|].
  intros H. assert (Hr : (2 <= String.length (Text.rev r))%nat).
  { destruct (Text.rev r) as [|c1 [|c2 m]]; simpl.
    - destruct c as [[] [] [] [] [] [] [] []]; discriminate H.
    - destruct c as [[] [] [] [] [] [] [] []]; try discriminate H;
        destruct c1 as [[] [] [] [] [] [] [] []]; discriminate H.
    - lia. }
  rewrite TextFacts.length_rev in Hr. lia.
Qed.

Lemma number_text_not_NaN (s : string) :
  Text.numeric_literal s = true -> Host.isNaN (Host.Number_text s) = false.
Proof.
  unfold Host.Number_text. intros ->.
  destruct (Text.plain_integer s) as [z|]; [|reflexivity].
  unfold Host.exact. destruct (Host.safe z); reflexivity.
Qed.

Lemma number_text_NaN (s : string) :
  Text.numeric_literal s = false -> Host.isNaN (Host.Number_text s) = true.
Proof. unfold Host.Number_text. intros ->. reflexivity. Qed.

(** ** The evaluator, one call at a time *)

Section EvaluatorFacts.

Variable flagUseColor : bool.

Lemma fetch_atom (fuel : nat) (escaped : bool) (value : string) (st : State) :
  fetch flagUseColor (S fuel) (Atom escaped value) st =
    if negb escaped
       && negb (String.eqb (Text.toUpperCase value) "TRUE")
       && negb (String.eqb (Text.toUpperCase value) "NIL")
       && Host.isNaN (Host.Number_text value)
    then
      match memory st !! Text.toUpperCase value with
      | None => throw ("Unknown variable '" +:+ value +:+ "'.")
      | Some variable => Ok (variable, st)
      end
    else if String.eqb (Text.toUpperCase value) "NIL"
    then Ok (List false [], st)
    else Ok (Atom escaped value, st).
Proof. reflexivity. Qed.

Lemma fetch_list (fuel : nat) (escaped : bool) (value : list Value) (st : State) :
  fetch flagUseColor (S fuel) (List escaped value) st =
    if negb escaped && negb (Nat.eqb (length value) 0)
    then let* (r, st1) := execute flagUseColor fuel (List escaped value) st in
         fetch flagUseColor fuel r st1
    else Ok (List escaped value, st).
Proof. reflexivity. Qed.

(** An unquoted atom that is not reserved and not numeric is a variable. *)
Lemma fetch_variable (fuel : nat) (value : string) (st : State) :
  Text.toUpperCase value <> "TRUE" -> Text.toUpperCase value <> "NIL" ->
  Text.numeric_literal value = false ->
  fetch flagUseColor (S fuel) (Atom false value) st =
    match memory st !! Text.toUpperCase value with
    | None => throw ("Unknown variable '" +:+ value +:+ "'.")
    | Some variable => Ok (variable, st)
    end.
Proof.
  intros HT HN Hnum. rewrite fetch_atom.
  destruct (String.eqb_spec (Text.toUpperCase value) "TRUE"); [contradiction|].
  destruct (String.eqb_spec (Text.toUpperCase value) "NIL"); [contradiction|].
  rewrite (number_text_NaN value Hnum). reflexivity.
Qed.

Lemma fetch_numeric (fuel : nat) (escaped : bool) (value : string) (st : State) :
  Text.numeric_literal value = true ->
  fetch flagUseColor (S fuel) (Atom escaped value) st = Ok (Atom escaped value, st).
Proof.
  intros Hnum. rewrite fetch_atom, (number_text_not_NaN value Hnum).
  rewrite andb_false_r.
  destruct (String.eqb_spec (Text.toUpperCase value) "NIL") as [E|]; [|reflexivity].
  rewrite (TextFacts.NIL_not_numeric value E) in Hnum. discriminate.
Qed.

Lemma fetch_self_evaluating (fuel : nat) (v : Value) (st : State) :
  self_evaluating v = true -> fetch flagUseColor (S fuel) v st = Ok (v, st).
Proof.
  destruct v as [e s|e vs|n p b|fn]; [| |reflexivity|reflexivity].
  - simpl self_evaluating. rewrite fetch_atom. intros H.
    apply andb_true_iff in H as [HN H].
    destruct (String.eqb (Text.toUpperCase s) "NIL"); [discriminate|].
    apply orb_true_iff in H as [H|H]; [apply orb_true_iff in H as [->| ->]|].
    + reflexivity.
    + simpl. rewrite andb_false_r. reflexivity.
    + rewrite (number_text_not_NaN s H), andb_false_r. reflexivity.
  - simpl self_evaluating. rewrite fetch_list. intros H.
    destruct e; [reflexivity|]. simpl in H. rewrite H. reflexivity.
Qed.

(** What [execute] does with a call whose head is an atom. *)
Lemma execute_call (fuel : nat) (e : bool) (methodName : string)
    (arguments : list Value) (st : State) :
  execute flagUseColor (S fuel) (List false (Atom e methodName :: arguments)) st =
    match memory st !! Text.toUpperCase methodName with
    | None =>
        if is_cxr (Text.toUpperCase methodName) then
          match memory st !! "CAR", memory st !! "CDR" with
          | Some CAR_, Some CDR_ =>
              let* (result, st1) :=
                cxr_loop flagUseColor (fetch flagUseColor fuel) (execute flagUseColor fuel)
                  (toString flagUseColor fuel) CAR_ CDR_ methodName
                  (String.length methodName - 2) arguments st in
              match result with
              | r :: _ => Ok (r, st1)
              | [] => Fail Unmodelled
              end
          | _, _ => throw "CAR or CDR not defined natively."
          end
        else throw ("Unknown function call '" +:+ methodName +:+ "'.")
    | Some (Native fn) => native flagUseColor fuel fn arguments st
    | Some (Method _ params body) =>
        match arguments with
        | [] => throw "A non-native function call must contain an argument."
        | argument :: _ =>
            match params with
            | List _ (Atom _ formal :: _) =>
                let* (actual, st1) := fetch flagUseColor fuel argument st in
                let* (r, st2) :=
                  execute flagUseColor fuel body
                    {| memory := <[Text.toUpperCase formal := actual]> (memory st);
                       stdout := stdout st1 |} in
                Ok (r, {| memory := memory st1; stdout := stdout st2 |})
            | List _ _ => Fail TypeError
            | _ => Fail Unmodelled
            end
        end
    | Some _ => throw ("Illegal function call '" +:+ methodName +:+ "'.")
    end.
Proof. reflexivity. Qed.

End EvaluatorFacts.

(** ** fetch on atoms, calls of methods, the cadr family *)

Section CallFacts.

Variable flagUseColor : bool.

Abbreviation fetch' := (fetch flagUseColor).
Abbreviation execute' := (execute flagUseColor).

(** C2, as the code has it: an unquoted atom that is not [TRUE], not [NIL]
    and whose text the host does not convert to a number at all is looked up
    under its upper-cased text, fails when unbound and otherwise yields the
    bound value, with the state untouched and no further fetch; an atom whose
    text converts to a number, [Infinity] included, is returned unchanged. *)
Theorem fetch_unquoted_atom (fuel : nat) (value : string) (st : State) :
  (Text.toUpperCase value <> "TRUE" -> Text.toUpperCase value <> "NIL" ->
   Text.numeric_literal value = false ->
   fetch' (S fuel) (Atom false value) st =
     match memory st !! Text.toUpperCase value with
     | None => throw ("Unknown variable '" +:+ value +:+ "'.")
     | Some variable => Ok (variable, st)
     end)
  /\ (forall escaped,
      Text.numeric_literal value = true ->
      fetch' (S fuel) (Atom escaped value) st = Ok (Atom escaped value, st)).
Proof.
  split.
  - apply fetch_variable.
  - intros escaped. apply fetch_numeric.
Qed.

(** C7: a call of a method that returns has fetched its first argument in
    the caller's state, has run the body on the caller's memory as it stood
    when the call was entered with the formal parameter set to the fetched
    argument and nothing else changed, and leaves the caller with the
    memory the fetch of the argument left: whatever the body did to its own
    memory is dropped. *)
Theorem method_call_leaves_caller_memory (fuel : nat) (e : bool) (name : string)
    (nm params body argument : Value) (rest : list Value) (st st' : State) (r : Value) :
  memory st !! Text.toUpperCase name = Some (Method nm params body) ->
  execute' (S fuel) (List false (Atom e name :: argument :: rest)) st = Ok (r, st') ->
  exists pe ae formal ps actual st1 st2,
    params = List pe (Atom ae formal :: ps)
    /\ fetch' fuel argument st = Ok (actual, st1)
    /\ (let child := <[Text.toUpperCase formal := actual]> (memory st) in
        child !! Text.toUpperCase formal = Some actual
        /\ (forall key, key <> Text.toUpperCase formal -> child !! key = memory st !! key)
        /\ execute' fuel body {| memory := child; stdout := stdout st1 |} = Ok (r, st2))
    /\ memory st' = memory st1.
Proof.
  intros Hm. rewrite execute_call, Hm.
  destruct params as [| pe [|[ae formal| | |] ps] | |]; try discriminate.
  destruct (fetch' fuel argument st) as [[actual st1]|f] eqn:Ef; simpl; [|discriminate].
  destruct (execute' fuel body _) as [[r2 st2]|f] eqn:Eb; simpl; [|discriminate].
  intros H; inversion H; subst; clear H.
  exists pe, ae, formal, ps, actual, st1, st2.
  split; [reflexivity|]. split; [reflexivity|]. split; [|reflexivity].
  split; [apply lookup_insert_eq|]. split; [|exact Eb].
  intros key Hkey. apply lookup_insert_ne. congruence.
Qed.

(** C8: a call whose head resolves to a method fails without an argument;
    with one, it fetches the first argument once, runs the body with the
    formal parameter bound to what the fetch returned, and never looks at
    the other arguments; in the body a reference to the parameter yields the
    bound value as it is. *)
Theorem method_call (fuel : nat) (e : bool) (name : string) (nm body : Value)
    (pe ae : bool) (formal : string) (ps : list Value) (st : State) :
  memory st !! Text.toUpperCase name = Some (Method nm (List pe (Atom ae formal :: ps)) body) ->
  execute' (S fuel) (List false [Atom e name]) st
    = throw "A non-native function call must contain an argument."
  /\ (forall argument rest,
      execute' (S fuel) (List false (Atom e name :: argument :: rest)) st =
        let* (actual, st1) := fetch' fuel argument st in
        let* (r, st2) :=
          execute' fuel body
            {| memory := <[Text.toUpperCase formal := actual]> (memory st);
               stdout := stdout st1 |} in
        Ok (r, {| memory := memory st1; stdout := stdout st2 |}))
  /\ (forall actual out depth,
      Text.toUpperCase formal <> "TRUE" -> Text.toUpperCase formal <> "NIL" ->
      Text.numeric_literal formal = false ->
      let child := {| memory := <[Text.toUpperCase formal := actual]> (memory st);
                      stdout := out |} in
      fetch' (S depth) (Atom false formal) child = Ok (actual, child)).
Proof.
  intros Hm. split; [|split].
  - rewrite execute_call, Hm. reflexivity.
  - intros argument rest. rewrite execute_call, Hm. reflexivity.
  - intros actual out depth HT HN Hnum child.
    rewrite (fetch_variable flagUseColor depth formal child HT HN Hnum).
    unfold child; simpl. rewrite lookup_insert_eq. reflexivity.
Qed.

Lemma arity_one (fn : NativeFn) (fuel : nat) (arguments : list Value) (st : State) :
  fn = FnCAR \/ fn = FnCDR -> length arguments <> 1%nat ->
  native flagUseColor fuel fn arguments st
    = throw (expected (native_name fn) "1 argument" arguments).
Proof.
  intros [-> | ->] Hlen; destruct arguments as [|a [|b r]]; try reflexivity;
    simpl in Hlen; congruence.
Qed.

(** C9: when the fallback fires, the first native of the loop receives the
    whole argument tail of the call; with any number of arguments other than
    one the call fails with that native's arity error. *)
Theorem cxr_passes_whole_tail (fuel : nat) (e : bool) (name : string)
    (arguments : list Value) (st : State) :
  memory st !! Text.toUpperCase name = None ->
  is_cxr (Text.toUpperCase name) = true ->
  memory st !! "CAR" = Some (Native FnCAR) ->
  memory st !! "CDR" = Some (Native FnCDR) ->
  execute' (S fuel) (List false (Atom e name :: arguments)) st =
    (let* (r, st1) := native flagUseColor fuel (first_applied name) arguments st in
     let* (result, st2) :=
       cxr_loop flagUseColor (fetch' fuel) (execute' fuel) (toString flagUseColor fuel)
         (Native FnCAR) (Native FnCDR) name (String.length name - 3) [r] st1 in
     match result with
     | r' :: _ => Ok (r', st2)
     | [] => Fail Unmodelled
     end)
  /\ (length arguments <> 1%nat ->
      execute' (S fuel) (List false (Atom e name :: arguments)) st
        = throw (expected (native_name (first_applied name)) "1 argument" arguments)).
Proof.
  intros Hnone Hcxr Hcar Hcdr.
  pose proof (is_cxr_length _ Hcxr) as Hlen.
  rewrite TextFacts.length_toUpperCase in Hlen.
  assert (Hcall :
    execute' (S fuel) (List false (Atom e name :: arguments)) st =
      (let* (r, st1) := native flagUseColor fuel (first_applied name) arguments st in
       let* (result, st2) :=
         cxr_loop flagUseColor (fetch' fuel) (execute' fuel) (toString flagUseColor fuel)
           (Native FnCAR) (Native FnCDR) name (String.length name - 3) [r] st1 in
       match result with
       | r' :: _ => Ok (r', st2)
       | [] => Fail Unmodelled
       end)).
  { rewrite execute_call, Hnone, Hcxr, Hcar, Hcdr. unfold first_applied.
    replace (String.length name - 2)%nat with (S (String.length name - 3)) by lia.
    simpl cxr_loop. unfold native.
    destruct (String.get (S (String.length name - 3)) name) as [c|];
      [destruct (Ascii.eqb c "A")|]; simpl call_value; simpl call_native;
      [destruct (CAR _ arguments st) as [[r st1]|f]
      |destruct (CDR _ arguments st) as [[r st1]|f]
      |destruct (CDR _ arguments st) as [[r st1]|f]]; reflexivity. }
  split; [exact Hcall|].
  intros Harity. rewrite Hcall, arity_one; [reflexivity| |exact Harity].
  unfold first_applied. destruct (String.get _ name) as [c|]; [|auto].
  destruct (Ascii.eqb c "A"); auto.
Qed.

Lemma car_of_quoted (fuel : nat) (e : bool) (x : Value) (xs : list Value) (st : State) :
  memory st !! "CAR" = Some (Native FnCAR) ->
  execute' (S (S fuel)) (List false [Atom e "CAR"; List true (x :: xs)]) st = Ok (x, st).
Proof.
  intros Hcar.
  rewrite execute_call. change (Text.toUpperCase "CAR") with "CAR". rewrite Hcar.
  unfold native; simpl. rewrite copy_same. reflexivity.
Qed.

Lemma cdr_of_quoted (fuel : nat) (e : bool) (x : Value) (xs : list Value) (st : State) :
  memory st !! "CDR" = Some (Native FnCDR) ->
  execute' (S (S fuel)) (List false [Atom e "CDR"; List true (x :: xs)]) st
    = Ok (List true xs, st).
Proof.
  intros Hcdr.
  rewrite execute_call. change (Text.toUpperCase "CDR") with "CDR". rewrite Hcdr.
  unfold native; simpl. rewrite map_copy_same. reflexivity.
Qed.

(** C3, as the code has it: for a quoted list whose first element fetches to
    itself, [(CONS (CAR L) (CDR L))] returns a quoted list with the elements
    of [L] in their order, and leaves the state as it was. *)
Theorem cons_car_cdr (fuel : nat) (e0 e1 e2 : bool) (x : Value) (xs : list Value)
    (st : State) :
  self_evaluating x = true ->
  memory st !! "CONS" = Some (Native FnCONS) ->
  memory st !! "CAR" = Some (Native FnCAR) ->
  memory st !! "CDR" = Some (Native FnCDR) ->
  execute' (4 + fuel)
    (List false [Atom e0 "CONS";
                 List false [Atom e1 "CAR"; List true (x :: xs)];
                 List false [Atom e2 "CDR"; List true (x :: xs)]]) st
  = Ok (List true (x :: xs), st).
Proof.
  intros Hx Hcons Hcar Hcdr.
  change (4 + fuel)%nat with (S (S (S (S fuel)))).
  rewrite execute_call. change (Text.toUpperCase "CONS") with "CONS". rewrite Hcons.
  unfold native; simpl.
  rewrite fetch_list; simpl.
  rewrite (car_of_quoted fuel e1 x xs st Hcar); simpl.
  rewrite (fetch_self_evaluating flagUseColor (S fuel) x st Hx); simpl.
  rewrite fetch_list; simpl.
  rewrite (cdr_of_quoted fuel e2 x xs st Hcdr); simpl.
  rewrite copy_same, map_copy_same. reflexivity.
Qed.

End CallFacts.

(** ** The cadr-family loop, letter by letter *)

Lemma get_nth_error (i : nat) (s : string) :
  String.get i s = nth_error (list_ascii_of_string s) i.
Proof.
  revert i; induction s as [|c s IH]; intros [|i]; simpl; try reflexivity. apply IH.
Qed.

Lemma length_list_ascii (s : string) :
  length (list_ascii_of_string s) = String.length s.
Proof. induction s as [|c s IH]; simpl; [|rewrite IH]; reflexivity. Qed.

Lemma firstn_snoc (A : Type) (l : list A) (j : nat) (x : A) :
  nth_error l j = Some x -> firstn (S j) l = (firstn j l ++ [x])%list.
Proof.
  revert j; induction l as [|y l IH]; intros [|j] H; simpl in *; try discriminate.
  - inversion H; reflexivity.
  - rewrite (IH j H). reflexivity.
Qed.

Section LoopByLetters.

Variable flagUseColor : bool.
Variable fetch : Value -> State -> Result.
Variable execute : Value -> State -> Result.
Variable toString : bool -> Value -> State -> Outcome (string * State).

(** The loop runs over the letters at positions [i], [i - 1], ..., 1: the
    letters of the name after its first, up to the [i]-th, from the right. *)
Lemma cxr_loop_letters (CAR_ CDR_ : Value) (name : string) (i : nat)
    (result : list Value) (st : State) :
  (i < String.length name)%nat ->
  cxr_loop flagUseColor fetch execute toString CAR_ CDR_ name i result st =
    apply_letters (call_value flagUseColor fetch execute toString) CAR_ CDR_
      (rev (firstn i (List.tl (list_ascii_of_string name)))) result st.
Proof.
  revert result st; induction i as [|j IH]; intros result st Hi; [reflexivity|].
  assert (Hget : exists c, nth_error (List.tl (list_ascii_of_string name)) j = Some c).
  { destruct (nth_error (List.tl (list_ascii_of_string name)) j) as [c|] eqn:E; [eauto|].
    apply nth_error_None in E. pose proof (length_list_ascii name) as Hl.
    destruct (list_ascii_of_string name); simpl in *; lia. }
  destruct Hget as [c Hc].
  rewrite (firstn_snoc _ _ j c Hc), rev_app_distr. simpl.
  rewrite get_nth_error.
  replace (nth_error (list_ascii_of_string name) (S j)) with (Some c)
    by (destruct (list_ascii_of_string name); [destruct j; discriminate|exact (eq_sym Hc)]).
  destruct (call_value _ _ _ _ _ result st) as [[r st1]|f]; simpl; [|reflexivity].
  apply IH. lia.
Qed.

End LoopByLetters.

Lemma all_chars_Forall (p : ascii -> bool) (s : string) :
  Text.all_chars p s = true -> Forall (fun c => p c = true) (list_ascii_of_string s).
Proof.
  induction s as [|c s IH]; simpl; [constructor|].
  intros H. apply andb_true_iff in H as [Hc Hs]. constructor; auto.
Qed.

Lemma list_rev_onto (s acc : string) :
  list_ascii_of_string (Text.rev_onto s acc)
  = (rev (list_ascii_of_string s) ++ list_ascii_of_string acc)%list.
Proof.
  revert acc; induction s as [|c s IH]; intros acc; simpl; [reflexivity|].
  rewrite IH. simpl. rewrite <- app_assoc. reflexivity.
Qed.

Lemma list_rev (s : string) :
  list_ascii_of_string (Text.rev s) = rev (list_ascii_of_string s).
Proof. unfold Text.rev. rewrite list_rev_onto. simpl. apply app_nil_r. Qed.

(** In a name that matches the pattern as written, every middle letter is
    [A] or [D]. *)
Lemma middle_letters_A_or_D (name : string) :
  is_cxr name = true ->
  Forall (fun c => c = "A"%char \/ c = "D"%char) (middle_letters name).
Proof.
  unfold is_cxr, middle_letters. destruct name as [|c0 r]; [discriminate|].
  intros H.
  assert (Hr : exists c m,
             Text.rev r = String "R" (String c m)
             /\ Text.all_chars (fun c => Ascii.eqb c "A" || Ascii.eqb c "D") (String c m) = true).
  { destruct (Ascii.eqb_spec c0 "C"); [subst c0|
      destruct c0 as [[] [] [] [] [] [] [] []]; try discriminate H; contradiction].
    destruct (Text.rev r) as [|c1 [|c m]]; try discriminate H.
    - destruct c1 as [[] [] [] [] [] [] [] []]; discriminate H.
    - destruct (Ascii.eqb_spec c1 "R"); [subst c1; eauto|].
      destruct c1 as [[] [] [] [] [] [] [] []]; try discriminate H; contradiction. }
  destruct Hr as (c & m & Hrev & Hall).
  pose proof (list_rev r) as Hl. rewrite Hrev in Hl. simpl in Hl.
  apply (f_equal (@rev ascii)) in Hl. rewrite rev_involutive in Hl. simpl in Hl.
  simpl List.tl. rewrite <- Hl.
  assert (Hlen : (String.length (String c0 r) - 2
                  = length (rev (list_ascii_of_string (String c m))))%nat).
  { rewrite <- (length_list_ascii (String c0 r)). simpl length at 1.
    rewrite <- Hl. rewrite !length_app. simpl. rewrite length_app. simpl. lia. }
  rewrite Hlen. simpl rev at 1.
  rewrite firstn_app, firstn_all, Nat.sub_diag. simpl. rewrite app_nil_r.
  change (rev (list_ascii_of_string m) ++ [c])%list
    with (rev (list_ascii_of_string (String c m))).
  apply Forall_rev. apply all_chars_Forall in Hall.
  eapply Forall_impl; [exact Hall|]. intros a Ha. simpl in Ha.
  apply orb_true_iff in Ha as [Ha|Ha]; [left|right];
    destruct (Ascii.eqb_spec a "A"), (Ascii.eqb_spec a "D"); try discriminate; auto.
Qed.

(** The composition the fallback builds: when it fires for a name, the
    natives bound to [CAR] and [CDR] are applied along its middle letters
    from the last to the first, [CAR] for the letter [A] and [CDR] for any
    other; in a name written in capitals every middle letter is [A] or [D]. *)
Lemma cxr_right_to_left (flagUseColor : bool) (fuel : nat) (e : bool) (name : string)
    (arguments : list Value) (st : State) (CAR_ CDR_ : Value) :
  memory st !! Text.toUpperCase name = None ->
  is_cxr (Text.toUpperCase name) = true ->
  memory st !! "CAR" = Some CAR_ ->
  memory st !! "CDR" = Some CDR_ ->
  execute flagUseColor (S fuel) (List false (Atom e name :: arguments)) st =
    let* (result, st1) :=
      apply_letters
        (call_value flagUseColor (fetch flagUseColor fuel) (execute flagUseColor fuel)
           (toString flagUseColor fuel))
        CAR_ CDR_ (rev (middle_letters name)) arguments st in
    match result with
    | r :: _ => Ok (r, st1)
    | [] => Fail Unmodelled
    end.
Proof.
  intros Hnone Hcxr Hcar Hcdr.
  pose proof (is_cxr_length _ Hcxr) as Hlen.
  rewrite TextFacts.length_toUpperCase in Hlen.
  rewrite execute_call, Hnone, Hcxr, Hcar, Hcdr.
  rewrite cxr_loop_letters by lia. reflexivity.
Qed.

(** ** The arithmetic natives and operands that are not numbers *)

(** What converts to [NaN]: an atom whose text is no numeric literal, a list
    that is not empty, a method, a native.  The empty list does not. *)
Lemma not_a_number_cases (v : Value) :
  not_a_number v =
    match v with
    | Atom _ value => negb (Text.numeric_literal value)
    | List _ [] => false
    | _ => true
    end.
Proof.
  destruct v as [e s|e [|x xs]|n p b|fn]; try reflexivity.
  unfold not_a_number; simpl.
  destruct (Text.numeric_literal s) eqn:E.
  - rewrite (number_text_not_NaN s E). reflexivity.
  - rewrite (number_text_NaN s E). reflexivity.
Qed.

Section ArithmeticNatives.

Variable fetch : Value -> State -> Result.

Lemma ADD_loop_refuses (parameters : list Value) (st : State) (vs : list Value)
    (st' : State) (sum : Num) :
  fetch_each fetch parameters st = Ok (vs, st') ->
  existsb not_a_number vs = true ->
  ADD_loop fetch parameters sum st = throw "ADD: One or more parameters are not a number".
Proof.
  revert st vs sum; induction parameters as [|p rest IH]; intros st vs sum H Hnan; simpl in *.
  - inversion H; subst. discriminate.
  - destruct (fetch p st) as [[v st1]|f]; simpl in *; [|discriminate].
    destruct (fetch_each fetch rest st1) as [[vs' st2]|f] eqn:E; simpl in *; [|discriminate].
    inversion H; subst. simpl in Hnan. unfold not_a_number in Hnan at 1.
    destruct (Host.isNaN (Number_ v)); [reflexivity|]. simpl in Hnan.
    eapply IH; [exact E|exact Hnan].
Qed.

Lemma MULT_loop_refuses (parameters : list Value) (st : State) (vs : list Value)
    (st' : State) (product : Num) :
  fetch_each fetch parameters st = Ok (vs, st') ->
  existsb not_a_number vs = true ->
  MULT_loop fetch parameters product st
    = throw "MULT: One or more parameters are not a number".
Proof.
  revert st vs product; induction parameters as [|p rest IH]; intros st vs product H Hnan;
    simpl in *.
  - inversion H; subst. discriminate.
  - destruct (fetch p st) as [[v st1]|f]; simpl in *; [|discriminate].
    destruct (fetch_each fetch rest st1) as [[vs' st2]|f] eqn:E; simpl in *; [|discriminate].
    inversion H; subst. simpl in Hnan. unfold not_a_number in Hnan at 1.
    destruct (Host.isNaN (Number_ v)); [reflexivity|]. simpl in Hnan.
    eapply IH; [exact E|exact Hnan].
Qed.

(** What the arithmetic natives do refuse: once the arity is right and the
    arguments fetch, an operand that converts to [NaN] makes the native fail
    with its own message. *)
Lemma arithmetic_refuses_not_a_number (parameters : list Value) (st : State)
    (vs : list Value) (st' : State) :
  fetch_each fetch parameters st = Ok (vs, st') ->
  existsb not_a_number vs = true ->
  ((2 <= length parameters)%nat ->
     ADD fetch parameters st = throw "ADD: One or more parameters are not a number"
     /\ MULT fetch parameters st = throw "MULT: One or more parameters are not a number")
  /\ (length parameters = 2%nat ->
      let first := not_a_number (nth 0 vs getNil) in
      SUB fetch parameters st
        = throw (if first then "SUB: Minuend is not a number"
                 else "SUB: Subtrahend is not a number")
      /\ DIV fetch parameters st
         = throw (if first then "DIV: Dividend is not a number"
                  else "DIV: Divisor is not a number")
      /\ EXP fetch parameters st
         = throw (if first then "EXP: Base is not a number"
                  else "EXP: Exponent is not a number")
      /\ EQ fetch parameters st
         = throw (if first then "EQ: Left-hand parameter is not a number"
                  else "EQ: Right-hand parameter is not a number"))
  /\ (length parameters = 1%nat ->
      SQUARE fetch parameters st = throw "SQUARE: Parameter is not a number"
      /\ POS fetch parameters st = throw "POS: Parameter is not a number"
      /\ NEG fetch parameters st = throw "NEG: Parameter is not a number").
Proof.
  intros H Hnan. split; [|split].
  - intros Hlen. unfold ADD, MULT.
    destruct (Nat.ltb_spec (length parameters) 2) as [Hlt|_]; [lia|].
    rewrite (ADD_loop_refuses parameters st vs st' (Exact 0) H Hnan).
    rewrite (MULT_loop_refuses parameters st vs st' (Exact 1) H Hnan).
    split; reflexivity.
  - intros Hlen. destruct parameters as [|p0 [|p1 [|? ?]]]; try discriminate.
    simpl in H. unfold SUB, DIV, EXP, EQ.
    destruct (fetch p0 st) as [[v0 st1]|f]; simpl in *; [|discriminate].
    destruct (fetch p1 st1) as [[v1 st2]|f]; simpl in *; [|discriminate].
    inversion H; subst. simpl in *. unfold not_a_number in *.
    destruct (Host.isNaN (Number_ v0)); simpl in *; [repeat split|].
    rewrite orb_false_r in Hnan. rewrite Hnan. repeat split.
  - intros Hlen. destruct parameters as [|p0 [|? ?]]; try discriminate.
    simpl in H. unfold SQUARE, POS, NEG.
    destruct (fetch p0 st) as [[v0 st1]|f]; simpl in *; [|discriminate].
    inversion H; subst. simpl in *. unfold not_a_number in *.
    rewrite orb_false_r in Hnan. rewrite Hnan. repeat split.
Qed.

End ArithmeticNatives.

(** ** Concrete runs *)

(** The scenarios of the specification, as the model runs them. *)
Example scenarios :
  printed false 9 "(PRINT (ADD 1 2 3))" = Ok ["6 "; newline]
  /\ printed false 9 "(SETQ X 10) (PRINT (MULT X X))" = Ok ["100 "; newline]
  /\ printed false 9 "(DEF F (N) (MULT N N)) (PRINT (F 7))" = Ok ["49 "; newline]
  /\ printed false 9 "(PRINT (CAR '(A B C))) (PRINT (CDR '(A B C)))"
     = Ok ["A "; newline; "( B C ) "; newline]
  /\ printed false 9 "(PRINT (CADR '(1 2 3)))" = Ok ["2 "; newline]
  /\ printed false 9 "(PRINT (REVERSE '(1 2 3)))" = Ok ["( 3 2 1 ) "; newline]
  /\ printed false 9 "(PRINT (EQ (ADD 2 3) 5))" = Ok ["TRUE "; newline]
  /\ printed false 9 "(PRINT (ATOM 'X)) (PRINT (ATOM '(X)))"
     = Ok ["TRUE "; newline; "NIL "; newline]
  /\ printed false 9 "(DEF F (N) (MULT N N)) (PRINT (F 1 2))" = Ok ["1 "; newline]
  /\ printed false 9 "(PRINT (CAR NIL))"
     = throw "CAR: Parameter must be a non-NIL list."
  /\ printed false 9 "(DEF F (N) (MULT N N)) (F)"
     = throw "A non-native function call must contain an argument."
  /\ printed false 9 "(SETQ X 1) (DEF F (N) (PRINT X)) (F (SETQ X 5)) (PRINT X)"
     = Ok ["1 "; newline; "5 "; newline].
Proof. repeat split; vm_compute; reflexivity. Qed.

Lemma initial_CAR : memory initial !! "CAR" = Some (Native FnCAR).
Proof. vm_compute. reflexivity. Qed.

Lemma initial_CDR : memory initial !! "CDR" = Some (Native FnCDR).
Proof. vm_compute. reflexivity. Qed.

Lemma initial_CONS : memory initial !! "CONS" = Some (Native FnCONS).
Proof. vm_compute. reflexivity. Qed.

Lemma with_F_defined :
  execute false 3
    (List false [Atom false "DEF"; Atom false "F"; List false [Atom false "N"];
                 List false [Atom false "SETQ"; Atom false "X"; Atom false "N"]]) initial
  = Ok (Method (Atom false "F") (List false [Atom false "N"])
          (List false [Atom false "SETQ"; Atom false "X"; Atom false "N"]), with_F).
Proof. vm_compute. reflexivity. Qed.

Lemma fetch_unquoted_atom_witness :
  fetch false 1 (Atom false "x") with_F
    = throw "Unknown variable 'x'."
  /\ fetch false 1 (Atom false "f") with_F
     = Ok (Method (Atom false "F") (List false [Atom false "N"])
             (List false [Atom false "SETQ"; Atom false "X"; Atom false "N"]), with_F)
  /\ fetch false 1 (Atom false "1e3") with_F = Ok (Atom false "1e3", with_F).
Proof.
  split; [|split].
  - refine (proj1 (fetch_unquoted_atom false 0 "x" with_F) _ _ _);
      [vm_compute; discriminate | vm_compute; discriminate | vm_compute; reflexivity].
  - refine (proj1 (fetch_unquoted_atom false 0 "f" with_F) _ _ _);
      [vm_compute; discriminate | vm_compute; discriminate | vm_compute; reflexivity].
  - refine (proj2 (fetch_unquoted_atom false 0 "1e3" with_F) false _).
    vm_compute; reflexivity.
Defined.

(** C2 as stated fails at [Infinity]: its text is neither [TRUE] nor [NIL]
    and is no finite number, yet it is not looked up; unbound it is returned,
    not refused, and bound it is returned in place of the bound value. *)
Lemma Infinity_is_not_looked_up :
  Text.toUpperCase "Infinity" = "INFINITY"
  /\ memory initial !! "INFINITY" = None
  /\ fetch false 1 (Atom false "Infinity") initial = Ok (Atom false "Infinity", initial)
  /\ fetch false 1 (Atom false "Infinity") (set_memory "INFINITY" (Atom true "bound") initial)
     = Ok (Atom false "Infinity", set_memory "INFINITY" (Atom true "bound") initial).
Proof. repeat split; vm_compute; reflexivity. Qed.

Lemma method_call_leaves_caller_memory_witness :
  exists pe ae formal ps actual st1 st2,
    List false [Atom false "N"] = List pe (Atom ae formal :: ps)
    /\ fetch false 3 (Atom false "7") with_F = Ok (actual, st1)
    /\ (let child := <[Text.toUpperCase formal := actual]> (memory with_F) in
        child !! Text.toUpperCase formal = Some actual
        /\ (forall key, key <> Text.toUpperCase formal -> child !! key = memory with_F !! key)
        /\ execute false 3 (List false [Atom false "SETQ"; Atom false "X"; Atom false "N"])
             {| memory := child; stdout := stdout st1 |} = Ok (Atom false "7", st2))
    /\ memory with_F = memory st1.
Proof.
  apply (method_call_leaves_caller_memory false 3 false "F" (Atom false "F")
           (List false [Atom false "N"])
           (List false [Atom false "SETQ"; Atom false "X"; Atom false "N"])
           (Atom false "7") [] with_F with_F (Atom false "7"));
    vm_compute; reflexivity.
Defined.

Lemma method_call_witness :
  execute false 4 (List false [Atom false "F"]) with_F
  = throw "A non-native function call must contain an argument.".
Proof.
  refine (proj1 (method_call false 3 false "F" (Atom false "F")
                   (List false [Atom false "SETQ"; Atom false "X"; Atom false "N"])
                   false false "N" [] with_F _)).
  vm_compute; reflexivity.
Defined.

Lemma cxr_passes_whole_tail_witness :
  execute false 1 (List false [Atom false "CADR"; quoted_123; quoted_123]) initial
  = throw "CDR: Expected 1 argument, got 2 instead.".
Proof.
  refine (proj2 (cxr_passes_whole_tail false 0 false "CADR" [quoted_123; quoted_123]
                   initial _ _ _ _) _);
    [vm_compute; reflexivity | vm_compute; reflexivity | exact initial_CAR
    | exact initial_CDR | simpl; lia].
Defined.

Lemma cons_car_cdr_witness :
  execute false 4
    (List false [Atom false "CONS";
                 List false [Atom false "CAR"; quoted_123];
                 List false [Atom false "CDR"; quoted_123]]) initial
  = Ok (quoted_123, initial).
Proof.
  exact (cons_car_cdr false 0 false false false (Atom true "1")
           [Atom true "2"; Atom true "3"] initial eq_refl
           initial_CONS initial_CAR initial_CDR).
Defined.

(** C3 as stated fails on a quoted list that starts with an unquoted list:
    [CONS] fetches what [CAR] returned, which runs that list as a call.  With
    ['((x) y)] the call is unknown and the whole expression fails; with
    ['((CDR '(1 2)) y)] it succeeds and the first element has changed. *)
Lemma cons_car_cdr_runs_nested_call :
  Parser.parse "(CONS (CAR '((x) y)) (CDR '((x) y)))"
  = Ok [List false
          [Atom false "CONS";
           List false [Atom false "CAR"; List true [List false [Atom false "x"]; Atom true "y"]];
           List false [Atom false "CDR"; List true [List false [Atom false "x"]; Atom true "y"]]]]
  /\ execute false 9
       (List false
          [Atom false "CONS";
           List false [Atom false "CAR"; List true [List false [Atom false "x"]; Atom true "y"]];
           List false [Atom false "CDR"; List true [List false [Atom false "x"]; Atom true "y"]]])
       initial
     = throw "Unknown function call 'x'."
  /\ execute false 9
       (List false
          [Atom false "CONS";
           List false [Atom false "CAR";
                       List true [List false [Atom false "CDR"; quoted_123]; Atom true "y"]];
           List false [Atom false "CDR";
                       List true [List false [Atom false "CDR"; quoted_123]; Atom true "y"]]])
       initial
     = Ok (List true [List true [Atom true "2"; Atom true "3"]; Atom true "y"], initial).
Proof. repeat split; vm_compute; reflexivity. Qed.

(** C1 fails on the code for a name not written in capitals: the pattern is
    tested on the upper-cased name, the letters are compared as written, so
    every middle letter of [cadr] selects [CDR].  [(CADR '(1 2 3))] is
    [(CAR (CDR '(1 2 3)))]; [(cadr '(1 2 3))] is [(CDR (CDR '(1 2 3)))]. *)
Theorem cadr_in_lower_case_is_cddr :
  Parser.parse "(cadr '(1 2 3))" = Ok [List false [Atom false "cadr"; quoted_123]]
  /\ execute false 6 (List false [Atom false "cadr"; quoted_123]) initial
     = Ok (List true [Atom true "3"], initial)
  /\ execute false 6
       (List false [Atom false "CDR"; List false [Atom false "CDR"; quoted_123]]) initial
     = Ok (List true [Atom true "3"], initial)
  /\ execute false 6 (List false [Atom false "CADR"; quoted_123]) initial
     = Ok (Atom true "2", initial)
  /\ execute false 6
       (List false [Atom false "CAR"; List false [Atom false "CDR"; quoted_123]]) initial
     = Ok (Atom true "2", initial).
Proof. repeat split; vm_compute; reflexivity. Qed.

(** C5 fails on the code at [NIL]: the empty list converts to the number 0,
    so every arithmetic native takes it as a number and returns a result
    ([EXP] gets as far as the host's power). *)
Theorem arithmetic_takes_nil_as_zero :
  fetch false 1 (Atom false "NIL") initial = Ok (List false [], initial)
  /\ Host.isNaN (Number_ (List false [])) = false
  /\ execute false 3 (List false [Atom false "ADD"; Atom false "NIL"; Atom false "1"]) initial
     = Ok (Atom false "1", initial)
  /\ execute false 3 (List false [Atom false "SUB"; Atom false "NIL"; Atom false "1"]) initial
     = Ok (Atom false "-1", initial)
  /\ execute false 3 (List false [Atom false "MULT"; Atom false "NIL"; Atom false "2"]) initial
     = Ok (Atom false "0", initial)
  /\ execute false 3 (List false [Atom false "DIV"; Atom false "NIL"; Atom false "2"]) initial
     = Ok (Atom false "0", initial)
  /\ execute false 3 (List false [Atom false "SQUARE"; Atom false "NIL"]) initial
     = Ok (Atom false "0", initial)
  /\ execute false 3 (List false [Atom false "EQ"; Atom false "NIL"; Atom false "0"]) initial
     = Ok (getTrue, initial)
  /\ execute false 3 (List false [Atom false "POS"; Atom false "NIL"]) initial
     = Ok (getTrue, initial)
  /\ execute false 3 (List false [Atom false "NEG"; Atom false "NIL"]) initial
     = Ok (getNil, initial)
  /\ execute false 3 (List false [Atom false "EXP"; Atom false "NIL"; Atom false "2"]) initial
     = Fail Unmodelled.
Proof. repeat split; vm_compute; reflexivity. Qed.

(** ** The shape of methods *)

Lemma method_free_ok (v : Value) : method_free v = true -> methods_ok v = true.
Proof.
  induction v as [e s|e vs IH|n p b _ _ _|fn] using Value_nested_ind;
    simpl; try (reflexivity || discriminate).
  induction IH as [|x r Hx _ IHr]; simpl; [reflexivity|].
  intros H. apply andb_true_iff in H as [H1 H2]. rewrite (Hx H1), (IHr H2). reflexivity.
Qed.

Lemma memory_ok_insert (key : string) (v : Value) (m : Memory) :
  methods_ok v = true -> memory_ok m -> memory_ok (<[key := v]> m).
Proof.
  intros Hv Hm k w. destruct (decide (key = k)) as [->|Hne].
  - rewrite lookup_insert_eq. intros H; inversion H; subst; exact Hv.
  - rewrite lookup_insert_ne by exact Hne. apply Hm.
Qed.

Lemma state_ok_set (key : string) (v : Value) (st : State) :
  methods_ok v = true -> state_ok st -> state_ok (set_memory key v st).
Proof. intros Hv Hst. apply memory_ok_insert; assumption. Qed.

Lemma state_ok_write (text : string) (st : State) : state_ok st -> state_ok (write text st).
Proof. intros H; exact H. Qed.

Lemma defineNative_all_ok (l : list (string * NativeFn)) (m : Memory) :
  memory_ok m ->
  memory_ok (fold_left (fun memory entry => defineNative (fst entry) (snd entry) memory) l m).
Proof.
  revert m; induction l as [|[n f] l IH]; intros m Hm; simpl; [exact Hm|].
  apply IH. apply memory_ok_insert; [reflexivity|exact Hm].
Qed.

Lemma initial_ok : state_ok initial.
Proof.
  change (memory_ok initial_memory). unfold initial_memory.
  apply defineNative_all_ok. intros k v Hk. rewrite lookup_empty in Hk. discriminate.
Qed.

Lemma all_ok_map_copy (vs : list Value) :
  forallb methods_ok (map copy vs) = forallb methods_ok vs.
Proof. rewrite map_copy_same. reflexivity. Qed.

Lemma all_ok_rev (vs : list Value) :
  forallb methods_ok vs = true -> forallb methods_ok (rev vs) = true.
Proof.
  rewrite !forallb_forall. intros H x Hx. apply H. apply in_rev. exact Hx.
Qed.

(** *** The natives keep the shape, if the evaluator they call does *)

Section NativesKeepShape.

Variable flagUseColor : bool.
Variable fetch : Value -> State -> Result.
Variable execute : Value -> State -> Result.
Variable toString : bool -> Value -> State -> Outcome (string * State).

Hypothesis fetch_keeps : keeps_shape fetch.
Hypothesis execute_keeps : keeps_shape execute.
Hypothesis toString_keeps :
  forall useColor p st text st',
    methods_ok p = true -> state_ok st -> toString useColor p st = Ok (text, st') ->
    state_ok st'.

Ltac bind_in H :=
  match type of H with
  | bind ?x _ = Ok _ =>
      let E := fresh "E" in
      destruct x as [[? ?]|?] eqn:E; simpl in H; [|discriminate H]
  end.

Tactic Notation "fetched" hyp(E) :=
  let Hv := fresh "Hv" in
  let Hs := fresh "Hs" in
  apply fetch_keeps in E as [Hv Hs]; [| assumption | assumption].

Lemma number_atom_ok (x : Num) (st : State) (r : Value) (st' : State) :
  state_ok st -> number_atom x st = Ok (r, st') -> methods_ok r = true /\ state_ok st'.
Proof.
  unfold number_atom. destruct (Host.String_ x); intros Hs H; inversion H; subst; auto.
Qed.

Lemma boolean_ok (b : option bool) (st : State) (r : Value) (st' : State) :
  state_ok st -> boolean b st = Ok (r, st') -> methods_ok r = true /\ state_ok st'.
Proof.
  unfold boolean. destruct b as [[]|]; intros Hs H; inversion H; subst; auto.
Qed.

Lemma ADD_loop_ok (parameters : list Value) (sum : Num) (st : State)
    (total : Num) (st' : State) :
  forallb methods_ok parameters = true -> state_ok st ->
  ADD_loop fetch parameters sum st = Ok (total, st') -> state_ok st'.
Proof.
  revert sum st; induction parameters as [|p rest IH]; intros sum st Hp Hs H; simpl in *.
  - inversion H; subst; exact Hs.
  - apply andb_true_iff in Hp as [Hp Hrest]. bind_in H. fetched E.
    destruct (Host.isNaN (Number_ v)); [discriminate|]. eapply IH; eassumption.
Qed.

Lemma MULT_loop_ok (parameters : list Value) (product : Num) (st : State)
    (total : Num) (st' : State) :
  forallb methods_ok parameters = true -> state_ok st ->
  MULT_loop fetch parameters product st = Ok (total, st') -> state_ok st'.
Proof.
  revert product st; induction parameters as [|p rest IH]; intros product st Hp Hs H;
    simpl in *.
  - inversion H; subst; exact Hs.
  - apply andb_true_iff in Hp as [Hp Hrest]. bind_in H. fetched E.
    destruct (Host.isNaN (Number_ v)); [discriminate|]. eapply IH; eassumption.
Qed.

Lemma PRINT_loop_ok (parameters : list Value) (st st' : State) :
  forallb methods_ok parameters = true -> state_ok st ->
  PRINT_loop flagUseColor toString parameters st = Ok st' -> state_ok st'.
Proof.
  revert st; induction parameters as [|p rest IH]; intros st Hp Hs H; simpl in *.
  - inversion H; subst; exact Hs.
  - apply andb_true_iff in Hp as [Hp Hrest]. bind_in H.
    apply toString_keeps in E; [|assumption|assumption].
    eapply IH; [exact Hrest| |exact H]. apply state_ok_write. exact E.
Qed.

Lemma map_toString_ok (useColor : bool) (elements : list Value) (st : State)
    (texts : list string) (st' : State) :
  forallb methods_ok elements = true -> state_ok st ->
  map_toString toString useColor elements st = Ok (texts, st') -> state_ok st'.
Proof.
  revert st texts; induction elements as [|p rest IH]; intros st texts Hp Hs H; simpl in *.
  - inversion H; subst; exact Hs.
  - apply andb_true_iff in Hp as [Hp Hrest]. bind_in H.
    apply toString_keeps in E; [|assumption|assumption].
    bind_in H. inversion H; subst. eapply IH; eassumption.
Qed.

Lemma call_native_ok (fn : NativeFn) (parameters : list Value) (st : State)
    (r : Value) (st' : State) :
  forallb methods_ok parameters = true -> state_ok st ->
  call_native flagUseColor fetch execute toString fn parameters st = Ok (r, st') ->
  methods_ok r = true /\ state_ok st'.
Proof.
  intros Hp Hs H. destruct fn; simpl in H.
  - (* ADD *)
    unfold ADD in H. destruct (length parameters <? 2)%nat; [discriminate|].
    bind_in H. apply ADD_loop_ok in E; [|assumption|assumption].
    eapply number_atom_ok; eassumption.
  - (* ATOM *)
    unfold ATOM in H. destruct parameters as [|p0 [|? ?]]; try discriminate.
    simpl in Hp. rewrite andb_true_r in Hp. bind_in H. fetched E.
    inversion H; subst. split; [|assumption].
    destruct (_ || _); reflexivity.
  - (* CAR *)
    unfold CAR in H. destruct parameters as [|p0 [|? ?]]; try discriminate.
    simpl in Hp. rewrite andb_true_r in Hp. bind_in H. fetched E.
    destruct v as [| e [|first rest] | |]; try discriminate.
    inversion H; subst. rewrite copy_same. simpl in Hv.
    apply andb_true_iff in Hv as [Hv _]. auto.
  - (* CDR *)
    unfold CDR in H. destruct parameters as [|p0 [|? ?]]; try discriminate.
    simpl in Hp. rewrite andb_true_r in Hp. bind_in H. fetched E.
    destruct v as [| e [|first rest] | |]; try discriminate.
    inversion H; subst. simpl in Hv. apply andb_true_iff in Hv as [_ Hv].
    simpl. rewrite all_ok_map_copy. auto.
  - (* CONS *)
    unfold CONS in H. destruct parameters as [|p0 [|p1 [|? ?]]]; try discriminate.
    simpl in Hp. rewrite andb_true_r in Hp. apply andb_true_iff in Hp as [Hp0 Hp1].
    bind_in H. fetched E. bind_in H. fetched E.
    destruct v0 as [| e value | |]; try discriminate.
    inversion H; subst. split; [|assumption].
    change (forallb methods_ok (map copy (v :: value)) = true).
    rewrite all_ok_map_copy. simpl. rewrite Hv. exact Hv0.
  - (* DEF *)
    unfold DEF in H. destruct parameters as [|n [|p [|b [|? ?]]]]; try discriminate.
    simpl in Hp. rewrite andb_true_r in Hp.
    apply andb_true_iff in Hp as [Hn Hp]. apply andb_true_iff in Hp as [Hp Hb].
    destruct n as [[] name| | |]; try discriminate.
    destruct (legal_parameters p) eqn:Hlegal; simpl in H; [|discriminate].
    destruct b as [| [] body | |]; try discriminate.
    inversion H; subst.
    assert (Hm : methods_ok (Method (Atom false name) p (List false body)) = true).
    { simpl. rewrite Hlegal, Hp. exact Hb. }
    split; [exact Hm|]. apply state_ok_set; assumption.
  - (* EQ *)
    unfold EQ in H. destruct parameters as [|p0 [|p1 [|? ?]]]; try discriminate.
    simpl in Hp. rewrite andb_true_r in Hp. apply andb_true_iff in Hp as [Hp0 Hp1].
    bind_in H. fetched E. bind_in H. fetched E.
    destruct (Host.isNaN (Number_ v)); [discriminate|].
    destruct (Host.isNaN (Number_ v0)); [discriminate|].
    eapply boolean_ok; eassumption.
  - (* EVAL *)
    unfold EVAL in H. destruct parameters as [|p0 [|? ?]]; try discriminate.
    simpl in Hp. rewrite andb_true_r in Hp. bind_in H. fetched E.
    destruct v as [ae atext| le value |mn mp mb|nf].
    + inversion H; subst; auto.
    + apply execute_keeps in H; [exact H| |assumption].
      simpl. rewrite all_ok_map_copy. exact Hv.
    + inversion H; subst; auto.
    + inversion H; subst; auto.
  - (* EXP *)
    unfold EXP in H. destruct parameters as [|p0 [|p1 [|? ?]]]; try discriminate.
    simpl in Hp. rewrite andb_true_r in Hp. apply andb_true_iff in Hp as [Hp0 Hp1].
    bind_in H. fetched E. bind_in H. fetched E.
    destruct (Host.isNaN (Number_ v)); [discriminate|].
    destruct (Host.isNaN (Number_ v0)); [discriminate|].
    eapply number_atom_ok; eassumption.
  - (* DIV *)
    unfold DIV in H. destruct parameters as [|p0 [|p1 [|? ?]]]; try discriminate.
    simpl in Hp. rewrite andb_true_r in Hp. apply andb_true_iff in Hp as [Hp0 Hp1].
    bind_in H. fetched E. bind_in H. fetched E.
    destruct (Host.isNaN (Number_ v)); [discriminate|].
    destruct (Host.isNaN (Number_ v0)); [discriminate|].
    eapply number_atom_ok; eassumption.
  - (* MULT *)
    unfold MULT in H. destruct (length parameters <? 2)%nat; [discriminate|].
    bind_in H. apply MULT_loop_ok in E; [|assumption|assumption].
    eapply number_atom_ok; eassumption.
  - (* NEG *)
    unfold NEG in H. destruct parameters as [|p0 [|? ?]]; try discriminate.
    simpl in Hp. rewrite andb_true_r in Hp. bind_in H. fetched E.
    destruct (Host.isNaN (Number_ v)); [discriminate|].
    eapply boolean_ok; eassumption.
  - (* POS *)
    unfold POS in H. destruct parameters as [|p0 [|? ?]]; try discriminate.
    simpl in Hp. rewrite andb_true_r in Hp. bind_in H. fetched E.
    destruct (Host.isNaN (Number_ v)); [discriminate|].
    eapply boolean_ok; eassumption.
  - (* PRINT *)
    unfold PRINT in H.
    destruct (PRINT_loop flagUseColor toString parameters st) as [st1|] eqn:E;
      simpl in H; [|discriminate].
    apply PRINT_loop_ok in E; [|assumption|assumption].
    inversion H; subst. split; [reflexivity|]. apply state_ok_write. exact E.
  - (* REVERSE *)
    unfold REVERSE in H. destruct parameters as [|p0 [|? ?]]; try discriminate.
    simpl in Hp. rewrite andb_true_r in Hp. bind_in H. fetched E.
    destruct v as [| e value | |]; try discriminate.
    inversion H; subst. split; [|assumption].
    simpl. apply all_ok_rev. rewrite all_ok_map_copy. exact Hv.
  - (* SUB *)
    unfold SUB in H. destruct parameters as [|p0 [|p1 [|? ?]]]; try discriminate.
    simpl in Hp. rewrite andb_true_r in Hp. apply andb_true_iff in Hp as [Hp0 Hp1].
    bind_in H. fetched E. bind_in H. fetched E.
    destruct (Host.isNaN (Number_ v)); [discriminate|].
    destruct (Host.isNaN (Number_ v0)); [discriminate|].
    eapply number_atom_ok; eassumption.
  - (* SQUARE *)
    unfold SQUARE in H. destruct parameters as [|p0 [|? ?]]; try discriminate.
    simpl in Hp. rewrite andb_true_r in Hp. bind_in H. fetched E.
    destruct (Host.isNaN (Number_ v)); [discriminate|].
    eapply number_atom_ok; eassumption.
  - (* SET *)
    unfold SET in H. destruct parameters as [|p0 [|p1 [|? ?]]]; try discriminate.
    simpl in Hp. rewrite andb_true_r in Hp. apply andb_true_iff in Hp as [Hp0 Hp1].
    bind_in H. fetched E. bind_in H. fetched E.
    destruct v as [[] name| | |]; try discriminate.
    destruct (_ || _); [discriminate|]. inversion H; subst.
    split; [assumption|]. apply state_ok_set; assumption.
  - (* SETQ *)
    unfold SETQ in H. destruct parameters as [|p0 [|p1 [|? ?]]]; try discriminate.
    simpl in Hp. rewrite andb_true_r in Hp. apply andb_true_iff in Hp as [Hp0 Hp1].
    bind_in H. fetched E.
    destruct p0 as [[] name| | |]; try discriminate.
    destruct (_ || _); [discriminate|]. inversion H; subst.
    split; [assumption|]. apply state_ok_set; assumption.
Qed.

Lemma cxr_loop_ok (CAR_ CDR_ : Value) (methodName : string) (i : nat)
    (result : list Value) (st : State) (result' : list Value) (st' : State) :
  forallb methods_ok result = true -> state_ok st ->
  cxr_loop flagUseColor fetch execute toString CAR_ CDR_ methodName i result st
    = Ok (result', st') ->
  forallb methods_ok result' = true /\ state_ok st'.
Proof.
  revert result st; induction i as [|j IH]; intros result st Hr Hs H; simpl in H.
  - inversion H; subst; auto.
  - bind_in H.
    assert (Hcall : methods_ok v = true /\ state_ok s).
    { match type of E with
      | call_value _ _ _ _ ?callee _ _ = _ => destruct callee as [| | |fn]
      end; try discriminate.
      simpl in E. eapply call_native_ok; eassumption. }
    destruct Hcall as [Hv Hs'].
    apply IH in H; [exact H| |exact Hs']. simpl. rewrite Hv. reflexivity.
Qed.

End NativesKeepShape.

(** *** The evaluator keeps the shape *)

Section EvaluatorKeepsShape.

Variable flagUseColor : bool.

Lemma fetch_other (fuel : nat) (p : Value) (st : State) :
  match p with Method _ _ _ | Native _ => True | _ => False end ->
  fetch flagUseColor (S fuel) p st = Ok (p, st).
Proof. destruct p; intros H; try contradiction; reflexivity. Qed.

Lemma execute_list (fuel : nat) (escaped : bool) (value : list Value) (st : State) :
  execute flagUseColor (S fuel) (List escaped value) st =
    if escaped || Nat.eqb (length value) 0 then Ok (List escaped value, st)
    else
      match value with
      | List _ _ :: _ => throw "A function call cannot be a list."
      | Atom e methodName :: arguments =>
          execute flagUseColor (S fuel) (List false (Atom e methodName :: arguments)) st
      | _ :: _ => Fail TypeError
      | [] => Ok (List escaped value, st)
      end.
Proof. destruct escaped; [reflexivity|]. destruct value as [|[] ?]; reflexivity. Qed.

Lemma execute_not_list (fuel : nat) (v : Value) (st : State) :
  match v with List _ _ => False | _ => True end ->
  execute flagUseColor (S fuel) v st = Fail Unmodelled.
Proof. destruct v; intros H; try contradiction; reflexivity. Qed.

Lemma toString_unfold (fuel : nat) (useColor : bool) (parameter : Value) (st : State) :
  toString flagUseColor (S fuel) useColor parameter st =
    let* (value, st1) := fetch flagUseColor fuel parameter st in
    match value with
    | Atom _ text =>
        if useColor then
          if isTrue value || negb (Host.isNaN (Host.Number_text text))
          then Ok (colour "93" text, st1)
          else if isNil value then Ok (colour "90" text, st1)
          else Ok (colour "32" text, st1)
        else Ok (text, st1)
    | List escaped elements =>
        if Nat.eqb (length elements) 0
        then Ok (if useColor then colour "90" "NIL" else "NIL", st1)
        else if escaped then
          let* (texts, st2) :=
            map_toString (toString flagUseColor fuel) useColor elements st1 in
          Ok ("( " +:+ String.concat " " texts +:+ " )", st2)
        else
          let* (r, st2) := execute flagUseColor fuel value st1 in
          toString flagUseColor fuel false r st2
    | Method (Atom _ name) _ _ =>
        Ok (if useColor then colour "96" ("<Function: " +:+ name +:+ ">")
            else "<Function: " +:+ name +:+ ">", st1)
    | Method _ _ _ => Fail Unmodelled
    | Native fn =>
        Ok (if useColor then colour "96" ("<Native: " +:+ native_name fn +:+ ">")
            else "<Native: " +:+ native_name fn +:+ ">", st1)
    end.
Proof. reflexivity. Qed.

Ltac bind_in H :=
  match type of H with
  | bind ?x _ = Ok _ =>
      let E := fresh "E" in
      destruct x as [[? ?]|?] eqn:E; simpl in H; [|discriminate H]
  end.

Lemma fetch_step (fuel : nat) :
  shape_kept flagUseColor fuel -> keeps_shape (fetch flagUseColor (S fuel)).
Proof.
  intros (IHf & IHe & IHt) p st r st' Hp Hs H.
  destruct p as [e s|e value|n ps b|fn].
  - rewrite fetch_atom in H.
    destruct (_ && _).
    + destruct (memory st !! Text.toUpperCase s) as [variable|] eqn:Hm; [|discriminate].
      inversion H; subst. split; [exact (Hs _ _ Hm)|exact Hs].
    + destruct (String.eqb _ _); inversion H; subst; auto.
  - rewrite fetch_list in H.
    destruct (_ && _); [|inversion H; subst; auto].
    bind_in H. apply IHe in E as [Hv Hs1]; [|assumption|assumption].
    eapply IHf; eassumption.
  - rewrite fetch_other in H by exact I. inversion H; subst; auto.
  - rewrite fetch_other in H by exact I. inversion H; subst; auto.
Qed.

Lemma execute_step (fuel : nat) :
  shape_kept flagUseColor fuel -> keeps_shape (execute flagUseColor (S fuel)).
Proof.
  intros (IHf & IHe & IHt) l st r st' Hl Hs H.
  destruct l as [e s|e value|n ps b|fn];
    try (rewrite execute_not_list in H by exact I; discriminate).
  rewrite execute_list in H.
  destruct (e || _); [inversion H; subst; auto|].
  destruct value as [|[he methodName|he hv|hn hp hb|hf] arguments];
    try discriminate; [inversion H; subst; auto|].
  simpl in Hl. rewrite execute_call in H.
  destruct (memory st !! Text.toUpperCase methodName) as [[| |mn params body|fn]|] eqn:Hm;
    try discriminate.
  - (* a method *)
    pose proof (Hs _ _ Hm) as Hmethod. simpl in Hmethod.
    apply andb_true_iff in Hmethod as [Hmethod Hbody].
    destruct arguments as [|argument rest]; [discriminate|].
    destruct params as [| pe [|[ae formal| | |] ps] | |]; try discriminate.
    simpl in Hl. apply andb_true_iff in Hl as [Harg _].
    bind_in H. apply IHf in E as [Hactual Hs1]; [|assumption|assumption].
    bind_in H. inversion H; subst. apply IHe in E as [Hr _]; [auto|exact Hbody|].
    apply memory_ok_insert; assumption.
  - (* a native *)
    unfold native in H.
    exact (call_native_ok flagUseColor _ _ _ IHf IHe IHt fn arguments st r st' Hl Hs H).
  - (* the cadr family *)
    destruct (is_cxr _); [|discriminate].
    destruct (memory st !! "CAR") as [CAR_|]; [|discriminate].
    destruct (memory st !! "CDR") as [CDR_|]; [|discriminate].
    bind_in H.
    apply (cxr_loop_ok flagUseColor _ _ _ IHf IHe IHt) in E as [Hres Hs1];
      [|assumption|assumption].
    destruct l as [|r0 l]; [discriminate|]. inversion H; subst.
    simpl in Hres. apply andb_true_iff in Hres as [Hr _]. auto.
Qed.

Lemma toString_step (fuel : nat) :
  shape_kept flagUseColor fuel ->
  forall useColor p st text st',
    methods_ok p = true -> state_ok st ->
    toString flagUseColor (S fuel) useColor p st = Ok (text, st') -> state_ok st'.
Proof.
  intros (IHf & IHe & IHt) useColor p st text st' Hp Hs H.
  rewrite toString_unfold in H. bind_in H.
  apply IHf in E as [Hv Hs1]; [|assumption|assumption].
  destruct v as [ae atext|le elements|mn mp mb|nf].
  - destruct useColor; [destruct (_ || _); [|destruct (isNil _)]|];
      inversion H; subst; exact Hs1.
  - destruct (Nat.eqb _ _); [inversion H; subst; exact Hs1|].
    destruct le.
    + bind_in H. inversion H; subst.
      apply (map_toString_ok _ IHt) in E; assumption.
    + bind_in H. apply IHe in E as [Hr Hs2]; [|assumption|assumption].
      eapply IHt; eassumption.
  - destruct mn; try discriminate. inversion H; subst; exact Hs1.
  - inversion H; subst; exact Hs1.
Qed.

Lemma evaluator_keeps_shape (fuel : nat) : shape_kept flagUseColor fuel.
Proof.
  induction fuel as [|fuel IH].
  - split; [|split]; intros; discriminate.
  - split; [|split].
    + apply fetch_step; exact IH.
    + apply execute_step; exact IH.
    + apply toString_step; exact IH.
Qed.

Lemma run_keeps_shape (fuel : nat) (statements : list Value) (st st' : State) :
  forallb methods_ok statements = true -> state_ok st ->
  run flagUseColor fuel statements st = Ok st' -> state_ok st'.
Proof.
  revert st; induction statements as [|s rest IH]; intros st Hp Hs H; simpl in *.
  - inversion H; subst; exact Hs.
  - apply andb_true_iff in Hp as [Hp Hrest]. bind_in H.
    apply (proj1 (proj2 (evaluator_keeps_shape fuel))) in E as [_ Hs1];
      [|assumption|assumption].
    eapply IH; eassumption.
Qed.

End EvaluatorKeepsShape.

(** *** What the parser builds holds no method *)

Module ParserShape.
Import Parser ParserTerms ParserShapeTerms ParserFacts.

Lemma push_atom_free (a : option (bool * string)) (vs : list Value) :
  forallb method_free vs = true -> forallb method_free (push_atom a vs) = true.
Proof.
  intros H. destruct a as [[e s]|]; simpl; [|exact H].
  rewrite forallb_app, H. reflexivity.
Qed.

Lemma push_value_free (v : Value) (vs : list Value) :
  forallb method_free vs = true -> method_free v = true ->
  forallb method_free (vs ++ [v]) = true.
Proof. intros H Hv. rewrite forallb_app, H. simpl. rewrite Hv. reflexivity. Qed.

Lemma all_free_step (c : ascii) (st st' : PState) :
  all_free st -> step c st = Ok st' -> all_free st'.
Proof.
  intros [Hopen Hstmts].
  destruct (step_cases c) as [-> | [-> | [-> | [-> | Hc]]]].
  - unfold step; simpl. destruct (atom st); intros H; inversion H; subst.
    split; assumption.
  - unfold step; simpl.
    destruct (open st) as [|parent rest] eqn:Eo; intros H; inversion H; subst; clear H.
    + split; simpl; [|exact Hstmts]. constructor; [reflexivity|constructor].
    + inversion Hopen as [|? ? Hp Hrest]; subst.
      split; simpl; [|exact Hstmts].
      constructor; [reflexivity|]. constructor; [|exact Hrest].
      apply push_atom_free. exact Hp.
  - unfold step; simpl.
    destruct (open st) as [|l rest] eqn:Eo; [discriminate|].
    inversion Hopen as [|? ? Hl Hrest]; subst.
    assert (Hclosed : method_free (List (o_escaped l) (push_atom (atom st) (o_value l))) = true).
    { simpl. apply push_atom_free. exact Hl. }
    destruct rest as [|parent rest']; intros H; inversion H; subst; clear H.
    + split; simpl; [constructor|]. apply push_value_free; assumption.
    + inversion Hrest as [|? ? Hp Hrest']; subst.
      split; simpl; [|exact Hstmts]. constructor; [|exact Hrest'].
      apply push_value_free; assumption.
  - unfold step; simpl.
    destruct (atom st) as [[e s]|] eqn:Ea.
    + destruct (open st) as [|l rest] eqn:Eo; [discriminate|].
      intros H; inversion H; subst; clear H.
      inversion Hopen as [|? ? Hl Hrest]; subst.
      split; simpl; [|exact Hstmts]. constructor; [|exact Hrest].
      apply push_value_free; [exact Hl|reflexivity].
    + intros H; inversion H; subst. split; assumption.
  - rewrite (step_ordinary c st Hc).
    destruct (atom st) as [[e s]|] eqn:Ea.
    + intros H; inversion H; subst; clear H. split; assumption.
    + destruct (open st) as [|l rest] eqn:Eo; [discriminate|].
      intros H; inversion H; subst; clear H. split; simpl; assumption.
Qed.

Lemma all_free_steps (program : string) (st st' : PState) :
  all_free st -> steps program st = Ok st' -> all_free st'.
Proof.
  revert st; induction program as [|c program IH]; intros st Hst; simpl.
  - intros H; inversion H; subst; exact Hst.
  - destruct (step c st) as [st1|f] eqn:E; simpl; [|discriminate].
    apply IH. exact (all_free_step c st st1 Hst E).
Qed.

Lemma parse_method_free (program : string) (stmts : list Value) :
  parse program = Ok stmts -> forallb method_free stmts = true.
Proof.
  intros H. destruct (parse_statements program stmts H) as (st & Hsteps & <-).
  apply (all_free_steps program start st); [|exact Hsteps].
  split; [constructor|reflexivity].
Qed.

Lemma parse_methods_ok (program : string) (stmts : list Value) :
  parse program = Ok stmts -> forallb methods_ok stmts = true.
Proof.
  intros H. apply parse_method_free in H.
  rewrite forallb_forall in *. intros v Hv. apply method_free_ok. apply H. exact Hv.
Qed.

End ParserShape.

Lemma legal_parameters_shape (p : Value) :
  legal_parameters p = true -> exists e formal, p = List false [Atom e formal].
Proof.
  destruct p as [|[] [|[e formal| | |] [|? ?]]| |]; simpl; try discriminate. eauto.
Qed.

(** C4, as the code has it: [DEF] returns a method only for a parameter
    list that is an unquoted list of exactly one atom, whatever the atom's
    text and quote flag, and fails for every other one; from then on every
    method, in the memory of any state a program reaches and in any value a
    call returns, has such a parameter list. *)
Theorem methods_have_one_atom_parameter :
  (forall parameters st r st',
      DEF parameters st = Ok (r, st') ->
      exists name e formal body,
        parameters = [name; List false [Atom e formal]; body]
        /\ r = Method name (List false [Atom e formal]) body)
  /\ (forall name params body st,
      (forall e formal, params <> List false [Atom e formal]) ->
      DEF [name; params; body] st = throw "DEF: Illegal function name."
      \/ DEF [name; params; body] st = throw "DEF: Illegal function arguments.")
  /\ (forall flagUseColor fuel program stmts st',
      Parser.parse program = Ok stmts ->
      run flagUseColor fuel stmts initial = Ok st' ->
      forall key name params body,
        memory st' !! key = Some (Method name params body) ->
        exists e formal, params = List false [Atom e formal])
  /\ (forall flagUseColor fuel call st r st',
      methods_ok call = true -> state_ok st ->
      execute flagUseColor fuel call st = Ok (r, st') ->
      methods_ok r = true /\ state_ok st').
Proof.
  split; [|split; [|split]].
  - intros parameters st r st' H. unfold DEF in H.
    destruct parameters as [|name [|params [|body [|? ?]]]]; try discriminate.
    destruct name as [[] text| | |]; try discriminate.
    destruct (legal_parameters params) eqn:Hlegal; simpl in H; [|discriminate].
    destruct body as [|[] ?| |]; try discriminate.
    destruct (legal_parameters_shape params Hlegal) as (e & formal & ->).
    inversion H; subst. eauto 6.
  - intros name params body st Hnot.
    destruct (legal_parameters params) eqn:Hlegal.
    + destruct (legal_parameters_shape params Hlegal) as (e & formal & ->).
      destruct (Hnot e formal). reflexivity.
    + unfold DEF. rewrite Hlegal. simpl. destruct name as [[] ?| | |]; auto.
  - intros flagUseColor fuel program stmts st' Hparse Hrun key name params body Hm.
    assert (Hs : state_ok st').
    { eapply run_keeps_shape; [|exact initial_ok|exact Hrun].
      apply ParserShape.parse_methods_ok with program. exact Hparse. }
    pose proof (Hs _ _ Hm) as Hok. simpl in Hok.
    apply andb_true_iff in Hok as [Hok _]. apply andb_true_iff in Hok as [Hok _].
    apply andb_true_iff in Hok as [Hok _]. apply legal_parameters_shape. exact Hok.
  - intros flagUseColor fuel.
    exact (proj1 (proj2 (evaluator_keeps_shape flagUseColor fuel))).
Qed.

Lemma methods_have_one_atom_parameter_witness :
  exists e formal, List false [Atom false "N"] = List false [Atom e formal].
Proof.
  refine (proj1 (proj2 (proj2 methods_have_one_atom_parameter)) false 3
            "(DEF F (N) (SETQ X N))"
            [List false [Atom false "DEF"; Atom false "F"; List false [Atom false "N"];
                         List false [Atom false "SETQ"; Atom false "X"; Atom false "N"]]]
            with_F _ _ "F" (Atom false "F") (List false [Atom false "N"])
            (List false [Atom false "SETQ"; Atom false "X"; Atom false "N"]) _);
    vm_compute; reflexivity.
Defined.

(** C4 as stated fails: [DEF] takes a number, a reserved word or a quoted
    atom as the parameter, and the method is built and bound. *)
Lemma method_parameter_unchecked :
  Parser.parse "(DEF F (5) (ADD 1 2))"
  = Ok [List false [Atom false "DEF"; Atom false "F"; List false [Atom false "5"];
                    List false [Atom false "ADD"; Atom false "1"; Atom false "2"]]]
  /\ Text.numeric_literal "5" = true
  /\ execute false 3
       (List false [Atom false "DEF"; Atom false "F"; List false [Atom false "5"];
                    List false [Atom false "ADD"; Atom false "1"; Atom false "2"]]) initial
     = Ok (Method (Atom false "F") (List false [Atom false "5"])
             (List false [Atom false "ADD"; Atom false "1"; Atom false "2"]),
           set_memory "F"
             (Method (Atom false "F") (List false [Atom false "5"])
                (List false [Atom false "ADD"; Atom false "1"; Atom false "2"])) initial)
  /\ (exists st,
       execute false 3
         (List false [Atom false "DEF"; Atom false "G"; List false [Atom false "NIL"];
                      List false []]) initial
       = Ok (Method (Atom false "G") (List false [Atom false "NIL"]) (List false []), st))
  /\ (exists st,
       execute false 3
         (List false [Atom false "DEF"; Atom false "H"; List false [Atom true "X"];
                      List false []]) initial
       = Ok (Method (Atom false "H") (List false [Atom true "X"]) (List false []), st)).
Proof.
  split; [reflexivity|]. split; [reflexivity|]. split; [vm_compute; reflexivity|].
  split; eexists; vm_compute; reflexivity.
Qed.

(** * Further properties *)

(** ** The parser: parentheses, atoms, spaces, concatenation *)

Module ParserMore.
Import Parser ParserTerms ParserMoreTerms ParserFacts.

Lemma special_false (c : ascii) :
  special c = false ->
  Ascii.eqb c "'" = false /\ Ascii.eqb c "(" = false
  /\ Ascii.eqb c ")" = false /\ Ascii.eqb c " " = false.
Proof.
  unfold special. intros H.
  destruct (Ascii.eqb c "'"), (Ascii.eqb c "("), (Ascii.eqb c ")"), (Ascii.eqb c " ");
    try discriminate; auto.
Qed.

(** One step moves the depth by the parenthesis it reads. *)
Lemma step_depth (c : ascii) (st st' : PState) :
  step c st = Ok st' ->
  (length (open st') + (if Ascii.eqb c ")" then 1 else 0)
   = length (open st) + (if Ascii.eqb c "(" then 1 else 0))%nat.
Proof.
  destruct (step_cases c) as [-> | [-> | [-> | [-> | Hc]]]].
  - unfold step; simpl. destruct (atom st); intros H; inversion H; subst. simpl. lia.
  - unfold step; simpl. destruct (open st); intros H; inversion H; subst; simpl; lia.
  - unfold step; simpl. destruct (open st) as [|l [|parent rest]];
      intros H; inversion H; subst; simpl; lia.
  - unfold step; simpl. destruct (atom st) as [[e s]|]; [destruct (open st)|];
      intros H; inversion H; subst; simpl; lia.
  - rewrite (step_ordinary c st Hc).
    destruct (special_false c Hc) as (_ & -> & -> & _).
    destruct (atom st) as [[e s]|]; [|destruct (open st)];
      intros H; inversion H; subst; simpl; lia.
Qed.

Lemma steps_depth (program : string) (st st' : PState) :
  steps program st = Ok st' ->
  (length (open st') + count ")" program = length (open st) + count "(" program)%nat.
Proof.
  revert st; induction program as [|c program IH]; intros st; simpl.
  - intros H; inversion H; subst. lia.
  - destruct (step c st) as [st1|f] eqn:E; simpl; [|discriminate].
    intros H. apply IH in H. apply step_depth in E. lia.
Qed.

Lemma steps_prefix (p q : string) (st st' : PState) :
  steps (p +:+ q) st = Ok st' -> exists st1, steps p st = Ok st1.
Proof.
  rewrite steps_app. destruct (steps p st) as [st1|f]; simpl; [eauto|discriminate].
Qed.

Lemma parse_steps (program : string) (stmts : list Value) :
  parse program = Ok stmts ->
  exists st, steps program start = Ok st /\ open st = [] /\ statements st = stmts.
Proof.
  unfold parse. destruct (steps program start) as [st|f]; simpl; [|discriminate].
  destruct (open st) eqn:E; [|discriminate]. intros H; inversion H; eauto.
Qed.

(** X1: a program that parses has as many closing as opening parentheses,
    and no part of it from the start has more closing than opening ones. *)
Theorem parsed_program_is_balanced (program : string) (stmts : list Value) :
  parse program = Ok stmts ->
  count "(" program = count ")" program
  /\ (forall p q, program = p +:+ q -> (count ")" p <= count "(" p)%nat).
Proof.
  intros H. destruct (parse_steps program stmts H) as (st & Hsteps & Hopen & _).
  split.
  - apply steps_depth in Hsteps. rewrite Hopen in Hsteps. simpl in Hsteps. lia.
  - intros p q ->. destruct (steps_prefix p q start st Hsteps) as [st1 H1].
    apply steps_depth in H1. simpl in H1. lia.
Qed.

Lemma parsed_program_is_balanced_witness :
  count "(" "(a (b) 'c)" = count ")" "(a (b) 'c)"
  /\ (forall p q, "(a (b) 'c)" = p +:+ q -> (count ")" p <= count "(" p)%nat).
Proof.
  exact (parsed_program_is_balanced "(a (b) 'c)"
           [List false [Atom false "a"; List false [Atom false "b"]; Atom true "c"]]
           eq_refl).
Defined.

Lemma all_chars_app (p : ascii -> bool) (s t : string) :
  Text.all_chars p (s +:+ t) = Text.all_chars p s && Text.all_chars p t.
Proof.
  induction s as [|c s IH]; simpl; [reflexivity|]. rewrite IH, andb_assoc. reflexivity.
Qed.

Lemma plain_one (c : ascii) : special c = false -> plain (String c EmptyString) = true.
Proof. intros H. unfold plain; simpl. rewrite H. reflexivity. Qed.

Lemma plain_snoc (s : string) (c : ascii) :
  plain s = true -> special c = false -> plain (s +:+ String c EmptyString) = true.
Proof.
  unfold plain. intros H Hc. apply andb_true_iff in H as [Hn Ha].
  rewrite all_chars_app, Ha. simpl. rewrite Hc.
  destruct s; [discriminate|reflexivity].
Qed.

Lemma push_atom_tidy (a : option (bool * string)) (vs : list Value) :
  forallb well_formed vs = true ->
  match a with Some (_, s) => plain s = true | None => True end ->
  forallb well_formed (push_atom a vs) = true.
Proof.
  intros H Ha. destruct a as [[e s]|]; simpl; [|exact H].
  rewrite forallb_app, H. simpl. rewrite Ha. reflexivity.
Qed.

Lemma push_value_tidy (v : Value) (vs : list Value) :
  forallb well_formed vs = true -> well_formed v = true ->
  forallb well_formed (vs ++ [v]) = true.
Proof. intros H Hv. rewrite forallb_app, H. simpl. rewrite Hv. reflexivity. Qed.

Lemma tidy_step (c : ascii) (st st' : PState) :
  tidy st -> step c st = Ok st' -> tidy st'.
Proof.
  intros (Hopen & Hstmts & Hatom). unfold atom_plain in Hatom.
  destruct (step_cases c) as [-> | [-> | [-> | [-> | Hc]]]].
  - unfold step; simpl. destruct (atom st); intros H; inversion H; subst.
    split; [|split]; simpl; [exact Hopen|exact Hstmts|exact I].
  - unfold step; simpl.
    destruct (open st) as [|parent rest] eqn:Eo; intros H; inversion H; subst; clear H.
    + split; [|split]; simpl; [|exact Hstmts|exact Hatom].
      constructor; [reflexivity|constructor].
    + inversion Hopen as [|? ? Hp Hrest]; subst.
      split; [|split]; simpl; [|exact Hstmts|exact I].
      constructor; [reflexivity|]. constructor; [|exact Hrest].
      simpl. apply push_atom_tidy; assumption.
  - unfold step; simpl.
    destruct (open st) as [|l rest] eqn:Eo; [discriminate|].
    inversion Hopen as [|? ? Hl Hrest]; subst.
    assert (Hclosed : well_formed (List (o_escaped l) (push_atom (atom st) (o_value l))) = true).
    { simpl. apply push_atom_tidy; assumption. }
    destruct rest as [|parent rest']; intros H; inversion H; subst; clear H.
    + split; [|split]; simpl; [constructor| |exact I].
      apply Forall_app; split; [exact Hstmts|]. constructor; [|constructor].
      split; [reflexivity|exact Hclosed].
    + inversion Hrest as [|? ? Hp Hrest']; subst.
      split; [|split]; simpl; [|exact Hstmts|exact I].
      constructor; [|exact Hrest']. simpl. apply push_value_tidy; assumption.
  - unfold step; simpl.
    destruct (atom st) as [[e s]|] eqn:Ea.
    + destruct (open st) as [|l rest] eqn:Eo; [discriminate|].
      intros H; inversion H; subst; clear H.
      inversion Hopen as [|? ? Hl Hrest]; subst.
      split; [|split]; simpl; [|exact Hstmts|exact I].
      constructor; [|exact Hrest]. simpl. apply push_value_tidy; assumption.
    + intros H; inversion H; subst. split; [|split]; [exact Hopen|exact Hstmts|].
      unfold atom_plain. rewrite Ea. exact I.
  - rewrite (step_ordinary c st Hc).
    destruct (atom st) as [[e s]|] eqn:Ea.
    + intros H; inversion H; subst; clear H.
      split; [|split]; simpl; [exact Hopen|exact Hstmts|].
      unfold atom_plain; simpl. apply plain_snoc; assumption.
    + destruct (open st) as [|l rest] eqn:Eo; [discriminate|].
      intros H; inversion H; subst; clear H.
      split; [|split]; simpl; [exact Hopen|exact Hstmts|].
      unfold atom_plain; simpl. apply plain_one. exact Hc.
Qed.

Lemma tidy_steps (program : string) (st st' : PState) :
  tidy st -> steps program st = Ok st' -> tidy st'.
Proof.
  revert st; induction program as [|c program IH]; intros st Hst; simpl.
  - intros H; inversion H; subst; exact Hst.
  - destruct (step c st) as [st1|f] eqn:E; simpl; [|discriminate].
    apply IH. exact (tidy_step c st st1 Hst E).
Qed.

(** X2: every statement the parser returns is a list, and below it there are
    only lists and atoms whose text is not empty and holds no space,
    parenthesis or apostrophe. *)
Theorem parsed_statements_are_well_formed (program : string) (stmts : list Value) :
  parse program = Ok stmts ->
  Forall (fun v => is_list v = true /\ well_formed v = true) stmts.
Proof.
  intros H. destruct (parse_steps program stmts H) as (st & Hsteps & _ & <-).
  apply (tidy_steps program start st); [|exact Hsteps].
  split; [constructor|split; [constructor|exact I]].
Qed.

Lemma parsed_statements_are_well_formed_witness :
  Forall (fun v => is_list v = true /\ well_formed v = true)
    [List false [Atom false "a"; List false [Atom false "b"]; Atom true "c"]].
Proof.
  exact (parsed_statements_are_well_formed "(a (b) 'c)"
           [List false [Atom false "a"; List false [Atom false "b"]; Atom true "c"]]
           eq_refl).
Defined.

Lemma step_space_again (st st' : PState) :
  step " " st = Ok st' -> step " " st' = Ok st'.
Proof.
  unfold step; simpl.
  destruct (atom st) as [[e s]|] eqn:Ea; [destruct (open st) as [|l rest]|];
    intros H; inversion H; subst; simpl; [reflexivity|]. rewrite Ea. reflexivity.
Qed.

Lemma atom_needs_open (program : string) (st : PState) :
  steps program start = Ok st -> open st = [] -> atom st = None.
Proof.
  intros H Ho. pose proof (invariant_steps program start st invariant_start H) as (_ & _ & Ha).
  unfold atom_ok in Ha. rewrite Ho in Ha. destruct (atom st) as [[e s]|]; [contradiction|reflexivity].
Qed.

(** X3: a space in front of a program, a space behind it, and a second space
    next to one inside it change nothing in what the parser returns, failure
    included. *)
Theorem spaces_do_not_matter (p q : string) :
  parse (String " " p) = parse p
  /\ parse (p +:+ " ") = parse p
  /\ parse (p +:+ String " " (String " " q)) = parse (p +:+ String " " q).
Proof.
  split; [reflexivity|]. split.
  - unfold parse. rewrite steps_app.
    destruct (steps p start) as [st|f] eqn:E; simpl; [|reflexivity].
    destruct (open st) as [|l rest] eqn:Eo.
    + unfold step; simpl. rewrite (atom_needs_open p st E Eo). simpl. rewrite Eo. reflexivity.
    + unfold step; simpl. rewrite Eo.
      destruct (atom st) as [[e s]|]; simpl; [reflexivity|]. rewrite Eo. reflexivity.
  - unfold parse. rewrite !steps_app.
    destruct (steps p start) as [st|f] eqn:E; simpl; [|reflexivity].
    destruct (step " " st) as [st1|f] eqn:E1; simpl; [|reflexivity].
    rewrite (step_space_again st st1 E1). reflexivity.
Qed.

Lemma step_after (pre : list Value) (c : ascii) (st : PState) :
  step c (after_statements pre st) =
    match step c st with
    | Ok st' => Ok (after_statements pre st')
    | Fail f => Fail f
    end.
Proof.
  destruct (step_cases c) as [-> | [-> | [-> | [-> | Hc]]]].
  - unfold step; simpl. destruct (atom st); reflexivity.
  - unfold step; simpl. destruct (open st); reflexivity.
  - unfold step; simpl. destruct (open st) as [|l [|parent rest]]; try reflexivity.
    unfold after_statements; simpl. rewrite app_assoc. reflexivity.
  - unfold step; simpl. destruct (atom st) as [[e s]|]; [destruct (open st)|]; reflexivity.
  - rewrite !(step_ordinary c _ Hc). simpl.
    destruct (atom st) as [[e s]|]; [|destruct (open st)]; reflexivity.
Qed.

Lemma steps_after (pre : list Value) (program : string) (st : PState) :
  steps program (after_statements pre st) =
    match steps program st with
    | Ok st' => Ok (after_statements pre st')
    | Fail f => Fail f
    end.
Proof.
  revert st; induction program as [|c program IH]; intros st; simpl; [reflexivity|].
  rewrite step_after. destruct (step c st) as [st1|f]; simpl; [apply IH|reflexivity].
Qed.

Lemma run_app (flagUseColor : bool) (fuel : nat) (s1 s2 : list Value) (st : State) :
  run flagUseColor fuel (s1 ++ s2) st =
    let* st1 := run flagUseColor fuel s1 st in run flagUseColor fuel s2 st1.
Proof.
  revert st; induction s1 as [|s s1 IH]; intros st; simpl; [reflexivity|].
  destruct (execute flagUseColor fuel s st) as [[r st1]|f]; simpl; [apply IH|reflexivity].
Qed.

(** X4: when a program parses and does not end on an apostrophe, putting a
    second text behind it parses to the statements of the first followed by
    those of the second, and fails when the second fails; running the
    statements of the whole is running those of the first and then those of
    the second on the state the first left. *)
Theorem programs_concatenate (p q : string) (s1 : list Value) :
  parse p = Ok s1 -> pending_quote p = false ->
  parse (p +:+ q) = (let* s2 := parse q in Ok (s1 ++ s2)%list)
  /\ (forall flagUseColor fuel s2 st,
        parse q = Ok s2 ->
        (let* stmts := parse (p +:+ q) in run flagUseColor fuel stmts st)
        = let* st1 := run flagUseColor fuel s1 st in run flagUseColor fuel s2 st1).
Proof.
  intros Hp Hq.
  assert (Hcat : parse (p +:+ q) = (let* s2 := parse q in Ok (s1 ++ s2)%list)).
  { destruct (parse_steps p s1 Hp) as (st & Hsteps & Hopen & Hstmts).
    unfold pending_quote in Hq. rewrite Hsteps in Hq.
    pose proof (atom_needs_open p st Hsteps Hopen) as Hatom.
    assert (Hst : st = after_statements s1 start).
    { destruct st as [a e o s]; simpl in *; subst. unfold after_statements; simpl.
      rewrite app_nil_r. reflexivity. }
    unfold parse. rewrite steps_app, Hsteps. simpl. rewrite Hst, steps_after.
    destruct (steps q start) as [st2|f]; simpl; [|reflexivity].
    destruct (open st2); reflexivity. }
  split; [exact Hcat|].
  intros flagUseColor fuel s2 st H2. rewrite Hcat, H2. simpl. apply run_app.
Qed.

Lemma programs_concatenate_witness :
  parse ("(a b)" +:+ "'(c)")
    = (let* s2 := parse "'(c)" in
       Ok ([List false [Atom false "a"; Atom false "b"]] ++ s2)%list).
Proof.
  exact (proj1 (programs_concatenate "(a b)" "'(c)"
                  [List false [Atom false "a"; Atom false "b"]] eq_refl eq_refl)).
Defined.


Lemma append_cons (c : ascii) (s t : string) : String c s +:+ t = String c (s +:+ t).
Proof. reflexivity. Qed.

Lemma append_nil_r (s : string) : s +:+ "" = s.
Proof. induction s as [|x s IH]; [reflexivity|]. rewrite append_cons, IH. reflexivity. Qed.

Lemma append_assoc' (a b c : string) : (a +:+ b) +:+ c = a +:+ (b +:+ c).
Proof.
  induction a as [|x a IH]; [reflexivity|]. rewrite !append_cons, IH. reflexivity.
Qed.

Lemma concat_spaced (texts : list string) :
  texts <> [] -> String.concat " " texts +:+ " " = spaced texts.
Proof.
  induction texts as [|t [|t' rest] IH]; intros H; [contradiction| |].
  - simpl. rewrite append_nil_r. reflexivity.
  - change (String.concat " " (t :: t' :: rest))
      with (t +:+ " " +:+ String.concat " " (t' :: rest)).
    change (spaced (t :: t' :: rest)) with (t +:+ " " +:+ spaced (t' :: rest)).
    rewrite <- IH by discriminate. rewrite !append_assoc'. reflexivity.
Qed.

Lemma steps_atom_rest (t : string) (e : bool) (s : string) (st : PState) :
  Text.all_chars (fun c => negb (special c)) t = true ->
  atom st = Some (e, s) ->
  steps t st = Ok {| atom := Some (e, s +:+ t); escaped := escaped st;
                     open := open st; statements := statements st |}.
Proof.
  revert s st; induction t as [|c t IH]; intros s st Ht Ha; simpl.
  - rewrite append_nil_r. destruct st; simpl in *; subst; reflexivity.
  - simpl in Ht. apply andb_true_iff in Ht as [Hc Ht]. apply negb_true_iff in Hc.
    rewrite (step_ordinary c st Hc), Ha. simpl.
    erewrite IH; [|exact Ht|reflexivity]. simpl.
    rewrite append_assoc'. reflexivity.
Qed.

Lemma steps_atom (t : string) (l : Open) (rest : list Open) (st : PState) :
  plain t = true -> atom st = None -> open st = l :: rest ->
  steps (t +:+ " ") st
  = Ok {| atom := None; escaped := false;
          open := {| o_escaped := o_escaped l;
                     o_value := o_value l ++ [Atom (escaped st || o_escaped l) t] |} :: rest;
          statements := statements st |}.
Proof.
  unfold plain. intros Ht Ha Ho. apply andb_true_iff in Ht as [Hn Ht].
  destruct t as [|c t]; [discriminate|]. simpl in Ht.
  apply andb_true_iff in Ht as [Hc Ht]. apply negb_true_iff in Hc.
  rewrite append_cons. simpl steps. rewrite (step_ordinary c st Hc), Ha, Ho. simpl bind.
  rewrite steps_app. erewrite steps_atom_rest; [|exact Ht|reflexivity]. reflexivity.
Qed.

Lemma steps_spaced (texts : list string) (l : Open) (rest : list Open) (st : PState) :
  Forall (fun t => plain t = true) texts ->
  atom st = None -> escaped st = false -> open st = l :: rest ->
  steps (spaced texts) st
  = Ok {| atom := None; escaped := false;
          open := {| o_escaped := o_escaped l;
                     o_value := o_value l ++ map (Atom (o_escaped l)) texts |} :: rest;
          statements := statements st |}.
Proof.
  intros Hts. revert l st; induction Hts as [|t texts Ht _ IH]; intros l st Ha He Ho.
  - simpl. rewrite app_nil_r. destruct st, l; simpl in *; subst; reflexivity.
  - simpl spaced. rewrite <- append_assoc', steps_app.
    rewrite (steps_atom t l rest st Ht Ha Ho). simpl bind.
    erewrite IH; [|reflexivity|reflexivity|reflexivity]. simpl.
    rewrite He. simpl. rewrite <- app_assoc. reflexivity.
Qed.

Section PrintedLists.

Variable flagUseColor : bool.

Lemma map_toString_atoms (fuel : nat) (texts : list string) (st : State) :
  Forall (fun t => Text.toUpperCase t <> "NIL") texts ->
  map_toString (toString flagUseColor (S (S fuel))) false (map (Atom true) texts) st
  = Ok (texts, st).
Proof.
  induction 1 as [|t texts Ht _ IH]; [reflexivity|].
  simpl. rewrite toString_unfold.
  rewrite (fetch_self_evaluating flagUseColor fuel (Atom true t) st).
  - simpl. rewrite IH. reflexivity.
  - simpl. destruct (String.eqb_spec (Text.toUpperCase t) "NIL"); [contradiction|reflexivity].
Qed.

End PrintedLists.

(** X5: [toString] without colour writes a quoted, non-empty list of quoted
    atoms other than [NIL] as [( a b c )] and leaves the state alone; that
    text behind an apostrophe parses back to the one statement that is this
    list. *)
Theorem quoted_list_prints_and_parses_back (flagUseColor : bool) (fuel : nat)
    (texts : list string) (st : State) :
  texts <> [] ->
  Forall (fun t => plain t = true) texts ->
  Forall (fun t => Text.toUpperCase t <> "NIL") texts ->
  toString flagUseColor (3 + fuel) false (List true (map (Atom true) texts)) st
    = Ok (show_list texts, st)
  /\ parse ("'" +:+ show_list texts) = Ok [List true (map (Atom true) texts)].
Proof.
  intros Hne Hplain Hnil. split.
  - change (3 + fuel)%nat with (S (S (S fuel))). rewrite toString_unfold.
    rewrite fetch_list. simpl.
    destruct texts as [|t texts]; [contradiction|].
    change (Atom true t :: map (Atom true) texts) with (map (Atom true) (t :: texts)).
    rewrite length_map. simpl length. simpl Nat.eqb. cbv iota.
    rewrite (map_toString_atoms flagUseColor fuel (t :: texts) st Hnil). reflexivity.
  - unfold show_list.
    replace ("'" +:+ ("( " +:+ String.concat " " texts +:+ " )"))
      with ("'( " +:+ (spaced texts +:+ ")")).
    2:{ rewrite <- (concat_spaced texts Hne). simpl. rewrite !append_assoc'. reflexivity. }
    rewrite !append_cons. change ("" +:+ (spaced texts +:+ ")")) with (spaced texts +:+ ")").
    unfold parse. simpl steps. rewrite steps_app.
    erewrite steps_spaced; [|exact Hplain|reflexivity|reflexivity|reflexivity].
    reflexivity.
Qed.

Lemma quoted_list_prints_and_parses_back_witness :
  parse ("'" +:+ show_list ["a"; "b"]) = Ok [List true [Atom true "a"; Atom true "b"]].
Proof.
  refine (proj2 (quoted_list_prints_and_parses_back false 0 ["a"; "b"] initial _ _ _)).
  - discriminate.
  - repeat constructor.
  - repeat constructor; discriminate.
Defined.

(** X6: behind a program that parses, a character other than a space, an
    apostrophe or a parenthesis is a syntax error whatever follows it: between
    statements only spaces and apostrophes may stand, and a tab is neither. *)
Theorem text_between_statements_is_refused (p q : string) (c : ascii)
    (stmts : list Value) :
  parse p = Ok stmts -> special c = false ->
  parse (p +:+ String c q)
  = Fail (SyntaxError "Cannot declare atom outside of a statement.").
Proof.
  intros Hp Hc. destruct (parse_steps p stmts Hp) as (st & Hsteps & Hopen & _).
  pose proof (atom_needs_open p st Hsteps Hopen) as Hatom.
  unfold parse. rewrite steps_app, Hsteps. simpl.
  unfold special in Hc. unfold step.
  destruct (Ascii.eqb c "'"); [discriminate|].
  destruct (Ascii.eqb c "("); [discriminate|].
  destruct (Ascii.eqb c ")"); [discriminate|].
  destruct (Ascii.eqb c " "); [discriminate|].
  rewrite Hatom, Hopen. reflexivity.
Qed.

Lemma text_between_statements_is_refused_witness :
  parse ("(a)" +:+ String (ascii_of_nat 9) "(b)")
  = Fail (SyntaxError "Cannot declare atom outside of a statement.").
Proof.
  exact (text_between_statements_is_refused "(a)" "(b)" (ascii_of_nat 9)
           [List false [Atom false "a"]] eq_refl eq_refl).
Defined.

End ParserMore.

(** ** What every call keeps *)

Section EvaluatorLogic.

Variable flagUseColor : bool.
Variable V : Value -> Prop.
Variable F : Value -> Prop.
Variable Pm : Memory -> Prop.
Variable Rm : Memory -> Memory -> Prop.
Variable Ro : list string -> list string -> Prop.
Variable writers : Prop.

Hypothesis F_V : forall v, F v -> V v.
Hypothesis V_atom : forall e s, V (Atom e s).
Hypothesis V_list : forall e vs, Forall V vs -> V (List e vs).
Hypothesis V_elements : forall e vs, V (List e vs) -> Forall V vs.
Hypothesis V_method : forall n p b, V n -> V p -> V b -> V (Method n p b).
Hypothesis V_body : forall n p b, V (Method n p b) -> V b.
Hypothesis F_self : forall v, V v -> self_evaluating v = true -> F v.
Hypothesis Pm_lookup : forall m k v, Pm m -> m !! k = Some v -> F v.
Hypothesis Pm_insert : forall m k v, Pm m -> F v -> Pm (<[k := v]> m).
Hypothesis Rm_refl : forall m, Rm m m.
Hypothesis Rm_trans : forall a b c, Rm a b -> Rm b c -> Rm a c.
Hypothesis Ro_refl : forall o, Ro o o.
Hypothesis Ro_trans : forall a b c, Ro a b -> Ro b c -> Ro a c.
Hypothesis Ro_write : forall o text, Ro o (o ++ [text]).
Hypothesis Rm_insert : writers -> forall m k v, Pm m -> F v -> Rm m (<[k := v]> m).
Hypothesis V_writer : forall fn, V (Native fn) -> is_writer fn = true -> writers.

Abbreviation keeps := (advances Pm Rm Ro).

Lemma advances_refl (st : State) : Pm (memory st) -> keeps st st.
Proof. intros H. split; [exact H|split; [apply Rm_refl|apply Ro_refl]]. Qed.

Lemma advances_trans (a b c : State) : keeps a b -> keeps b c -> keeps a c.
Proof.
  intros (_ & R1 & O1) (P2 & R2 & O2).
  split; [exact P2|split; [exact (Rm_trans _ _ _ R1 R2)|exact (Ro_trans _ _ _ O1 O2)]].
Qed.

Lemma advances_Pm (a b : State) : keeps a b -> Pm (memory b).
Proof. intros (H & _). exact H. Qed.

Lemma advances_write (st : State) (text : string) : Pm (memory st) -> keeps st (write text st).
Proof. intros H. split; [exact H|split; [apply Rm_refl|apply Ro_write]]. Qed.

Lemma advances_set (st : State) (key : string) (v : Value) :
  writers -> Pm (memory st) -> F v -> keeps st (set_memory key v st).
Proof.
  intros W H Hv. split; [apply Pm_insert; assumption|].
  split; [apply Rm_insert; assumption|apply Ro_refl].
Qed.

Lemma V_nil : V getNil.
Proof. apply V_list. constructor. Qed.

Section NativesLogic.

Variable fetch : Value -> State -> Result.
Variable execute : Value -> State -> Result.
Variable toString : bool -> Value -> State -> Outcome (string * State).

Hypothesis fetch_ok : fetch_sound V F Pm Rm Ro fetch.
Hypothesis execute_ok : execute_sound V Pm Rm Ro execute.
Hypothesis toString_ok : toString_sound V Pm Rm Ro toString.

Ltac bind_in H :=
  match type of H with
  | bind ?x _ = Ok _ =>
      let E := fresh "E" in
      destruct x as [[? ?]|?] eqn:E; simpl in H; [|discriminate H]
  end.

Tactic Notation "fetched" hyp(E) :=
  let Hv := fresh "Hv" in
  let Hg := fresh "Hg" in
  apply fetch_ok in E as [Hv Hg];
  [| assumption | first [assumption | eapply advances_Pm; eassumption]].

Ltac chain :=
  first [ eassumption
        | apply advances_refl; first [assumption | eapply advances_Pm; eassumption]
        | eapply advances_trans; [eassumption|chain] ].

Lemma number_atom_sound (x : Num) (st : State) (r : Value) (st' : State) :
  number_atom x st = Ok (r, st') -> V r /\ st' = st.
Proof.
  unfold number_atom. destruct (Host.String_ x); intros H; inversion H; subst; auto.
Qed.

Lemma boolean_sound (b : option bool) (st : State) (r : Value) (st' : State) :
  boolean b st = Ok (r, st') -> V r /\ st' = st.
Proof.
  unfold boolean. destruct b as [[]|]; intros H; inversion H; subst; split;
    try reflexivity; [apply V_atom|apply V_nil].
Qed.

Lemma ADD_loop_sound (parameters : list Value) (sum : Num) (st : State)
    (total : Num) (st' : State) :
  Forall V parameters -> Pm (memory st) ->
  ADD_loop fetch parameters sum st = Ok (total, st') -> keeps st st'.
Proof.
  intros Hp. revert sum st; induction Hp as [|p rest Hp _ IH]; intros sum st Hs H; simpl in H.
  - inversion H; subst. chain.
  - bind_in H. fetched E.
    destruct (Host.isNaN (Number_ v)); [discriminate|].
    apply IH in H; [chain|eapply advances_Pm; eassumption].
Qed.

Lemma MULT_loop_sound (parameters : list Value) (product : Num) (st : State)
    (total : Num) (st' : State) :
  Forall V parameters -> Pm (memory st) ->
  MULT_loop fetch parameters product st = Ok (total, st') -> keeps st st'.
Proof.
  intros Hp. revert product st; induction Hp as [|p rest Hp _ IH]; intros product st Hs H;
    simpl in H.
  - inversion H; subst. chain.
  - bind_in H. fetched E.
    destruct (Host.isNaN (Number_ v)); [discriminate|].
    apply IH in H; [chain|eapply advances_Pm; eassumption].
Qed.

Lemma PRINT_loop_sound (parameters : list Value) (st st' : State) :
  Forall V parameters -> Pm (memory st) ->
  PRINT_loop flagUseColor toString parameters st = Ok st' -> keeps st st'.
Proof.
  intros Hp. revert st; induction Hp as [|p rest Hp _ IH]; intros st Hs H; simpl in H.
  - inversion H; subst. chain.
  - bind_in H. apply toString_ok in E; [|assumption|assumption].
    apply IH in H; [|exact (advances_Pm _ _ E)].
    eapply advances_trans; [exact E|]. eapply advances_trans; [|exact H].
    apply advances_write. exact (advances_Pm _ _ E).
Qed.

Lemma map_toString_sound (useColor : bool) (elements : list Value) (st : State)
    (texts : list string) (st' : State) :
  Forall V elements -> Pm (memory st) ->
  map_toString toString useColor elements st = Ok (texts, st') -> keeps st st'.
Proof.
  intros Hp. revert st texts; induction Hp as [|p rest Hp _ IH]; intros st texts Hs H;
    simpl in H.
  - inversion H; subst. chain.
  - bind_in H. apply toString_ok in E; [|assumption|assumption].
    bind_in H. inversion H; subst.
    apply IH in E0; [|exact (advances_Pm _ _ E)]. chain.
Qed.

Lemma call_native_sound (fn : NativeFn) (parameters : list Value) (st : State)
    (r : Value) (st' : State) :
  V (Native fn) -> Forall V parameters -> Pm (memory st) ->
  call_native flagUseColor fetch execute toString fn parameters st = Ok (r, st') ->
  V r /\ keeps st st'.
Proof.
  intros Hfn Hp Hs H. destruct fn; simpl in H.
  - (* ADD *)
    unfold ADD in H. destruct (length parameters <? 2)%nat; [discriminate|].
    bind_in H. apply ADD_loop_sound in E; [|assumption|assumption].
    apply number_atom_sound in H as [Hr ->]. auto.
  - (* ATOM *)
    unfold ATOM in H. destruct parameters as [|p0 [|? ?]]; try discriminate.
    inversion Hp; subst. bind_in H. fetched E. inversion H; subst.
    split; [|assumption]. destruct (_ || _); [apply V_atom|apply V_nil].
  - (* CAR *)
    unfold CAR in H. destruct parameters as [|p0 [|? ?]]; try discriminate.
    inversion Hp; subst. bind_in H. fetched E.
    destruct v as [| e [|first rest] | |]; try discriminate.
    inversion H; subst. rewrite copy_same. split; [|assumption].
    apply F_V, V_elements in Hv. inversion Hv; assumption.
  - (* CDR *)
    unfold CDR in H. destruct parameters as [|p0 [|? ?]]; try discriminate.
    inversion Hp; subst. bind_in H. fetched E.
    destruct v as [| e [|first rest] | |]; try discriminate.
    inversion H; subst. rewrite map_copy_same. split; [|assumption].
    apply F_V, V_elements in Hv. inversion Hv; subst. apply V_list. assumption.
  - (* CONS *)
    unfold CONS in H. destruct parameters as [|p0 [|p1 [|? ?]]]; try discriminate.
    inversion Hp as [|? ? Hp0 Hp']; subst. inversion Hp' as [|? ? Hp1 _]; subst.
    bind_in H. fetched E. bind_in H. fetched E.
    destruct v0 as [| e value | |]; try discriminate.
    inversion H; subst. rewrite copy_same, map_copy_same. split; [|chain].
    apply V_list. constructor; [apply F_V; assumption|].
    exact (V_elements _ _ (F_V _ Hv0)).
  - (* DEF *)
    unfold DEF in H. destruct parameters as [|n [|p [|b [|? ?]]]]; try discriminate.
    inversion Hp as [|? ? Hn Hp']; subst. inversion Hp' as [|? ? Hps Hp'']; subst.
    inversion Hp'' as [|? ? Hb _]; subst.
    destruct n as [[] name| | |]; try discriminate.
    destruct (legal_parameters p); simpl in H; [|discriminate].
    destruct b as [| [] body | |]; try discriminate.
    inversion H; subst.
    assert (Hm : V (Method (Atom false name) p (List false body)))
      by (apply V_method; assumption).
    split; [exact Hm|]. apply advances_set; [|assumption|].
    + apply (V_writer FnDEF Hfn). reflexivity.
    + apply F_self; [exact Hm|reflexivity].
  - (* EQ *)
    unfold EQ in H. destruct parameters as [|p0 [|p1 [|? ?]]]; try discriminate.
    inversion Hp as [|? ? Hp0 Hp']; subst. inversion Hp' as [|? ? Hp1 _]; subst.
    bind_in H. fetched E. bind_in H. fetched E.
    destruct (Host.isNaN (Number_ v)); [discriminate|].
    destruct (Host.isNaN (Number_ v0)); [discriminate|].
    apply boolean_sound in H as [Hr ->]. split; [exact Hr|chain].
  - (* EVAL *)
    unfold EVAL in H. destruct parameters as [|p0 [|? ?]]; try discriminate.
    inversion Hp; subst. bind_in H. fetched E.
    destruct v as [ae atext| le value |mn mp mb|nf].
    + inversion H; subst. split; [apply V_atom|assumption].
    + rewrite map_copy_same in H. apply execute_ok in H as [Hr Hg'].
      * split; [exact Hr|chain].
      * apply V_list. exact (V_elements _ _ (F_V _ Hv)).
      * exact (advances_Pm _ _ Hg).
    + inversion H; subst. split; [apply F_V; assumption|assumption].
    + inversion H; subst. split; [apply F_V; assumption|assumption].
  - (* EXP *)
    unfold EXP in H. destruct parameters as [|p0 [|p1 [|? ?]]]; try discriminate.
    inversion Hp as [|? ? Hp0 Hp']; subst. inversion Hp' as [|? ? Hp1 _]; subst.
    bind_in H. fetched E. bind_in H. fetched E.
    destruct (Host.isNaN (Number_ v)); [discriminate|].
    destruct (Host.isNaN (Number_ v0)); [discriminate|].
    apply number_atom_sound in H as [Hr ->]. split; [exact Hr|chain].
  - (* DIV *)
    unfold DIV in H. destruct parameters as [|p0 [|p1 [|? ?]]]; try discriminate.
    inversion Hp as [|? ? Hp0 Hp']; subst. inversion Hp' as [|? ? Hp1 _]; subst.
    bind_in H. fetched E. bind_in H. fetched E.
    destruct (Host.isNaN (Number_ v)); [discriminate|].
    destruct (Host.isNaN (Number_ v0)); [discriminate|].
    apply number_atom_sound in H as [Hr ->]. split; [exact Hr|chain].
  - (* MULT *)
    unfold MULT in H. destruct (length parameters <? 2)%nat; [discriminate|].
    bind_in H. apply MULT_loop_sound in E; [|assumption|assumption].
    apply number_atom_sound in H as [Hr ->]. auto.
  - (* NEG *)
    unfold NEG in H. destruct parameters as [|p0 [|? ?]]; try discriminate.
    inversion Hp; subst. bind_in H. fetched E.
    destruct (Host.isNaN (Number_ v)); [discriminate|].
    apply boolean_sound in H as [Hr ->]. auto.
  - (* POS *)
    unfold POS in H. destruct parameters as [|p0 [|? ?]]; try discriminate.
    inversion Hp; subst. bind_in H. fetched E.
    destruct (Host.isNaN (Number_ v)); [discriminate|].
    apply boolean_sound in H as [Hr ->]. auto.
  - (* PRINT *)
    unfold PRINT in H.
    destruct (PRINT_loop flagUseColor toString parameters st) as [st1|] eqn:E;
      simpl in H; [|discriminate].
    apply PRINT_loop_sound in E; [|assumption|assumption].
    inversion H; subst. split; [apply V_nil|].
    eapply advances_trans; [exact E|]. apply advances_write. exact (advances_Pm _ _ E).
  - (* REVERSE *)
    unfold REVERSE in H. destruct parameters as [|p0 [|? ?]]; try discriminate.
    inversion Hp; subst. bind_in H. fetched E.
    destruct v as [| e value | |]; try discriminate.
    inversion H; subst. rewrite map_copy_same. split; [|assumption].
    apply V_list. apply Forall_rev. exact (V_elements _ _ (F_V _ Hv)).
  - (* SUB *)
    unfold SUB in H. destruct parameters as [|p0 [|p1 [|? ?]]]; try discriminate.
    inversion Hp as [|? ? Hp0 Hp']; subst. inversion Hp' as [|? ? Hp1 _]; subst.
    bind_in H. fetched E. bind_in H. fetched E.
    destruct (Host.isNaN (Number_ v)); [discriminate|].
    destruct (Host.isNaN (Number_ v0)); [discriminate|].
    apply number_atom_sound in H as [Hr ->]. split; [exact Hr|chain].
  - (* SQUARE *)
    unfold SQUARE in H. destruct parameters as [|p0 [|? ?]]; try discriminate.
    inversion Hp; subst. bind_in H. fetched E.
    destruct (Host.isNaN (Number_ v)); [discriminate|].
    apply number_atom_sound in H as [Hr ->]. auto.
  - (* SET *)
    unfold SET in H. destruct parameters as [|p0 [|p1 [|? ?]]]; try discriminate.
    inversion Hp as [|? ? Hp0 Hp']; subst. inversion Hp' as [|? ? Hp1 _]; subst.
    bind_in H. fetched E. bind_in H. fetched E.
    destruct v as [[] name| | |]; try discriminate.
    destruct (_ || _); [discriminate|]. inversion H; subst.
    split; [apply F_V; assumption|].
    eapply advances_trans; [exact Hg|]. eapply advances_trans; [exact Hg0|].
    apply advances_set; [|exact (advances_Pm _ _ Hg0)|assumption].
    apply (V_writer FnSET Hfn). reflexivity.
  - (* SETQ *)
    unfold SETQ in H. destruct parameters as [|p0 [|p1 [|? ?]]]; try discriminate.
    inversion Hp as [|? ? Hp0 Hp']; subst. inversion Hp' as [|? ? Hp1 _]; subst.
    bind_in H. fetched E.
    destruct p0 as [[] name| | |]; try discriminate.
    destruct (_ || _); [discriminate|]. inversion H; subst.
    split; [apply F_V; assumption|].
    eapply advances_trans; [exact Hg|].
    apply advances_set; [|exact (advances_Pm _ _ Hg)|assumption].
    apply (V_writer FnSETQ Hfn). reflexivity.
Qed.

Lemma cxr_loop_sound (CAR_ CDR_ : Value) (methodName : string) (i : nat)
    (result : list Value) (st : State) (result' : list Value) (st' : State) :
  V CAR_ -> V CDR_ -> Forall V result -> Pm (memory st) ->
  cxr_loop flagUseColor fetch execute toString CAR_ CDR_ methodName i result st
    = Ok (result', st') ->
  Forall V result' /\ keeps st st'.
Proof.
  intros Hcar Hcdr. revert result st; induction i as [|j IH]; intros result st Hr Hs H;
    simpl in H.
  - inversion H; subst. split; [assumption|chain].
  - bind_in H.
    assert (Hcall : V v /\ keeps st s).
    { match type of E with
      | call_value _ _ _ _ ?callee _ _ = _ =>
          assert (Hc : V callee)
            by (match goal with |- V (if ?c then _ else _) => destruct c end; assumption);
          destruct callee as [| | |fn]
      end; try discriminate.
      simpl in E. eapply call_native_sound; eassumption. }
    destruct Hcall as [Hv Hg].
    apply IH in H as [Hr' Hg']; [|constructor; [exact Hv|constructor]|exact (advances_Pm _ _ Hg)].
    split; [exact Hr'|chain].
Qed.

End NativesLogic.

Ltac bind_in H :=
  match type of H with
  | bind ?x _ = Ok _ =>
      let E := fresh "E" in
      destruct x as [[? ?]|?] eqn:E; simpl in H; [|discriminate H]
  end.

Abbreviation sound := (evaluator_sound V F Pm Rm Ro flagUseColor).

Lemma fetched_atom_itself (e : bool) (s : string) :
  negb e && negb (String.eqb (Text.toUpperCase s) "TRUE")
  && negb (String.eqb (Text.toUpperCase s) "NIL")
  && Host.isNaN (Host.Number_text s) = false ->
  String.eqb (Text.toUpperCase s) "NIL" = false ->
  self_evaluating (Atom e s) = true.
Proof.
  intros H HN. simpl. rewrite HN in *. simpl in *. rewrite andb_true_r in H.
  destruct e; [reflexivity|]. simpl in *.
  destruct (String.eqb (Text.toUpperCase s) "TRUE"); [reflexivity|]. simpl in *.
  destruct (Text.numeric_literal s) eqn:E; [reflexivity|].
  rewrite (number_text_NaN s E) in H. discriminate.
Qed.

Lemma fetch_sound_step (fuel : nat) :
  sound fuel -> fetch_sound V F Pm Rm Ro (fetch flagUseColor (S fuel)).
Proof.
  intros (IHf & IHe & IHt) p st v st' Hp Hs H.
  destruct p as [e s|e value|n ps b|fn].
  - rewrite fetch_atom in H.
    destruct (_ && _) eqn:Hcond.
    + destruct (memory st !! Text.toUpperCase s) as [variable|] eqn:Hm; [|discriminate].
      inversion H; subst. split; [exact (Pm_lookup _ _ _ Hs Hm)|apply advances_refl; exact Hs].
    + revert H; case_eq (String.eqb (Text.toUpperCase s) "NIL"); intros HN H;
        inversion H; subst.
      * split; [|apply advances_refl; exact Hs]. apply F_self; [apply V_list; constructor|reflexivity].
      * split; [|apply advances_refl; exact Hs].
        apply F_self; [apply V_atom|]. apply fetched_atom_itself; assumption.
  - rewrite fetch_list in H.
    destruct (negb e && _) eqn:Hcond.
    + bind_in H. apply IHe in E as [Hv Hg]; [|assumption|assumption].
      apply IHf in H as [Hv' Hg']; [|assumption|exact (advances_Pm _ _ Hg)].
      split; [exact Hv'|exact (advances_trans _ _ _ Hg Hg')].
    + inversion H; subst. split; [|apply advances_refl; exact Hs].
      apply F_self; [exact Hp|]. simpl.
      destruct e; [reflexivity|]. simpl in Hcond. apply negb_false_iff in Hcond. exact Hcond.
  - rewrite fetch_other in H by exact I. inversion H; subst.
    split; [apply F_self; [exact Hp|reflexivity]|apply advances_refl; exact Hs].
  - rewrite fetch_other in H by exact I. inversion H; subst.
    split; [apply F_self; [exact Hp|reflexivity]|apply advances_refl; exact Hs].
Qed.

Lemma execute_sound_step (fuel : nat) :
  sound fuel -> execute_sound V Pm Rm Ro (execute flagUseColor (S fuel)).
Proof.
  intros (IHf & IHe & IHt) l st r st' Hl Hs H.
  destruct l as [e s|e value|n ps b|fn];
    try (rewrite execute_not_list in H by exact I; discriminate).
  rewrite execute_list in H.
  destruct (e || _); [inversion H; subst; split; [exact Hl|apply advances_refl; exact Hs]|].
  destruct value as [|[he methodName|he hv|hn hp hb|hf] arguments];
    try discriminate; [inversion H; subst; split; [exact Hl|apply advances_refl; exact Hs]|].
  apply V_elements in Hl. inversion Hl as [|? ? _ Hargs]; subst.
  rewrite execute_call in H.
  destruct (memory st !! Text.toUpperCase methodName) as [[| |mn params body|fn]|] eqn:Hm;
    try discriminate.
  - (* a method *)
    pose proof (V_body _ _ _ (F_V _ (Pm_lookup _ _ _ Hs Hm))) as Hbody.
    destruct arguments as [|argument rest]; [discriminate|].
    destruct params as [| pe [|[ae formal| | |] ps] | |]; try discriminate.
    inversion Hargs as [|? ? Harg _]; subst.
    bind_in H. apply IHf in E as [Hactual Hg]; [|assumption|assumption].
    bind_in H. inversion H; subst.
    apply IHe in E as [Hr Hg']; [|exact Hbody|apply Pm_insert; assumption].
    split; [exact Hr|]. destruct Hg as (P1 & R1 & O1). destruct Hg' as (_ & _ & O2).
    split; [exact P1|split; [exact R1|exact (Ro_trans _ _ _ O1 O2)]].
  - (* a native *)
    unfold native in H.
    exact (call_native_sound _ _ _ IHf IHe IHt fn arguments st r st'
             (F_V _ (Pm_lookup _ _ _ Hs Hm)) Hargs Hs H).
  - (* the cadr family *)
    destruct (is_cxr _); [|discriminate].
    destruct (memory st !! "CAR") as [CAR_|] eqn:Hcar; [|discriminate].
    destruct (memory st !! "CDR") as [CDR_|] eqn:Hcdr; [|discriminate].
    bind_in H.
    apply (cxr_loop_sound _ _ _ IHf IHe IHt) in E as [Hres Hg];
      [|exact (F_V _ (Pm_lookup _ _ _ Hs Hcar))|exact (F_V _ (Pm_lookup _ _ _ Hs Hcdr))
       |assumption|assumption].
    destruct l as [|r0 l]; [discriminate|]. inversion H; subst.
    inversion Hres; subst. auto.
Qed.

Lemma toString_sound_step (fuel : nat) :
  sound fuel -> toString_sound V Pm Rm Ro (toString flagUseColor (S fuel)).
Proof.
  intros (IHf & IHe & IHt) useColor p st text st' Hp Hs H.
  rewrite toString_unfold in H. bind_in H.
  apply IHf in E as [Hv Hg]; [|assumption|assumption].
  destruct v as [ae atext|le elements|mn mp mb|nf].
  - destruct useColor; [destruct (_ || _); [|destruct (isNil _)]|];
      inversion H; subst; exact Hg.
  - destruct (Nat.eqb _ _); [inversion H; subst; exact Hg|].
    destruct le.
    + bind_in H. inversion H; subst.
      apply (map_toString_sound _ IHt) in E;
        [|exact (V_elements _ _ (F_V _ Hv))|exact (advances_Pm _ _ Hg)].
      exact (advances_trans _ _ _ Hg E).
    + bind_in H. apply IHe in E as [Hr Hg']; [|exact (F_V _ Hv)|exact (advances_Pm _ _ Hg)].
      apply IHt in H; [|exact Hr|exact (advances_Pm _ _ Hg')].
      exact (advances_trans _ _ _ Hg (advances_trans _ _ _ Hg' H)).
  - destruct mn; try discriminate. inversion H; subst; exact Hg.
  - inversion H; subst; exact Hg.
Qed.

Lemma evaluator_is_sound (fuel : nat) : sound fuel.
Proof.
  induction fuel as [|fuel IH].
  - split; [|split]; red; intros; discriminate.
  - split; [|split].
    + apply fetch_sound_step; exact IH.
    + apply execute_sound_step; exact IH.
    + apply toString_sound_step; exact IH.
Qed.

Lemma run_sound (fuel : nat) (statements : list Value) (st st' : State) :
  Forall V statements -> Pm (memory st) ->
  run flagUseColor fuel statements st = Ok st' -> keeps st st'.
Proof.
  intros Hp. revert st; induction Hp as [|s rest Hv _ IH]; intros st Hs H; simpl in H.
  - inversion H; subst. apply advances_refl; exact Hs.
  - bind_in H.
    apply (proj1 (proj2 (evaluator_is_sound fuel))) in E as [_ Hg]; [|assumption|assumption].
    apply IH in H; [|exact (advances_Pm _ _ Hg)]. exact (advances_trans _ _ _ Hg H).
Qed.

End EvaluatorLogic.

(** ** Values, output, names and the writing natives *)

Lemma settled_insert (m : Memory) (key : string) (v : Value) :
  settled m -> self_evaluating v = true -> settled (<[key := v]> m).
Proof.
  intros Hm Hv k w Hk. destruct (decide (key = k)) as [->|Hne].
  - rewrite lookup_insert_eq in Hk. inversion Hk; subst. exact Hv.
  - rewrite lookup_insert_ne in Hk by exact Hne. exact (Hm k w Hk).
Qed.

Lemma defined_natives (P : Value -> Prop) (l : list (string * NativeFn)) (m : Memory) :
  (forall entry, In entry l -> P (Native (snd entry))) ->
  (forall key v, m !! key = Some v -> P v) ->
  forall key v,
    fold_left (fun memory entry => defineNative (fst entry) (snd entry) memory) l m !! key
      = Some v -> P v.
Proof.
  revert m; induction l as [|[n f] l IH]; intros m Hl Hm; simpl; [exact Hm|].
  apply IH; [intros entry He; apply Hl; right; exact He|].
  intros key v. unfold defineNative. destruct (decide (Text.toUpperCase n = key)) as [->|Hne].
  - rewrite lookup_insert_eq. intros H; inversion H; subst. apply (Hl (n, f)). left; reflexivity.
  - rewrite lookup_insert_ne by exact Hne. apply Hm.
Qed.

Lemma initial_settled : settled initial_memory.
Proof.
  refine (defined_natives (fun v => self_evaluating v = true) natives ∅ _ _).
  - reflexivity.
  - intros key v H. rewrite lookup_empty in H. discriminate.
Qed.

Lemma reading_memory_read_only : read_only reading_memory.
Proof.
  refine (defined_natives (fun v => writes_nothing v = true) reading_natives ∅ _ _).
  - intros entry He. apply filter_In in He as [_ He]. exact He.
  - intros key v H. rewrite lookup_empty in H. discriminate.
Qed.

Lemma forallb_Forall_true (A : Type) (f : A -> bool) (l : list A) :
  forallb f l = true <-> Forall (fun x => f x = true) l.
Proof.
  induction l as [|x l IH]; simpl.
  - split; [constructor|reflexivity].
  - rewrite andb_true_iff, IH. split.
    + intros [Hx Hl]; constructor; assumption.
    + intros H; inversion H; subst; split; assumption.
Qed.

Lemma read_only_insert (m : Memory) (key : string) (v : Value) :
  read_only m -> writes_nothing v = true -> read_only (<[key := v]> m).
Proof.
  intros Hm Hv k w Hk. destruct (decide (key = k)) as [->|Hne].
  - rewrite lookup_insert_eq in Hk. inversion Hk; subst. exact Hv.
  - rewrite lookup_insert_ne in Hk by exact Hne. exact (Hm k w Hk).
Qed.

Lemma Forall_anything (vs : list Value) : Forall (fun _ : Value => True) vs.
Proof. induction vs; constructor; trivial. Qed.

Lemma extends_refl (out : list string) : extends out out.
Proof. exists []. rewrite app_nil_r. reflexivity. Qed.

Lemma extends_trans (a b c : list string) : extends a b -> extends b c -> extends a c.
Proof.
  intros [m1 ->] [m2 ->]. exists (m1 ++ m2)%list. rewrite app_assoc. reflexivity.
Qed.

Lemma keeps_names_insert (m : Memory) (key : string) (v : Value) :
  keeps_names m (<[key := v]> m).
Proof.
  intros k Hk. destruct (decide (key = k)) as [->|Hne].
  - rewrite lookup_insert_eq. eexists; reflexivity.
  - rewrite lookup_insert_ne by exact Hne. exact Hk.
Qed.

Section Invariants.

Variable flagUseColor : bool.

(** Values are fetched to values, and only values are stored. *)
Lemma evaluator_settles (fuel : nat) :
  evaluator_sound (fun _ => True) (fun v => self_evaluating v = true) settled
    (fun _ _ => True) (fun _ _ => True) flagUseColor fuel.
Proof.
  apply (evaluator_is_sound flagUseColor _ _ _ _ _ True); auto.
  - intros _ vs _. apply Forall_anything.
  - intros m k v Hm Hk. exact (Hm k v Hk).
  - intros m k v. apply settled_insert.
Qed.

(** Output is appended to. *)
Lemma evaluator_appends (fuel : nat) :
  evaluator_sound (fun _ => True) (fun _ => True) (fun _ => True)
    (fun _ _ => True) extends flagUseColor fuel.
Proof.
  apply (evaluator_is_sound flagUseColor _ _ _ _ _ True); auto.
  - intros _ vs _. apply Forall_anything.
  - apply extends_refl.
  - apply extends_trans.
  - intros o text. exists [text]. reflexivity.
Qed.

(** Names stay bound. *)
Lemma evaluator_keeps_names (fuel : nat) :
  evaluator_sound (fun _ => True) (fun _ => True) (fun _ => True)
    keeps_names (fun _ _ => True) flagUseColor fuel.
Proof.
  apply (evaluator_is_sound flagUseColor _ _ _ _ _ True); auto.
  - intros _ vs _. apply Forall_anything.
  - intros m k Hk. exact Hk.
  - intros a b c Hab Hbc k Hk. apply Hbc, Hab, Hk.
  - intros _ m k v _ _. apply keeps_names_insert.
Qed.

(** Without the writing natives the memory stays as it is. *)
Lemma evaluator_reads (fuel : nat) :
  evaluator_sound (fun v => writes_nothing v = true) (fun v => writes_nothing v = true)
    read_only eq (fun _ _ => True) flagUseColor fuel.
Proof.
  apply (evaluator_is_sound flagUseColor _ _ _ _ _ False); auto.
  - intros e vs H. simpl. apply forallb_Forall_true. exact H.
  - intros e vs H. simpl in H. apply forallb_Forall_true. exact H.
  - intros n p b Hn Hp Hb. simpl. rewrite Hn, Hp, Hb. reflexivity.
  - intros n p b H. simpl in H. apply andb_true_iff in H as [_ H]. exact H.
  - intros m k v Hm Hk. exact (Hm k v Hk).
  - intros m k v. apply read_only_insert.
  - intros a b c -> ->. reflexivity.
  - intros [].
  - intros fn H Hw. simpl in H. rewrite Hw in H. discriminate.
Qed.

Lemma run_output_appended (fuel : nat) (statements : list Value) (st st' : State) :
  run flagUseColor fuel statements st = Ok st' -> extends (stdout st) (stdout st').
Proof.
  revert st; induction statements as [|s rest IH]; intros st H; simpl in H.
  - inversion H; subst. apply extends_refl.
  - destruct (execute flagUseColor fuel s st) as [[r st1]|f] eqn:E; simpl in H; [|discriminate].
    apply (proj1 (proj2 (evaluator_appends fuel))) in E as (_ & _ & _ & E); [|exact I|exact I].
    exact (extends_trans _ _ _ E (IH _ H)).
Qed.

Lemma run_settled (fuel : nat) (statements : list Value) (st st' : State) :
  settled (memory st) -> run flagUseColor fuel statements st = Ok st' -> settled (memory st').
Proof.
  revert st; induction statements as [|s rest IH]; intros st Hs H; simpl in H.
  - inversion H; subst. exact Hs.
  - destruct (execute flagUseColor fuel s st) as [[r st1]|f] eqn:E; simpl in H; [|discriminate].
    apply (proj1 (proj2 (evaluator_settles fuel))) in E as (_ & E & _); [|exact I|exact Hs].
    exact (IH _ E H).
Qed.

Lemma fetch_settles (fuel : nat) (p : Value) (st : State) (v : Value) (st' : State) :
  settled (memory st) ->
  fetch flagUseColor fuel p st = Ok (v, st') ->
  self_evaluating v = true
  /\ settled (memory st')
  /\ fetch flagUseColor fuel v st' = Ok (v, st').
Proof.
  intros Hs H.
  destruct (proj1 (evaluator_settles fuel) p st v st' I Hs H) as (Hv & Hs' & _).
  split; [exact Hv|split; [exact Hs'|]].
  destruct fuel as [|fuel]; [discriminate H|].
  apply fetch_self_evaluating. exact Hv.
Qed.

(** X7: from a memory that holds only values, whatever [fetch] returns is a
    value again (an atom that is quoted, [TRUE] or numeric, a list that is
    quoted or empty, a method or a native), the memory it leaves holds only
    values, and fetching the result once more returns it unchanged. *)
Theorem fetched_value_fetches_to_itself (fuel : nat) (p : Value) (st : State)
    (v : Value) (st' : State) :
  settled (memory st) ->
  fetch flagUseColor fuel p st = Ok (v, st') ->
  self_evaluating v = true
  /\ settled (memory st')
  /\ fetch flagUseColor fuel v st' = Ok (v, st').
Proof. apply fetch_settles. Qed.

(** X9: from a memory that holds only values, [toString] of a parameter is
    [toString] of what the parameter fetches to, in the state the fetch left;
    and the fetch never yields an unquoted list with elements, so the branch
    of [toString] that executes such a list is not taken. *)
Theorem toString_prints_what_is_fetched (fuel : nat) (useColor : bool) (p : Value)
    (st : State) (v : Value) (st1 : State) :
  settled (memory st) ->
  fetch flagUseColor fuel p st = Ok (v, st1) ->
  toString flagUseColor (S fuel) useColor p st = toString flagUseColor (S fuel) useColor v st1
  /\ match v with
     | List false (_ :: _) => False
     | _ => True
     end.
Proof.
  intros Hs H. destruct (fetch_settles fuel p st v st1 Hs H) as (Hv & _ & Hagain).
  split.
  - rewrite !toString_unfold, H, Hagain. reflexivity.
  - destruct v as [| [] [|x xs] | |]; try exact I. discriminate Hv.
Qed.

(** X8: every state a run of statements reaches from the initial memory
    holds only values: [SET] and [SETQ] store what [fetch] returned, [DEF] a
    method. *)
Theorem memory_holds_values (fuel : nat) (statements : list Value) (st : State) :
  run flagUseColor fuel statements initial = Ok st -> settled (memory st).
Proof. apply run_settled. exact initial_settled. Qed.

(** X10: a call that returns leaves the output it found with, at most, more
    written behind it. *)
Theorem output_is_only_appended (fuel : nat) (l : Value) (st : State)
    (r : Value) (st' : State) :
  execute flagUseColor fuel l st = Ok (r, st') -> extends (stdout st) (stdout st').
Proof.
  intros H.
  exact (proj2 (proj2 (proj2 (proj1 (proj2 (evaluator_appends fuel)) l st r st' I I H)))).
Qed.

(** X11: [SET], [SETQ] and [DEF] are the only natives that write the memory:
    with none of them in the list called nor bound in the memory, at any
    depth, a call that returns leaves the memory as it was. *)
Theorem only_three_natives_write (fuel : nat) (l : Value) (st : State)
    (r : Value) (st' : State) :
  writes_nothing l = true -> read_only (memory st) ->
  execute flagUseColor fuel l st = Ok (r, st') ->
  memory st' = memory st.
Proof.
  intros Hl Hs H.
  destruct (proj1 (proj2 (evaluator_reads fuel)) l st r st' Hl Hs H) as (_ & _ & E & _).
  symmetry. exact E.
Qed.

(** X12: a call that returns leaves every name bound that was bound before
    it: nothing removes a binding. *)
Theorem no_name_is_unbound (fuel : nat) (l : Value) (st : State)
    (r : Value) (st' : State) :
  execute flagUseColor fuel l st = Ok (r, st') -> keeps_names (memory st) (memory st').
Proof.
  intros H.
  exact (proj1 (proj2 (proj2 (proj1 (proj2 (evaluator_keeps_names fuel)) l st r st' I I H)))).
Qed.

End Invariants.

Lemma fetched_value_fetches_to_itself_witness :
  fetch false 3 (List true [Atom true "2"; Atom true "3"]) initial
  = Ok (List true [Atom true "2"; Atom true "3"], initial).
Proof.
  refine (proj2 (proj2 (fetched_value_fetches_to_itself false 3
            (List false [Atom false "CDR"; quoted_123]) initial _ initial
            initial_settled _))).
  vm_compute; reflexivity.
Defined.

Lemma toString_prints_what_is_fetched_witness :
  toString false 2 false (Atom false "CAR") initial
  = toString false 2 false (Native FnCAR) initial.
Proof.
  refine (proj1 (toString_prints_what_is_fetched false 1 false (Atom false "CAR") initial
            (Native FnCAR) initial initial_settled _)).
  vm_compute; reflexivity.
Defined.

Lemma memory_holds_values_witness :
  settled (memory (set_memory "X" (Atom false "5") initial)).
Proof.
  refine (memory_holds_values false 3
            [List false [Atom false "SETQ"; Atom false "X"; Atom false "5"]]
            (set_memory "X" (Atom false "5") initial) _).
  vm_compute; reflexivity.
Defined.

Lemma output_is_only_appended_witness :
  extends (stdout initial) ["a "; newline].
Proof.
  refine (output_is_only_appended false 3
            (List false [Atom false "PRINT"; Atom true "a"]) initial getNil
            {| memory := initial_memory; stdout := ["a "; newline] |} _).
  vm_compute; reflexivity.
Defined.

Lemma only_three_natives_write_witness :
  memory {| memory := reading_memory; stdout := [] |} = reading_memory.
Proof.
  refine (only_three_natives_write false 2 (List false [Atom false "CAR"; quoted_123])
            {| memory := reading_memory; stdout := [] |} (Atom true "1")
            {| memory := reading_memory; stdout := [] |} eq_refl
            reading_memory_read_only _).
  vm_compute; reflexivity.
Defined.

Lemma no_name_is_unbound_witness :
  keeps_names (memory initial) (memory (set_memory "X" (Atom false "5") initial)).
Proof.
  refine (no_name_is_unbound false 2
            (List false [Atom false "SETQ"; Atom false "X"; Atom false "5"]) initial
            (Atom false "5") (set_memory "X" (Atom false "5") initial) _).
  vm_compute; reflexivity.
Defined.

(** ** Calls of the natives *)

Section MoreCalls.

Variable flagUseColor : bool.

(** X13: [(REVERSE (REVERSE p))] returns, quoted, the elements of the list
    [p] fetches to, in their order, and leaves the state the fetch of [p]
    left. *)
Theorem reverse_twice (fuel : nat) (e1 e2 : bool) (p : Value) (st : State)
    (le : bool) (xs : list Value) (st' : State) :
  memory st !! "REVERSE" = Some (Native FnREVERSE) ->
  fetch flagUseColor fuel p st = Ok (List le xs, st') ->
  execute flagUseColor (3 + fuel)
    (List false [Atom e1 "REVERSE"; List false [Atom e2 "REVERSE"; p]]) st
  = Ok (List true xs, st').
Proof.
  intros Hrev Hp. change (3 + fuel)%nat with (S (S (S fuel))).
  rewrite execute_call. change (Text.toUpperCase "REVERSE") with "REVERSE". rewrite Hrev.
  unfold native; simpl.
  rewrite fetch_list; simpl.
  rewrite execute_call. change (Text.toUpperCase "REVERSE") with "REVERSE". rewrite Hrev.
  unfold native; simpl. rewrite Hp; simpl.
  rewrite !map_copy_same, rev_involutive. reflexivity.
Qed.

(** X14: [(CAR (CONS p q))] returns what [p] fetches to and
    [(CDR (CONS p q))] the quoted list of the elements [q] fetches to, with
    [p] fetched before [q]. *)
Theorem car_cdr_of_cons (fuel : nat) (e0 e1 e2 e3 : bool) (p q : Value) (st : State)
    (v : Value) (st1 : State) (le : bool) (xs : list Value) (st2 : State) :
  memory st !! "CONS" = Some (Native FnCONS) ->
  memory st !! "CAR" = Some (Native FnCAR) ->
  memory st !! "CDR" = Some (Native FnCDR) ->
  fetch flagUseColor fuel p st = Ok (v, st1) ->
  fetch flagUseColor fuel q st1 = Ok (List le xs, st2) ->
  execute flagUseColor (3 + fuel)
    (List false [Atom e0 "CAR"; List false [Atom e1 "CONS"; p; q]]) st = Ok (v, st2)
  /\ execute flagUseColor (3 + fuel)
       (List false [Atom e2 "CDR"; List false [Atom e3 "CONS"; p; q]]) st
     = Ok (List true xs, st2).
Proof.
  intros Hcons Hcar Hcdr Hp Hq. change (3 + fuel)%nat with (S (S (S fuel))).
  assert (Hc : forall e, fetch flagUseColor (S (S fuel)) (List false [Atom e "CONS"; p; q]) st
               = Ok (List true (v :: xs), st2)).
  { intros e. rewrite fetch_list; simpl.
    rewrite execute_call. change (Text.toUpperCase "CONS") with "CONS". rewrite Hcons.
    unfold native; simpl. rewrite Hp; simpl. rewrite Hq; simpl.
    rewrite ?fetch_list; simpl. rewrite copy_same, map_copy_same. reflexivity. }
  split.
  - rewrite execute_call. change (Text.toUpperCase "CAR") with "CAR". rewrite Hcar.
    unfold native; simpl. rewrite Hc. simpl. rewrite copy_same. reflexivity.
  - rewrite execute_call. change (Text.toUpperCase "CDR") with "CDR". rewrite Hcdr.
    unfold native; simpl. rewrite Hc. simpl. rewrite map_copy_same. reflexivity.
Qed.

(** X15: [(SETQ name p)] returns what [p] fetches to and binds it under the
    upper-cased name in the state the fetch left, leaving the output alone;
    afterwards an unquoted atom that differs from the name in case only
    fetches to that value, unless its text converts to a number, in which
    case it fetches to itself and the binding is never read. *)
Theorem setq_then_read (fuel : nat) (e : bool) (name name' : string) (p : Value)
    (st : State) (v : Value) (st1 : State) :
  memory st !! "SETQ" = Some (Native FnSETQ) ->
  Text.toUpperCase name <> "TRUE" -> Text.toUpperCase name <> "NIL" ->
  Text.toUpperCase name' = Text.toUpperCase name ->
  fetch flagUseColor fuel p st = Ok (v, st1) ->
  let st2 := set_memory (Text.toUpperCase name) v st1 in
  execute flagUseColor (S fuel) (List false [Atom e "SETQ"; Atom false name; p]) st
    = Ok (v, st2)
  /\ forall depth,
       fetch flagUseColor (S depth) (Atom false name') st2
       = if Text.numeric_literal name' then Ok (Atom false name', st2) else Ok (v, st2).
Proof.
  intros Hsetq HT HN Hsame Hp st2. split.
  - rewrite execute_call. change (Text.toUpperCase "SETQ") with "SETQ". rewrite Hsetq.
    unfold native; simpl. rewrite Hp. simpl.
    destruct (String.eqb_spec (Text.toUpperCase name) "TRUE"); [contradiction|reflexivity].
  - intros depth. destruct (Text.numeric_literal name') eqn:Hnum.
    + apply fetch_numeric. exact Hnum.
    + rewrite fetch_variable; [|rewrite Hsame; exact HT|rewrite Hsame; exact HN|exact Hnum].
      rewrite Hsame. unfold st2; simpl. rewrite lookup_insert_eq. reflexivity.
Qed.

(** X16: for a name other than [TRUE] and [NIL], [(SET 'name p)] and
    [(SETQ name p)] do the same, failure included. *)
Theorem set_quoted_is_setq (fuel : nat) (e1 e2 : bool) (name : string) (p : Value)
    (st : State) :
  memory st !! "SET" = Some (Native FnSET) ->
  memory st !! "SETQ" = Some (Native FnSETQ) ->
  Text.toUpperCase name <> "TRUE" -> Text.toUpperCase name <> "NIL" ->
  execute flagUseColor (S (S fuel)) (List false [Atom e1 "SET"; Atom true name; p]) st
  = execute flagUseColor (S (S fuel)) (List false [Atom e2 "SETQ"; Atom false name; p]) st.
Proof.
  intros Hset Hsetq HT HN. rewrite !execute_call.
  change (Text.toUpperCase "SETQ") with "SETQ". change (Text.toUpperCase "SET") with "SET".
  rewrite Hset, Hsetq. unfold native; simpl.
  rewrite (fetch_self_evaluating flagUseColor fuel (Atom true name) st).
  2:{ simpl. destruct (String.eqb_spec (Text.toUpperCase name) "NIL"); [contradiction|reflexivity]. }
  simpl bind.
  destruct (fetch flagUseColor (S fuel) p st) as [[value st1]|f]; simpl; [|reflexivity].
  destruct (String.eqb_spec (Text.toUpperCase name) "TRUE"); [contradiction|reflexivity].
Qed.

(** X17: a call whose head names a method or a native does not depend on
    the case of the head, nor on its quote flag. *)
Theorem called_name_ignores_case (fuel : nat) (e e' : bool) (name name' : string)
    (arguments : list Value) (st : State) (callee : Value) :
  Text.toUpperCase name' = Text.toUpperCase name ->
  memory st !! Text.toUpperCase name = Some callee -> callable callee = true ->
  execute flagUseColor (S fuel) (List false (Atom e' name' :: arguments)) st
  = execute flagUseColor (S fuel) (List false (Atom e name :: arguments)) st.
Proof.
  intros Hsame Hm Hc. rewrite !execute_call, Hsame, Hm.
  destruct callee; try discriminate; reflexivity.
Qed.

(** X18: an atom spelling [TRUE] or [NIL] in any case is fetched without
    reading the memory, [NIL] to the empty list even when quoted and [TRUE]
    to itself; [SET] refuses both as a name; [SETQ] refuses [TRUE] but takes
    [NIL] and binds it, a binding no fetch reads. *)
Theorem reserved_atoms (fuel : nat) (e : bool) (s : string) (st : State) :
  Text.toUpperCase s = "TRUE" \/ Text.toUpperCase s = "NIL" ->
  fetch flagUseColor (S fuel) (Atom e s) st
    = Ok (if String.eqb (Text.toUpperCase s) "NIL" then getNil else Atom e s, st)
  /\ (forall p v st1,
        fetch flagUseColor (S fuel) p st = Ok (v, st1) ->
        native flagUseColor (S fuel) FnSET [Atom true s; p] st
          = throw "SET: Left-hand parameter is illegal.")
  /\ (forall p v st1,
        fetch flagUseColor fuel p st = Ok (v, st1) ->
        native flagUseColor fuel FnSETQ [Atom false s; p] st
          = if String.eqb (Text.toUpperCase s) "NIL"
            then Ok (v, set_memory "NIL" v st1)
            else throw "SETQ: Left-hand parameter is illegal.").
Proof.
  intros H. split; [|split].
  - rewrite fetch_atom. destruct H as [-> | ->]; simpl; rewrite ?andb_false_r; reflexivity.
  - intros p v st1 Hp. unfold native; simpl.
    rewrite fetch_atom. destruct H as [H|H]; rewrite H; simpl; rewrite Hp; simpl;
      rewrite ?H; reflexivity.
  - intros p v st1 Hp. unfold native; simpl. rewrite Hp. simpl.
    destruct H as [H|H]; rewrite H; reflexivity.
Qed.

(** X19: [EVAL] of a quoted list is the call that the list spells, one level
    of depth further down; [EVAL] of a quoted atom returns the atom and looks
    nothing up. *)
Theorem eval_runs_quoted_lists_only (fuel : nat) (e : bool) (st : State) :
  memory st !! "EVAL" = Some (Native FnEVAL) ->
  (forall elements,
     execute flagUseColor (S (S fuel)) (List false [Atom e "EVAL"; List true elements]) st
     = execute flagUseColor (S fuel) (List false elements) st)
  /\ (forall s,
     Text.toUpperCase s <> "NIL" ->
     execute flagUseColor (S (S fuel)) (List false [Atom e "EVAL"; Atom true s]) st
     = Ok (Atom true s, st)).
Proof.
  intros Heval. split.
  - intros elements. rewrite execute_call. change (Text.toUpperCase "EVAL") with "EVAL".
    rewrite Heval. unfold native; simpl. rewrite ?fetch_list; simpl.
    rewrite ?map_copy_same. reflexivity.
  - intros s Hs. rewrite execute_call. change (Text.toUpperCase "EVAL") with "EVAL".
    rewrite Heval. unfold native; simpl.
    rewrite (fetch_self_evaluating flagUseColor fuel (Atom true s) st); [reflexivity|].
    simpl. destruct (String.eqb_spec (Text.toUpperCase s) "NIL"); [contradiction|reflexivity].
Qed.

Lemma PRINT_loop_texts (fuel : nat) (texts : list string) (st : State) :
  Forall (fun t => Text.toUpperCase t <> "NIL") texts ->
  PRINT_loop false (toString false (S (S fuel))) (map (Atom true) texts) st
  = Ok {| memory := memory st;
          stdout := (stdout st ++ map (fun t => t +:+ " ") texts)%list |}.
Proof.
  intros H. revert st; induction H as [|t texts Ht _ IH]; intros st; simpl.
  - rewrite app_nil_r. destruct st; reflexivity.
  - rewrite toString_unfold.
    rewrite (fetch_self_evaluating false fuel (Atom true t) st).
    2:{ simpl. destruct (String.eqb_spec (Text.toUpperCase t) "NIL"); [contradiction|reflexivity]. }
    simpl. rewrite IH. simpl. rewrite <- app_assoc. reflexivity.
Qed.

(** X20: without colour, [PRINT] of quoted atoms other than [NIL] writes
    each text followed by a space, then a line break as a write of its own,
    returns the empty list and leaves the memory alone. *)
Theorem print_writes_each_text (fuel : nat) (texts : list string) (st : State) :
  Forall (fun t => Text.toUpperCase t <> "NIL") texts ->
  native false (S (S fuel)) FnPRINT (map (Atom true) texts) st
  = Ok (getNil,
        {| memory := memory st;
           stdout := (stdout st ++ map (fun t => t +:+ " ") texts ++ [newline])%list |}).
Proof.
  intros H. unfold native; simpl. unfold PRINT. rewrite (PRINT_loop_texts fuel texts st H).
  simpl. unfold write; simpl. rewrite <- app_assoc. reflexivity.
Qed.

End MoreCalls.

Section MoreNatives.

Variable flagUseColor : bool.
Variable fetch : Value -> State -> Result.
Variable execute : Value -> State -> Result.
Variable toString : bool -> Value -> State -> Outcome (string * State).


(** X22: when [ATOM], [EQ], [NEG] or [POS] returns, it returns the unquoted
    atom [TRUE] or the empty list; when [PRINT] returns, it returns the empty
    list. *)
Theorem predicates_answer_true_or_nil (fn : NativeFn) (parameters : list Value)
    (st : State) (r : Value) (st' : State) :
  call_native flagUseColor fetch execute toString fn parameters st = Ok (r, st') ->
  (is_predicate fn = true -> r = getTrue \/ r = getNil)
  /\ (fn = FnPRINT -> r = getNil).
Proof.
  intros H. split.
  - destruct fn; try discriminate; intros _; simpl in H.
    + unfold ATOM in H. destruct parameters as [|p0 [|? ?]]; try discriminate.
      destruct (fetch p0 st) as [[v st1]|]; simpl in H; [|discriminate].
      inversion H; subst. destruct (_ || _); auto.
    + unfold EQ in H. destruct parameters as [|p0 [|p1 [|? ?]]]; try discriminate.
      destruct (fetch p0 st) as [[v0 st1]|]; simpl in H; [|discriminate].
      destruct (fetch p1 st1) as [[v1 st2]|]; simpl in H; [|discriminate].
      destruct (Host.isNaN _); [discriminate|]. destruct (Host.isNaN _); [discriminate|].
      unfold boolean in H. destruct (Host.strict_eq _ _) as [[]|]; inversion H; auto.
    + unfold NEG in H. destruct parameters as [|p0 [|? ?]]; try discriminate.
      destruct (fetch p0 st) as [[v0 st1]|]; simpl in H; [|discriminate].
      destruct (Host.isNaN _); [discriminate|].
      unfold boolean in H. destruct (Host.is_negative _) as [[]|]; inversion H; auto.
    + unfold POS in H. destruct parameters as [|p0 [|? ?]]; try discriminate.
      destruct (fetch p0 st) as [[v0 st1]|]; simpl in H; [|discriminate].
      destruct (Host.isNaN _); [discriminate|].
      unfold boolean in H. destruct (Host.is_non_negative _) as [[]|]; inversion H; auto.
  - intros ->. simpl in H. unfold PRINT in H.
    destruct (PRINT_loop _ _ _ _); simpl in H; [|discriminate]. inversion H; reflexivity.
Qed.

End MoreNatives.

Section Sums.

Variable flagUseColor : bool.

Lemma ADD_loop_total (fuel : nat) (ps : list Value) (zs : list Z) (acc s : Z) (st : State) :
  Forall (fun p => self_evaluating p = true) ps ->
  map Number_ ps = map Exact zs -> total Z.add acc zs = Some s ->
  ADD_loop (fetch flagUseColor (S fuel)) ps (Exact acc) st = Ok (Exact s, st).
Proof.
  intros Hps. revert zs acc; induction Hps as [|p ps Hp _ IH]; intros [|z zs] acc Hn Ht;
    simpl in Hn; try discriminate.
  - simpl in Ht. inversion Ht; subst. reflexivity.
  - inversion Hn as [[Hz Hrest]]. simpl in Ht.
    destruct (Host.safe (acc + z)) eqn:Hsafe; [|discriminate].
    simpl. rewrite (fetch_self_evaluating flagUseColor fuel p st Hp). simpl.
    rewrite Hz. simpl. unfold Host.exact. rewrite Hsafe. apply (IH zs _ Hrest Ht).
Qed.

Lemma MULT_loop_total (fuel : nat) (ps : list Value) (zs : list Z) (acc s : Z) (st : State) :
  Forall (fun p => self_evaluating p = true) ps ->
  map Number_ ps = map Exact zs -> total Z.mul acc zs = Some s ->
  MULT_loop (fetch flagUseColor (S fuel)) ps (Exact acc) st = Ok (Exact s, st).
Proof.
  intros Hps. revert zs acc; induction Hps as [|p ps Hp _ IH]; intros [|z zs] acc Hn Ht;
    simpl in Hn; try discriminate.
  - simpl in Ht. inversion Ht; subst. reflexivity.
  - inversion Hn as [[Hz Hrest]]. simpl in Ht.
    destruct (Host.safe (acc * z)) eqn:Hsafe; [|discriminate].
    simpl. rewrite (fetch_self_evaluating flagUseColor fuel p st Hp). simpl.
    rewrite Hz. simpl. unfold Host.exact. rewrite Hsafe. apply (IH zs _ Hrest Ht).
Qed.

(** X23: handed two or more arguments that fetch to themselves and convert
    to integers, [ADD] returns the text of their sum taken from 0 and [MULT]
    that of their product taken from 1, from left to right, as an unquoted
    atom and with the state untouched, as long as every intermediate result
    is an integer the host holds exactly. *)
Theorem add_and_mult_fold_their_arguments (fuel : nat) (ps : list Value) (zs : list Z)
    (st : State) :
  Forall (fun p => self_evaluating p = true) ps ->
  map Number_ ps = map Exact zs -> (2 <= length ps)%nat ->
  (forall s, total Z.add 0 zs = Some s ->
     native flagUseColor (S fuel) FnADD ps st = Ok (Atom false (Text.of_Z s), st))
  /\ (forall s, total Z.mul 1 zs = Some s ->
     native flagUseColor (S fuel) FnMULT ps st = Ok (Atom false (Text.of_Z s), st)).
Proof.
  intros Hps Hn Hlen.
  assert (Hlt : (length ps <? 2)%nat = false) by (apply Nat.ltb_ge; exact Hlen).
  split; intros s Hs; unfold native; simpl.
  - unfold ADD. rewrite Hlt, (ADD_loop_total fuel ps zs 0 s st Hps Hn Hs). reflexivity.
  - unfold MULT. rewrite Hlt, (MULT_loop_total fuel ps zs 1 s st Hps Hn Hs). reflexivity.
Qed.

End Sums.

Lemma reverse_twice_witness :
  execute false 4
    (List false [Atom false "REVERSE"; List false [Atom false "REVERSE"; quoted_123]])
    initial
  = Ok (quoted_123, initial).
Proof.
  refine (reverse_twice false 1 false false quoted_123 initial true _ initial _ _);
    vm_compute; reflexivity.
Defined.

Lemma car_cdr_of_cons_witness :
  execute false 4
    (List false [Atom false "CAR";
                 List false [Atom false "CONS"; Atom true "a"; quoted_123]]) initial
  = Ok (Atom true "a", initial).
Proof.
  refine (proj1 (car_cdr_of_cons false 1 false false false false (Atom true "a") quoted_123
                   initial (Atom true "a") initial true _ initial
                   initial_CONS initial_CAR initial_CDR _ _));
    vm_compute; reflexivity.
Defined.

Lemma setq_then_read_witness :
  execute false 2 (List false [Atom false "SETQ"; Atom false "x"; Atom false "5"]) initial
  = Ok (Atom false "5", set_memory "X" (Atom false "5") initial).
Proof.
  refine (proj1 (setq_then_read false 1 false "x" "X" (Atom false "5") initial
                   (Atom false "5") initial _ _ _ _ _));
    try discriminate; vm_compute; reflexivity.
Defined.

Lemma set_quoted_is_setq_witness :
  execute false 2 (List false [Atom false "SET"; Atom true "x"; Atom false "5"]) initial
  = execute false 2 (List false [Atom false "SETQ"; Atom false "x"; Atom false "5"]) initial.
Proof.
  refine (set_quoted_is_setq false 0 false false "x" (Atom false "5") initial _ _ _ _);
    try discriminate; vm_compute; reflexivity.
Defined.

Lemma called_name_ignores_case_witness :
  execute false 2 (List false [Atom true "CaR"; quoted_123]) initial
  = execute false 2 (List false [Atom false "car"; quoted_123]) initial.
Proof.
  refine (called_name_ignores_case false 1 false true "car" "CaR" [quoted_123] initial
            (Native FnCAR) _ _ _);
    vm_compute; reflexivity.
Defined.

Lemma reserved_atoms_witness :
  fetch false 1 (Atom true "nil") initial = Ok (getNil, initial).
Proof.
  refine (proj1 (reserved_atoms false 0 true "nil" initial _)).
  right. reflexivity.
Defined.

Lemma eval_runs_quoted_lists_only_witness :
  execute false 2 (List false [Atom false "EVAL"; Atom true "a"]) initial
  = Ok (Atom true "a", initial).
Proof.
  refine (proj2 (eval_runs_quoted_lists_only false 0 false initial _) "a" _).
  - vm_compute; reflexivity.
  - discriminate.
Defined.

Lemma print_writes_each_text_witness :
  native false 2 FnPRINT [Atom true "a"; Atom true "b"] initial
  = Ok (getNil, {| memory := initial_memory; stdout := ["a "; "b "; newline] |}).
Proof.
  refine (print_writes_each_text 0 ["a"; "b"] initial _).
  repeat constructor; discriminate.
Defined.


Lemma predicates_answer_true_or_nil_witness :
  getNil = getTrue \/ getNil = getNil.
Proof.
  refine (proj1 (predicates_answer_true_or_nil false (fetch false 1) (execute false 1)
                   (toString false 1) FnATOM [quoted_123] initial getNil initial _)
            eq_refl).
  vm_compute; reflexivity.
Defined.

Lemma add_and_mult_fold_their_arguments_witness :
  native false 1 FnADD [Atom false "1"; Atom false "2"; Atom false "3"] initial
  = Ok (Atom false "6", initial).
Proof.
  refine (proj1 (add_and_mult_fold_their_arguments false 0
                   [Atom false "1"; Atom false "2"; Atom false "3"] [1; 2; 3]%Z initial
                   _ _ _) 6%Z _).
  - repeat constructor.
  - vm_compute; reflexivity.
  - simpl; lia.
  - vm_compute; reflexivity.
Defined.

(** ** The text the driver parses *)

Module DriverFacts.
Import Parser ParserMoreTerms.

Lemma strip_cons (c : ascii) (rest : string) :
  strip_line_breaks (String c rest) =
    if Ascii.eqb c LF then strip_line_breaks rest
    else if Ascii.eqb c CR then
      match rest with
      | String d rest' =>
          if Ascii.eqb d LF then strip_line_breaks rest'
          else String c (strip_line_breaks rest)
      | EmptyString => String c EmptyString
      end
    else String c (strip_line_breaks rest).
Proof. reflexivity. Qed.

Lemma strip_no_line_feed (text : string) : count LF (strip_line_breaks text) = 0%nat.
Proof.
  induction text as [|c rest IH]; [reflexivity|].
  rewrite strip_cons. destruct (Ascii.eqb c LF) eqn:E1; [exact IH|].
  destruct (Ascii.eqb c CR) eqn:E2.
  - destruct rest as [|d rest']; [cbn [count]; rewrite E1; reflexivity|].
    destruct (Ascii.eqb d LF) eqn:E3.
    + rewrite strip_cons, E3 in IH. exact IH.
    + cbn [count]. rewrite E1. exact IH.
  - cbn [count]. rewrite E1. exact IH.
Qed.

Lemma strip_one_line (a rest : string) :
  one_line a = true ->
  strip_line_breaks (a +:+ String LF rest) = a +:+ strip_line_breaks rest
  /\ strip_line_breaks (a +:+ String CR (String LF rest)) = a +:+ strip_line_breaks rest.
Proof.
  unfold one_line. induction a as [|c a IH]; intros H.
  - split; reflexivity.
  - simpl in H. apply andb_true_iff in H as [Hc Ha]. apply andb_true_iff in Hc as [H1 H2].
    apply negb_true_iff in H1, H2. destruct (IH Ha) as [IH1 IH2].
    split.
    + change (String c a +:+ String LF rest) with (String c (a +:+ String LF rest)).
      change (String c a +:+ strip_line_breaks rest)
        with (String c (a +:+ strip_line_breaks rest)).
      rewrite <- IH1. simpl. rewrite H1, H2. reflexivity.
    + change (String c a +:+ String CR (String LF rest))
        with (String c (a +:+ String CR (String LF rest))).
      change (String c a +:+ strip_line_breaks rest)
        with (String c (a +:+ strip_line_breaks rest)).
      rewrite <- IH2. simpl. rewrite H1, H2. reflexivity.
Qed.

Lemma strip_nothing (b : string) : one_line b = true -> strip_line_breaks b = b.
Proof.
  unfold one_line. induction b as [|c b IH]; intros H; [reflexivity|].
  simpl in H. apply andb_true_iff in H as [Hc Hb]. apply andb_true_iff in Hc as [H1 H2].
  apply negb_true_iff in H1, H2. simpl. rewrite H1, H2, (IH Hb). reflexivity.
Qed.

(** X24: the text the driver hands to the parser holds no line feed; a line
    break, with or without a carriage return, between two texts free of them
    is deleted and not turned into a space, so the driver parses the two
    texts joined. *)
Theorem line_breaks_are_deleted (a b file : string) :
  one_line a = true -> one_line b = true ->
  count LF (strip_line_breaks file) = 0%nat
  /\ load (a +:+ String LF b) = parse (a +:+ b)
  /\ load (a +:+ String CR (String LF b)) = parse (a +:+ b).
Proof.
  intros Ha Hb. split; [apply strip_no_line_feed|].
  unfold load. destruct (strip_one_line a b Ha) as [-> ->].
  rewrite (strip_nothing b Hb). split; reflexivity.
Qed.

Lemma line_breaks_are_deleted_witness :
  load ("(ADD 1" +:+ String LF "2)") = parse ("(ADD 1" +:+ "2)").
Proof.
  exact (proj1 (proj2 (line_breaks_are_deleted "(ADD 1" "2)" "" eq_refl eq_refl))).
Defined.

End DriverFacts.
